(** * Li-ion / LiFePO4 BMS charger-tester for Arduino Uno

    A shallow embedding of [Arduino_BMS_4S-v1.ino] and the properties of its
    measurement-and-control loop, configuration selector, calibration store
    and console that the specification states, followed by further
    properties of the code: the calibration store, the console lines, the
    outputs, the time gates and the measurement.

    The sketch runs on an ATmega328P compiled with avr-gcc:
    - [byte] is an unsigned 8-bit integer, [char] a signed 8-bit integer,
      [int] a signed 16-bit integer, [unsigned int] 16 bits and
      [unsigned long] 32 bits.  They are modelled as [Z] with the
      wrap-around written out.
    - [float] and [double] are both IEEE-754 binary32.  They are modelled
      with the executable specification of the Standard Library
      ([SpecFloat]) instantiated at precision 24 and maximal exponent 128,
      rounding to nearest even, so that the roundings of the sketch are
      part of the model.
    - global and [static] variables are the fields of one record [state];
      the hardware outputs (pins, buzzer, console) are an output trace. *)

From Stdlib Require Import ZArith List Bool Lia QArith Qabs Qpower Lqa String Ascii.
From Stdlib Require Import SpecFloat.
From stdpp Require Import base list.
Import ListNotations.
Open Scope Z_scope.

(** ** Machine integers *)

Module Int.
(** [byte] / [uint8_t] *)
Definition u8 (z : Z) : Z := z mod 256.
(** [unsigned int] *)
Definition u16 (z : Z) : Z := z mod 65536.
(** [unsigned long] *)
Definition u32 (z : Z) : Z := z mod 4294967296.
(** [char] (signed on avr-gcc) *)
Definition s8 (z : Z) : Z := (z + 128) mod 256 - 128.
(** [int] *)
Definition s16 (z : Z) : Z := (z + 32768) mod 65536 - 32768.
(** Arduino's [highByte(w)] is [(uint8_t)((w) >> 8)] and [lowByte(w)] is
    [(uint8_t)((w) & 0xff)]. *)
Definition highByte (w : Z) : Z := u8 (Z.shiftr w 8).
Definition lowByte (w : Z) : Z := u8 (Z.land w 255).
(** Character code of a C character literal. *)
Definition chr (c : ascii) : Z := Z.of_N (N_of_ascii c).
End Int.

(** ** binary32 arithmetic *)

Module F32.
Definition prec : Z := 24.
Definition emax : Z := 128.
Definition float : Type := spec_float.

(** Conversion of an integer to [float] (exact below [2^24]). *)
Definition of_int (z : Z) : float := binary_normalize prec emax z 0 false.

Definition add : float -> float -> float := SFadd prec emax.
Definition sub : float -> float -> float := SFsub prec emax.
Definition mul : float -> float -> float := SFmul prec emax.
Definition div : float -> float -> float := SFdiv prec emax.

(** A decimal literal [num/den] ([4.9] is [lit 49 10]): the compiler
    rounds it to the nearest binary32, which is what the correctly rounded
    quotient of the two exactly represented integers gives. *)
Definition lit (num den : Z) : float := div (of_int num) (of_int den).

(** C's [<] and [>]; both are false when an operand is NaN. *)
Definition ltb (x y : float) : bool := SFltb x y.
Definition gtb (x y : float) : bool := SFltb y x.
(** C's [==]: false when an operand is NaN, true on zeros of either sign. *)
Definition eqb (x y : float) : bool := SFeqb x y.

(** Conversion of a [float] to an integer: truncation toward zero
    (avr-libc's [__fixsfsi]).  NaN and the infinities are mapped to [0];
    the caller wraps the result to the width of its integer type. *)
Definition to_int (x : float) : Z :=
  match x with
  | S754_finite s m e => cond_Zopp s (Z.shiftl (Z.pos m) e)
  | _ => 0
  end.

(** The rational number a finite [float] denotes ([0] for the others). *)
Definition to_Q (x : float) : Q :=
  match x with
  | S754_finite s m e =>
      match e with
      | Z0 => cond_Zopp s (Z.pos m) # 1
      | Z.pos p => (cond_Zopp s (Z.pos m) * 2 ^ Z.pos p) # 1
      | Z.neg p => cond_Zopp s (Z.pos m) # (2 ^ p)
      end
  | _ => 0%Q
  end.

Definition is_finite (x : float) : bool :=
  match x with
  | S754_finite _ _ _ | S754_zero _ => true
  | _ => false
  end.

(** A well-formed binary32 datum: finite values are canonical. *)
Definition valid (x : float) : bool := valid_binary prec emax x.

(** The largest finite binary32, [(2^24 - 1) * 2^104]. *)
Definition largest : float := S754_finite false 16777215 104.
End F32.

#[global] Instance float_inhabited : Inhabited F32.float := populate (S754_zero false).

(** ** Hardware connexion *)

Definition VcellPin (i : nat) : Z := Z.of_nat i.
Definition shuntPin (i : nat) : Z := Z.of_nat i + 2.
Definition ImaxPin : Z := 6.
Definition buzzerPin : Z := 7.
Definition pwmPin : Z := 9.
Definition UrcPin : Z := 10.
Definition DrcPin : Z := 11.
Definition CrcPin : Z := 12.
Definition enablePin : Z := 13.

(** What the sketch does to the outside world, in order. *)
Inductive event : Type :=
| DigitalWrite (pin : Z) (level : bool)
| AnalogWrite (pin : Z) (value : Z)
| Tone (pin frequency duration : Z)
| Println (msg : string)
| ConsoleDisplay (what : Z)
| OledDisplay.

(** The readings one pass of [loop] takes from the hardware. *)
Record inputs : Type := mkInputs {
  millis : Z;               (* millis() *)
  analogRead : list Z;      (* analogRead(pin) for the pins 0..3 *)
  ImaxLevel : bool;         (* digitalRead(ImaxPin) *)
  UrcLevel : bool;          (* digitalRead(UrcPin) *)
  DrcLevel : bool;          (* digitalRead(DrcPin) *)
  CrcLevel : bool           (* digitalRead(CrcPin) *)
}.

(** An array access outside its bounds has no defined behaviour in C: the
    model stops there and reports the array and the index. *)
Inductive result (A : Type) : Type :=
| Ok (a : A)
| OutOfBounds (array : string) (idx : Z).
Arguments Ok {A} a.
Arguments OutOfBounds {A} array idx.

Definition bind {A B : Type} (r : result A) (k : A -> result B) : result B :=
  match r with
  | Ok a => k a
  | OutOfBounds arr i => OutOfBounds arr i
  end.

(** ** Program state: the globals, then the [static] locals of [loop],
    then the EEPROM and the output trace. *)

Record state : Type := mkState {
  cellModel : bool;                       (* LOW = Li-ion / HIGH = LifePo4 *)
  cellNumber : Z;                         (* number of cells to charge *)
  Vmax : list F32.float;                  (* maximum voltage for Li-ion / LifePo4 cells *)
  Vmin : list F32.float;                  (* minimum voltage for Li-ion / LifePo4 cells *)
  Vcalibration : list F32.float;          (* calibration to fit real voltage measures *)
  Valim : F32.float;                      (* power supply voltage *)
  Vcell : list F32.float;                 (* cells measured voltage *)
  memo_Vcell : list F32.float;            (* past cells voltage *)
  runOnce : bool;                         (* run one time only flag *)
  pwm : Z;                                (* buck converter pwm *)
  index : Z;                              (* input character counter *)
  consoleInput : list Z;                  (* console input, char[7] *)
  whatToDisplay : Z;                      (* select console messages to display *)
  Imax : bool;                            (* flag for charging max current *)
  memo_Urc : bool;
  memo_Drc : bool;
  memo_Crc : bool;
  VcellCumul : list F32.float;            (* static in loop: cumulative analogRead *)
  analogReadsCount : Z;                   (* static in loop: number of analogRead *)
  buzzerON : bool;                        (* static in loop *)
  oneMinute : bool;                       (* static in loop *)
  counter : Z;                            (* static in the run-once block *)
  memo_tempo_shuntON : Z;                 (* static in the run-once block *)
  memo_tempo : Z;                         (* static in loop *)
  memo_tempo_tendancy : Z;                (* static in loop *)
  EEPROM : list Z;                        (* the bytes of the EEPROM *)
  output : list event                     (* what was written to the pins, buzzer and console *)
}.

(** One setter per variable the sketch assigns. *)

Definition set_cellModel (v : bool) (s : state) : state :=
  {| cellModel := v; cellNumber := cellNumber s; Vmax := Vmax s; Vmin := Vmin s;
     Vcalibration := Vcalibration s; Valim := Valim s; Vcell := Vcell s;
     memo_Vcell := memo_Vcell s; runOnce := runOnce s; pwm := pwm s; index := index s;
     consoleInput := consoleInput s; whatToDisplay := whatToDisplay s; Imax := Imax s;
     memo_Urc := memo_Urc s; memo_Drc := memo_Drc s; memo_Crc := memo_Crc s;
     VcellCumul := VcellCumul s; analogReadsCount := analogReadsCount s;
     buzzerON := buzzerON s; oneMinute := oneMinute s; counter := counter s;
     memo_tempo_shuntON := memo_tempo_shuntON s; memo_tempo := memo_tempo s;
     memo_tempo_tendancy := memo_tempo_tendancy s; EEPROM := EEPROM s; output := output s |}.

Definition set_cellNumber (v : Z) (s : state) : state :=
  {| cellModel := cellModel s; cellNumber := v; Vmax := Vmax s; Vmin := Vmin s;
     Vcalibration := Vcalibration s; Valim := Valim s; Vcell := Vcell s;
     memo_Vcell := memo_Vcell s; runOnce := runOnce s; pwm := pwm s; index := index s;
     consoleInput := consoleInput s; whatToDisplay := whatToDisplay s; Imax := Imax s;
     memo_Urc := memo_Urc s; memo_Drc := memo_Drc s; memo_Crc := memo_Crc s;
     VcellCumul := VcellCumul s; analogReadsCount := analogReadsCount s;
     buzzerON := buzzerON s; oneMinute := oneMinute s; counter := counter s;
     memo_tempo_shuntON := memo_tempo_shuntON s; memo_tempo := memo_tempo s;
     memo_tempo_tendancy := memo_tempo_tendancy s; EEPROM := EEPROM s; output := output s |}.

Definition set_Vmax (v : list F32.float) (s : state) : state :=
  {| cellModel := cellModel s; cellNumber := cellNumber s; Vmax := v; Vmin := Vmin s;
     Vcalibration := Vcalibration s; Valim := Valim s; Vcell := Vcell s;
     memo_Vcell := memo_Vcell s; runOnce := runOnce s; pwm := pwm s; index := index s;
     consoleInput := consoleInput s; whatToDisplay := whatToDisplay s; Imax := Imax s;
     memo_Urc := memo_Urc s; memo_Drc := memo_Drc s; memo_Crc := memo_Crc s;
     VcellCumul := VcellCumul s; analogReadsCount := analogReadsCount s;
     buzzerON := buzzerON s; oneMinute := oneMinute s; counter := counter s;
     memo_tempo_shuntON := memo_tempo_shuntON s; memo_tempo := memo_tempo s;
     memo_tempo_tendancy := memo_tempo_tendancy s; EEPROM := EEPROM s; output := output s |}.

Definition set_Vmin (v : list F32.float) (s : state) : state :=
  {| cellModel := cellModel s; cellNumber := cellNumber s; Vmax := Vmax s; Vmin := v;
     Vcalibration := Vcalibration s; Valim := Valim s; Vcell := Vcell s;
     memo_Vcell := memo_Vcell s; runOnce := runOnce s; pwm := pwm s; index := index s;
     consoleInput := consoleInput s; whatToDisplay := whatToDisplay s; Imax := Imax s;
     memo_Urc := memo_Urc s; memo_Drc := memo_Drc s; memo_Crc := memo_Crc s;
     VcellCumul := VcellCumul s; analogReadsCount := analogReadsCount s;
     buzzerON := buzzerON s; oneMinute := oneMinute s; counter := counter s;
     memo_tempo_shuntON := memo_tempo_shuntON s; memo_tempo := memo_tempo s;
     memo_tempo_tendancy := memo_tempo_tendancy s; EEPROM := EEPROM s; output := output s |}.

Definition set_Vcalibration (v : list F32.float) (s : state) : state :=
  {| cellModel := cellModel s; cellNumber := cellNumber s; Vmax := Vmax s; Vmin := Vmin s;
     Vcalibration := v; Valim := Valim s; Vcell := Vcell s; memo_Vcell := memo_Vcell s;
     runOnce := runOnce s; pwm := pwm s; index := index s; consoleInput := consoleInput s;
     whatToDisplay := whatToDisplay s; Imax := Imax s; memo_Urc := memo_Urc s;
     memo_Drc := memo_Drc s; memo_Crc := memo_Crc s; VcellCumul := VcellCumul s;
     analogReadsCount := analogReadsCount s; buzzerON := buzzerON s; oneMinute := oneMinute s;
     counter := counter s; memo_tempo_shuntON := memo_tempo_shuntON s;
     memo_tempo := memo_tempo s; memo_tempo_tendancy := memo_tempo_tendancy s;
     EEPROM := EEPROM s; output := output s |}.

Definition set_Valim (v : F32.float) (s : state) : state :=
  {| cellModel := cellModel s; cellNumber := cellNumber s; Vmax := Vmax s; Vmin := Vmin s;
     Vcalibration := Vcalibration s; Valim := v; Vcell := Vcell s; memo_Vcell := memo_Vcell s;
     runOnce := runOnce s; pwm := pwm s; index := index s; consoleInput := consoleInput s;
     whatToDisplay := whatToDisplay s; Imax := Imax s; memo_Urc := memo_Urc s;
     memo_Drc := memo_Drc s; memo_Crc := memo_Crc s; VcellCumul := VcellCumul s;
     analogReadsCount := analogReadsCount s; buzzerON := buzzerON s; oneMinute := oneMinute s;
     counter := counter s; memo_tempo_shuntON := memo_tempo_shuntON s;
     memo_tempo := memo_tempo s; memo_tempo_tendancy := memo_tempo_tendancy s;
     EEPROM := EEPROM s; output := output s |}.

Definition set_Vcell (v : list F32.float) (s : state) : state :=
  {| cellModel := cellModel s; cellNumber := cellNumber s; Vmax := Vmax s; Vmin := Vmin s;
     Vcalibration := Vcalibration s; Valim := Valim s; Vcell := v; memo_Vcell := memo_Vcell s;
     runOnce := runOnce s; pwm := pwm s; index := index s; consoleInput := consoleInput s;
     whatToDisplay := whatToDisplay s; Imax := Imax s; memo_Urc := memo_Urc s;
     memo_Drc := memo_Drc s; memo_Crc := memo_Crc s; VcellCumul := VcellCumul s;
     analogReadsCount := analogReadsCount s; buzzerON := buzzerON s; oneMinute := oneMinute s;
     counter := counter s; memo_tempo_shuntON := memo_tempo_shuntON s;
     memo_tempo := memo_tempo s; memo_tempo_tendancy := memo_tempo_tendancy s;
     EEPROM := EEPROM s; output := output s |}.

Definition set_memo_Vcell (v : list F32.float) (s : state) : state :=
  {| cellModel := cellModel s; cellNumber := cellNumber s; Vmax := Vmax s; Vmin := Vmin s;
     Vcalibration := Vcalibration s; Valim := Valim s; Vcell := Vcell s; memo_Vcell := v;
     runOnce := runOnce s; pwm := pwm s; index := index s; consoleInput := consoleInput s;
     whatToDisplay := whatToDisplay s; Imax := Imax s; memo_Urc := memo_Urc s;
     memo_Drc := memo_Drc s; memo_Crc := memo_Crc s; VcellCumul := VcellCumul s;
     analogReadsCount := analogReadsCount s; buzzerON := buzzerON s; oneMinute := oneMinute s;
     counter := counter s; memo_tempo_shuntON := memo_tempo_shuntON s;
     memo_tempo := memo_tempo s; memo_tempo_tendancy := memo_tempo_tendancy s;
     EEPROM := EEPROM s; output := output s |}.

Definition set_runOnce (v : bool) (s : state) : state :=
  {| cellModel := cellModel s; cellNumber := cellNumber s; Vmax := Vmax s; Vmin := Vmin s;
     Vcalibration := Vcalibration s; Valim := Valim s; Vcell := Vcell s;
     memo_Vcell := memo_Vcell s; runOnce := v; pwm := pwm s; index := index s;
     consoleInput := consoleInput s; whatToDisplay := whatToDisplay s; Imax := Imax s;
     memo_Urc := memo_Urc s; memo_Drc := memo_Drc s; memo_Crc := memo_Crc s;
     VcellCumul := VcellCumul s; analogReadsCount := analogReadsCount s;
     buzzerON := buzzerON s; oneMinute := oneMinute s; counter := counter s;
     memo_tempo_shuntON := memo_tempo_shuntON s; memo_tempo := memo_tempo s;
     memo_tempo_tendancy := memo_tempo_tendancy s; EEPROM := EEPROM s; output := output s |}.

Definition set_pwm (v : Z) (s : state) : state :=
  {| cellModel := cellModel s; cellNumber := cellNumber s; Vmax := Vmax s; Vmin := Vmin s;
     Vcalibration := Vcalibration s; Valim := Valim s; Vcell := Vcell s;
     memo_Vcell := memo_Vcell s; runOnce := runOnce s; pwm := v; index := index s;
     consoleInput := consoleInput s; whatToDisplay := whatToDisplay s; Imax := Imax s;
     memo_Urc := memo_Urc s; memo_Drc := memo_Drc s; memo_Crc := memo_Crc s;
     VcellCumul := VcellCumul s; analogReadsCount := analogReadsCount s;
     buzzerON := buzzerON s; oneMinute := oneMinute s; counter := counter s;
     memo_tempo_shuntON := memo_tempo_shuntON s; memo_tempo := memo_tempo s;
     memo_tempo_tendancy := memo_tempo_tendancy s; EEPROM := EEPROM s; output := output s |}.

Definition set_index (v : Z) (s : state) : state :=
  {| cellModel := cellModel s; cellNumber := cellNumber s; Vmax := Vmax s; Vmin := Vmin s;
     Vcalibration := Vcalibration s; Valim := Valim s; Vcell := Vcell s;
     memo_Vcell := memo_Vcell s; runOnce := runOnce s; pwm := pwm s; index := v;
     consoleInput := consoleInput s; whatToDisplay := whatToDisplay s; Imax := Imax s;
     memo_Urc := memo_Urc s; memo_Drc := memo_Drc s; memo_Crc := memo_Crc s;
     VcellCumul := VcellCumul s; analogReadsCount := analogReadsCount s;
     buzzerON := buzzerON s; oneMinute := oneMinute s; counter := counter s;
     memo_tempo_shuntON := memo_tempo_shuntON s; memo_tempo := memo_tempo s;
     memo_tempo_tendancy := memo_tempo_tendancy s; EEPROM := EEPROM s; output := output s |}.

Definition set_consoleInput (v : list Z) (s : state) : state :=
  {| cellModel := cellModel s; cellNumber := cellNumber s; Vmax := Vmax s; Vmin := Vmin s;
     Vcalibration := Vcalibration s; Valim := Valim s; Vcell := Vcell s;
     memo_Vcell := memo_Vcell s; runOnce := runOnce s; pwm := pwm s; index := index s;
     consoleInput := v; whatToDisplay := whatToDisplay s; Imax := Imax s;
     memo_Urc := memo_Urc s; memo_Drc := memo_Drc s; memo_Crc := memo_Crc s;
     VcellCumul := VcellCumul s; analogReadsCount := analogReadsCount s;
     buzzerON := buzzerON s; oneMinute := oneMinute s; counter := counter s;
     memo_tempo_shuntON := memo_tempo_shuntON s; memo_tempo := memo_tempo s;
     memo_tempo_tendancy := memo_tempo_tendancy s; EEPROM := EEPROM s; output := output s |}.

Definition set_whatToDisplay (v : Z) (s : state) : state :=
  {| cellModel := cellModel s; cellNumber := cellNumber s; Vmax := Vmax s; Vmin := Vmin s;
     Vcalibration := Vcalibration s; Valim := Valim s; Vcell := Vcell s;
     memo_Vcell := memo_Vcell s; runOnce := runOnce s; pwm := pwm s; index := index s;
     consoleInput := consoleInput s; whatToDisplay := v; Imax := Imax s;
     memo_Urc := memo_Urc s; memo_Drc := memo_Drc s; memo_Crc := memo_Crc s;
     VcellCumul := VcellCumul s; analogReadsCount := analogReadsCount s;
     buzzerON := buzzerON s; oneMinute := oneMinute s; counter := counter s;
     memo_tempo_shuntON := memo_tempo_shuntON s; memo_tempo := memo_tempo s;
     memo_tempo_tendancy := memo_tempo_tendancy s; EEPROM := EEPROM s; output := output s |}.

Definition set_Imax (v : bool) (s : state) : state :=
  {| cellModel := cellModel s; cellNumber := cellNumber s; Vmax := Vmax s; Vmin := Vmin s;
     Vcalibration := Vcalibration s; Valim := Valim s; Vcell := Vcell s;
     memo_Vcell := memo_Vcell s; runOnce := runOnce s; pwm := pwm s; index := index s;
     consoleInput := consoleInput s; whatToDisplay := whatToDisplay s; Imax := v;
     memo_Urc := memo_Urc s; memo_Drc := memo_Drc s; memo_Crc := memo_Crc s;
     VcellCumul := VcellCumul s; analogReadsCount := analogReadsCount s;
     buzzerON := buzzerON s; oneMinute := oneMinute s; counter := counter s;
     memo_tempo_shuntON := memo_tempo_shuntON s; memo_tempo := memo_tempo s;
     memo_tempo_tendancy := memo_tempo_tendancy s; EEPROM := EEPROM s; output := output s |}.

Definition set_memo_Urc (v : bool) (s : state) : state :=
  {| cellModel := cellModel s; cellNumber := cellNumber s; Vmax := Vmax s; Vmin := Vmin s;
     Vcalibration := Vcalibration s; Valim := Valim s; Vcell := Vcell s;
     memo_Vcell := memo_Vcell s; runOnce := runOnce s; pwm := pwm s; index := index s;
     consoleInput := consoleInput s; whatToDisplay := whatToDisplay s; Imax := Imax s;
     memo_Urc := v; memo_Drc := memo_Drc s; memo_Crc := memo_Crc s; VcellCumul := VcellCumul s;
     analogReadsCount := analogReadsCount s; buzzerON := buzzerON s; oneMinute := oneMinute s;
     counter := counter s; memo_tempo_shuntON := memo_tempo_shuntON s;
     memo_tempo := memo_tempo s; memo_tempo_tendancy := memo_tempo_tendancy s;
     EEPROM := EEPROM s; output := output s |}.

Definition set_memo_Drc (v : bool) (s : state) : state :=
  {| cellModel := cellModel s; cellNumber := cellNumber s; Vmax := Vmax s; Vmin := Vmin s;
     Vcalibration := Vcalibration s; Valim := Valim s; Vcell := Vcell s;
     memo_Vcell := memo_Vcell s; runOnce := runOnce s; pwm := pwm s; index := index s;
     consoleInput := consoleInput s; whatToDisplay := whatToDisplay s; Imax := Imax s;
     memo_Urc := memo_Urc s; memo_Drc := v; memo_Crc := memo_Crc s; VcellCumul := VcellCumul s;
     analogReadsCount := analogReadsCount s; buzzerON := buzzerON s; oneMinute := oneMinute s;
     counter := counter s; memo_tempo_shuntON := memo_tempo_shuntON s;
     memo_tempo := memo_tempo s; memo_tempo_tendancy := memo_tempo_tendancy s;
     EEPROM := EEPROM s; output := output s |}.

Definition set_memo_Crc (v : bool) (s : state) : state :=
  {| cellModel := cellModel s; cellNumber := cellNumber s; Vmax := Vmax s; Vmin := Vmin s;
     Vcalibration := Vcalibration s; Valim := Valim s; Vcell := Vcell s;
     memo_Vcell := memo_Vcell s; runOnce := runOnce s; pwm := pwm s; index := index s;
     consoleInput := consoleInput s; whatToDisplay := whatToDisplay s; Imax := Imax s;
     memo_Urc := memo_Urc s; memo_Drc := memo_Drc s; memo_Crc := v; VcellCumul := VcellCumul s;
     analogReadsCount := analogReadsCount s; buzzerON := buzzerON s; oneMinute := oneMinute s;
     counter := counter s; memo_tempo_shuntON := memo_tempo_shuntON s;
     memo_tempo := memo_tempo s; memo_tempo_tendancy := memo_tempo_tendancy s;
     EEPROM := EEPROM s; output := output s |}.

Definition set_VcellCumul (v : list F32.float) (s : state) : state :=
  {| cellModel := cellModel s; cellNumber := cellNumber s; Vmax := Vmax s; Vmin := Vmin s;
     Vcalibration := Vcalibration s; Valim := Valim s; Vcell := Vcell s;
     memo_Vcell := memo_Vcell s; runOnce := runOnce s; pwm := pwm s; index := index s;
     consoleInput := consoleInput s; whatToDisplay := whatToDisplay s; Imax := Imax s;
     memo_Urc := memo_Urc s; memo_Drc := memo_Drc s; memo_Crc := memo_Crc s; VcellCumul := v;
     analogReadsCount := analogReadsCount s; buzzerON := buzzerON s; oneMinute := oneMinute s;
     counter := counter s; memo_tempo_shuntON := memo_tempo_shuntON s;
     memo_tempo := memo_tempo s; memo_tempo_tendancy := memo_tempo_tendancy s;
     EEPROM := EEPROM s; output := output s |}.

Definition set_analogReadsCount (v : Z) (s : state) : state :=
  {| cellModel := cellModel s; cellNumber := cellNumber s; Vmax := Vmax s; Vmin := Vmin s;
     Vcalibration := Vcalibration s; Valim := Valim s; Vcell := Vcell s;
     memo_Vcell := memo_Vcell s; runOnce := runOnce s; pwm := pwm s; index := index s;
     consoleInput := consoleInput s; whatToDisplay := whatToDisplay s; Imax := Imax s;
     memo_Urc := memo_Urc s; memo_Drc := memo_Drc s; memo_Crc := memo_Crc s;
     VcellCumul := VcellCumul s; analogReadsCount := v; buzzerON := buzzerON s;
     oneMinute := oneMinute s; counter := counter s;
     memo_tempo_shuntON := memo_tempo_shuntON s; memo_tempo := memo_tempo s;
     memo_tempo_tendancy := memo_tempo_tendancy s; EEPROM := EEPROM s; output := output s |}.

Definition set_buzzerON (v : bool) (s : state) : state :=
  {| cellModel := cellModel s; cellNumber := cellNumber s; Vmax := Vmax s; Vmin := Vmin s;
     Vcalibration := Vcalibration s; Valim := Valim s; Vcell := Vcell s;
     memo_Vcell := memo_Vcell s; runOnce := runOnce s; pwm := pwm s; index := index s;
     consoleInput := consoleInput s; whatToDisplay := whatToDisplay s; Imax := Imax s;
     memo_Urc := memo_Urc s; memo_Drc := memo_Drc s; memo_Crc := memo_Crc s;
     VcellCumul := VcellCumul s; analogReadsCount := analogReadsCount s; buzzerON := v;
     oneMinute := oneMinute s; counter := counter s;
     memo_tempo_shuntON := memo_tempo_shuntON s; memo_tempo := memo_tempo s;
     memo_tempo_tendancy := memo_tempo_tendancy s; EEPROM := EEPROM s; output := output s |}.

Definition set_oneMinute (v : bool) (s : state) : state :=
  {| cellModel := cellModel s; cellNumber := cellNumber s; Vmax := Vmax s; Vmin := Vmin s;
     Vcalibration := Vcalibration s; Valim := Valim s; Vcell := Vcell s;
     memo_Vcell := memo_Vcell s; runOnce := runOnce s; pwm := pwm s; index := index s;
     consoleInput := consoleInput s; whatToDisplay := whatToDisplay s; Imax := Imax s;
     memo_Urc := memo_Urc s; memo_Drc := memo_Drc s; memo_Crc := memo_Crc s;
     VcellCumul := VcellCumul s; analogReadsCount := analogReadsCount s;
     buzzerON := buzzerON s; oneMinute := v; counter := counter s;
     memo_tempo_shuntON := memo_tempo_shuntON s; memo_tempo := memo_tempo s;
     memo_tempo_tendancy := memo_tempo_tendancy s; EEPROM := EEPROM s; output := output s |}.

Definition set_counter (v : Z) (s : state) : state :=
  {| cellModel := cellModel s; cellNumber := cellNumber s; Vmax := Vmax s; Vmin := Vmin s;
     Vcalibration := Vcalibration s; Valim := Valim s; Vcell := Vcell s;
     memo_Vcell := memo_Vcell s; runOnce := runOnce s; pwm := pwm s; index := index s;
     consoleInput := consoleInput s; whatToDisplay := whatToDisplay s; Imax := Imax s;
     memo_Urc := memo_Urc s; memo_Drc := memo_Drc s; memo_Crc := memo_Crc s;
     VcellCumul := VcellCumul s; analogReadsCount := analogReadsCount s;
     buzzerON := buzzerON s; oneMinute := oneMinute s; counter := v;
     memo_tempo_shuntON := memo_tempo_shuntON s; memo_tempo := memo_tempo s;
     memo_tempo_tendancy := memo_tempo_tendancy s; EEPROM := EEPROM s; output := output s |}.

Definition set_memo_tempo_shuntON (v : Z) (s : state) : state :=
  {| cellModel := cellModel s; cellNumber := cellNumber s; Vmax := Vmax s; Vmin := Vmin s;
     Vcalibration := Vcalibration s; Valim := Valim s; Vcell := Vcell s;
     memo_Vcell := memo_Vcell s; runOnce := runOnce s; pwm := pwm s; index := index s;
     consoleInput := consoleInput s; whatToDisplay := whatToDisplay s; Imax := Imax s;
     memo_Urc := memo_Urc s; memo_Drc := memo_Drc s; memo_Crc := memo_Crc s;
     VcellCumul := VcellCumul s; analogReadsCount := analogReadsCount s;
     buzzerON := buzzerON s; oneMinute := oneMinute s; counter := counter s;
     memo_tempo_shuntON := v; memo_tempo := memo_tempo s;
     memo_tempo_tendancy := memo_tempo_tendancy s; EEPROM := EEPROM s; output := output s |}.

Definition set_memo_tempo (v : Z) (s : state) : state :=
  {| cellModel := cellModel s; cellNumber := cellNumber s; Vmax := Vmax s; Vmin := Vmin s;
     Vcalibration := Vcalibration s; Valim := Valim s; Vcell := Vcell s;
     memo_Vcell := memo_Vcell s; runOnce := runOnce s; pwm := pwm s; index := index s;
     consoleInput := consoleInput s; whatToDisplay := whatToDisplay s; Imax := Imax s;
     memo_Urc := memo_Urc s; memo_Drc := memo_Drc s; memo_Crc := memo_Crc s;
     VcellCumul := VcellCumul s; analogReadsCount := analogReadsCount s;
     buzzerON := buzzerON s; oneMinute := oneMinute s; counter := counter s;
     memo_tempo_shuntON := memo_tempo_shuntON s; memo_tempo := v;
     memo_tempo_tendancy := memo_tempo_tendancy s; EEPROM := EEPROM s; output := output s |}.

Definition set_memo_tempo_tendancy (v : Z) (s : state) : state :=
  {| cellModel := cellModel s; cellNumber := cellNumber s; Vmax := Vmax s; Vmin := Vmin s;
     Vcalibration := Vcalibration s; Valim := Valim s; Vcell := Vcell s;
     memo_Vcell := memo_Vcell s; runOnce := runOnce s; pwm := pwm s; index := index s;
     consoleInput := consoleInput s; whatToDisplay := whatToDisplay s; Imax := Imax s;
     memo_Urc := memo_Urc s; memo_Drc := memo_Drc s; memo_Crc := memo_Crc s;
     VcellCumul := VcellCumul s; analogReadsCount := analogReadsCount s;
     buzzerON := buzzerON s; oneMinute := oneMinute s; counter := counter s;
     memo_tempo_shuntON := memo_tempo_shuntON s; memo_tempo := memo_tempo s;
     memo_tempo_tendancy := v; EEPROM := EEPROM s; output := output s |}.

Definition set_EEPROM (v : list Z) (s : state) : state :=
  {| cellModel := cellModel s; cellNumber := cellNumber s; Vmax := Vmax s; Vmin := Vmin s;
     Vcalibration := Vcalibration s; Valim := Valim s; Vcell := Vcell s;
     memo_Vcell := memo_Vcell s; runOnce := runOnce s; pwm := pwm s; index := index s;
     consoleInput := consoleInput s; whatToDisplay := whatToDisplay s; Imax := Imax s;
     memo_Urc := memo_Urc s; memo_Drc := memo_Drc s; memo_Crc := memo_Crc s;
     VcellCumul := VcellCumul s; analogReadsCount := analogReadsCount s;
     buzzerON := buzzerON s; oneMinute := oneMinute s; counter := counter s;
     memo_tempo_shuntON := memo_tempo_shuntON s; memo_tempo := memo_tempo s;
     memo_tempo_tendancy := memo_tempo_tendancy s; EEPROM := v; output := output s |}.

Definition set_output (v : list event) (s : state) : state :=
  {| cellModel := cellModel s; cellNumber := cellNumber s; Vmax := Vmax s; Vmin := Vmin s;
     Vcalibration := Vcalibration s; Valim := Valim s; Vcell := Vcell s;
     memo_Vcell := memo_Vcell s; runOnce := runOnce s; pwm := pwm s; index := index s;
     consoleInput := consoleInput s; whatToDisplay := whatToDisplay s; Imax := Imax s;
     memo_Urc := memo_Urc s; memo_Drc := memo_Drc s; memo_Crc := memo_Crc s;
     VcellCumul := VcellCumul s; analogReadsCount := analogReadsCount s;
     buzzerON := buzzerON s; oneMinute := oneMinute s; counter := counter s;
     memo_tempo_shuntON := memo_tempo_shuntON s; memo_tempo := memo_tempo s;
     memo_tempo_tendancy := memo_tempo_tendancy s; EEPROM := EEPROM s; output := v |}.

(** ** Small helpers for the embedding *)

Definition emit (e : event) (s : state) : state := set_output (output s ++ [e]) s.

(** [for( byte i=lo; i<hi; i++ ) body] *)
Definition for_up (lo hi : nat) (body : nat -> state -> state) (s : state) : state :=
  foldl (fun s i => body i s) s (seq lo (hi - lo)).

(** [for( byte i=hi; i>lo; i-- ) body] *)
Definition for_down (hi lo : nat) (body : nat -> state -> state) (s : state) : state :=
  foldl (fun s i => body i s) s (rev (seq (S lo) (hi - lo))).

(** [EEPROM.read(a)] and [EEPROM.update(a, v)].  The list holds the first
    cells of the EEPROM; the cells beyond its end are erased cells, which
    read 255, and a write to one of them extends the list up to it. *)
Definition EEPROM_read (a : nat) (s : state) : Z := default 255 (EEPROM s !! a).
Definition EEPROM_write (a : nat) (v : Z) (s : state) : state :=
  set_EEPROM (<[a := v]> (EEPROM s ++ repeat 255 (S a - length (EEPROM s)))) s.

(** ** Parameters and initial values of the globals (lines 60-93, 144-147,
    154-155, 208, 230) *)

Definition FIRST_USE : bool := false.

Definition power_on (eeprom : list Z) : state :=
  {| cellModel := false;
     cellNumber := 4;
     Vmax := [F32.lit 42 10; F32.lit 37 10];
     Vmin := [F32.lit 36 10; F32.lit 32 10];
     Vcalibration := [F32.of_int 1; F32.of_int 1; F32.of_int 1; F32.of_int 1];
     Valim := F32.of_int 0;
     Vcell := [F32.lit 49 10; F32.lit 49 10; F32.lit 49 10; F32.lit 49 10];
     memo_Vcell := [F32.of_int 0; F32.of_int 0; F32.of_int 0; F32.of_int 0];
     runOnce := true;
     pwm := 0;
     index := 0;
     consoleInput := [0; 0; 0; 0; 0; 0; 0];
     whatToDisplay := Int.chr "A";
     Imax := false;
     memo_Urc := false; memo_Drc := false; memo_Crc := false;
     VcellCumul := [F32.of_int 0; F32.of_int 0; F32.of_int 0; F32.of_int 0];
     analogReadsCount := 0;
     buzzerON := false;
     oneMinute := false;
     counter := 0;
     memo_tempo_shuntON := 0;
     memo_tempo := 0;
     memo_tempo_tendancy := 0;
     EEPROM := eeprom;
     output := [] |}.

(** ** [RotactorConfig] (lines 247-266) *)

Definition RotactorConfig (inp : inputs) (s : state) : state :=
  let Urc := UrcLevel inp in
  let Drc := DrcLevel inp in
  let Crc := CrcLevel inp in
  let s := if Crc then set_cellModel true s else set_cellModel false s in
  let s := if Urc then (if Drc then set_cellNumber 4 s else set_cellNumber 2 s)
           else (if Drc then set_cellNumber 3 s else set_cellNumber 1 s) in
  let s := if negb (eqb Urc (memo_Urc s)) || negb (eqb Drc (memo_Drc s))
              || negb (eqb Crc (memo_Crc s))
           then set_runOnce true s else s in
  let s := set_memo_Urc Urc s in
  let s := set_memo_Drc Drc s in
  set_memo_Crc Crc s.

(** ** [TendancySet] (lines 272-278) *)


(** ** [EEPROM_Get] (lines 284-294) *)

(** [(EEPROM.read(a)+300)/100.0] *)
Definition threshold_of_byte (b : Z) : F32.float :=
  F32.div (F32.of_int (b + 300)) (F32.of_int 100).

(** [int var = (EEPROM.read(2*i) << 8) + EEPROM.read((2*i)+1); var/1000.0] *)
Definition calibration_of_bytes (hi lo : Z) : F32.float :=
  let var := Int.s16 (Z.shiftl hi 8 + lo) in
  F32.div (F32.of_int var) (F32.of_int 1000).

Definition EEPROM_Get (s : state) : state :=
  let s := for_up 0 4 (fun i s =>
             set_Vcalibration
               (<[i := calibration_of_bytes (EEPROM_read (2 * i) s) (EEPROM_read (2 * i + 1) s)]>
                  (Vcalibration s)) s) s in
  let s := set_Vmax (<[0%nat := threshold_of_byte (EEPROM_read 8 s)]> (Vmax s)) s in
  let s := set_Vmax (<[1%nat := threshold_of_byte (EEPROM_read 9 s)]> (Vmax s)) s in
  let s := set_Vmin (<[0%nat := threshold_of_byte (EEPROM_read 10 s)]> (Vmin s)) s in
  set_Vmin (<[1%nat := threshold_of_byte (EEPROM_read 11 s)]> (Vmin s)) s.

(** ** [EEPROM_Update] (lines 300-311) *)

(** [int var = 1000*Vcalibration[i]]: the product is rounded to binary32,
    truncated toward zero and kept in 16 bits. *)
Definition calibration_to_int (x : F32.float) : Z :=
  Int.s16 (F32.to_int (F32.mul (F32.of_int 1000) x)).

(** [(v*100.0)-300] passed as the [uint8_t] argument of [EEPROM.update]:
    truncated toward zero and kept in 8 bits (a negative value wraps). *)
Definition byte_of_threshold (v : F32.float) : Z :=
  Int.u8 (F32.to_int (F32.sub (F32.mul v (F32.of_int 100)) (F32.of_int 300))).

Definition EEPROM_Update (s : state) : state :=
  let s := for_up 0 4 (fun i s =>
             let var := calibration_to_int (Vcalibration s !!! i) in
             let s := EEPROM_write (2 * i) (Int.highByte var) s in
             EEPROM_write (2 * i + 1) (Int.lowByte var) s) s in
  let s := EEPROM_write 8 (byte_of_threshold (Vmax s !!! 0%nat)) s in
  let s := EEPROM_write 9 (byte_of_threshold (Vmax s !!! 1%nat)) s in
  let s := EEPROM_write 10 (byte_of_threshold (Vmin s !!! 0%nat)) s in
  EEPROM_write 11 (byte_of_threshold (Vmin s !!! 1%nat)) s.

(** ** [setup] (lines 99-136) *)

Definition setup (inp : inputs) (s : state) : state :=
  let s := emit (DigitalWrite enablePin false) s in
  let s := for_up 0 4 (fun i => emit (DigitalWrite (shuntPin i) false)) s in
  let s := emit (AnalogWrite pwmPin 0) s in
  let s := emit (Println "Starting....") s in
  let s := if FIRST_USE then EEPROM_Update s else EEPROM_Get s in
  let s := RotactorConfig inp s in
  emit (DigitalWrite enablePin true) s.

(** ** [loop] (lines 142-238) *)

(** Lines 153-168: the block run once at start, after any configuration
    change and after every elapsed minute. *)
Definition run_once_block (tempo : Z) (s : state) : state :=
  if runOnce s then
    let s := set_buzzerON false s in
    let s := for_up (Z.to_nat (cellNumber s)) 4
               (fun i => emit (DigitalWrite (shuntPin i) true)) s in
    if counter s >? 5 then
      let s := set_counter 0 s in
      set_runOnce false s
    else if Int.u32 (tempo - memo_tempo_shuntON s) >? 300 then
      let s := set_memo_tempo_shuntON tempo s in
      let s := set_counter (Int.u8 (counter s + 1)) s in
      let s := for_up 0 (Z.to_nat (cellNumber s))
                 (fun i => emit (DigitalWrite (shuntPin i) true)) s in
      for_up 0 (Z.to_nat (cellNumber s))
        (fun i => emit (DigitalWrite (shuntPin i) false)) s
    else s
  else s.

(** Lines 173-178: one reading per channel is added to its accumulator,
    then the over-current detector is read (active low). *)
Definition read_analog_values (inp : inputs) (s : state) : state :=
  let s := for_up 0 4 (fun i s =>
             let VcellByte := default 0 (analogRead inp !! Z.to_nat (VcellPin i)) in
             set_VcellCumul
               (<[i := F32.add (VcellCumul s !!! i) (F32.of_int VcellByte)]> (VcellCumul s)) s) s in
  set_Imax (negb (ImaxLevel inp)) s.

(** Lines 183-188: the buck converter duty cycle. *)
Definition define_pwm (s : state) : state :=
  let s := if Imax s || F32.ltb (Vcell s !!! 0%nat) (F32.lit 49 10) then
             if pwm s >? 0 then set_pwm (Int.u8 (pwm s - 1)) s else s
           else if pwm s <? 255 then set_pwm (Int.u8 (pwm s + 1)) s
           else s in
  emit (AnalogWrite pwmPin (pwm s)) s.

(** Line 197: [(VcellCumul[i] / (float)analogReadsCount / 1023.0) * 5.0 *
    Vcalibration[i] * (i+1)] *)
Definition node_voltage (cumul : F32.float) (count : Z) (calibration : F32.float) (i : nat)
  : F32.float :=
  F32.mul
    (F32.mul
       (F32.mul (F32.div (F32.div cumul (F32.of_int count)) (F32.of_int 1023)) (F32.of_int 5))
       calibration)
    (F32.of_int (Z.of_nat i + 1)).

(** Lines 201-204: the supply voltage, then each cell from the difference of
    two neighbouring nodes, top node first. *)
Definition get_cell_voltages (s : state) : state :=
  let s := set_Valim (Vcell s !!! 3%nat) s in
  for_down 3 0 (fun i s =>
    set_Vcell (<[i := F32.sub (Vcell s !!! i) (Vcell s !!! (i - 1)%nat)]> (Vcell s)) s) s.

(** Lines 196-204 *)
Definition calculate_voltages (s : state) : state :=
  let s := for_up 0 4 (fun i s =>
             let s := set_Vcell
                        (<[i := node_voltage (VcellCumul s !!! i) (analogReadsCount s)
                                  (Vcalibration s !!! i) i]> (Vcell s)) s in
             set_VcellCumul (<[i := F32.of_int 0]> (VcellCumul s)) s) s in
  let s := set_analogReadsCount 0 s in
  get_cell_voltages s.

(** Lines 213-217: balancing and undervoltage. *)
Definition check_balancing (s : state) : state :=
  let s := for_up 0 4 (fun i s =>
             if F32.gtb (Vcell s !!! i) (Vmax s !!! (Nat.b2n (cellModel s))) then
               emit (DigitalWrite (shuntPin i) true) s
             else if oneMinute s && F32.ltb (Vcell s !!! i) (Vmin s !!! (Nat.b2n (cellModel s)))
             then set_buzzerON true s
             else s) s in
  if buzzerON s then emit (Tone buzzerPin 440 50) s else s.

(** Lines 232-236: what is done every 60 seconds. *)
Definition every_minute (tempo : Z) (s : state) : state :=
  if Int.u32 (tempo - memo_tempo_tendancy s) <? 60000 then s
  else
    let s := set_memo_tempo_tendancy tempo s in
    let s := for_up 0 4 (fun i s =>
               set_memo_Vcell (<[i := Vcell s !!! i]> (memo_Vcell s)) s) s in
    let s := set_oneMinute true s in
    set_runOnce true s.

(** Lines 209-236: what is done every second. *)
Definition every_second (inp : inputs) (tempo : Z) (s : state) : state :=
  if Int.u32 (tempo - memo_tempo s) <? 1000 then s
  else
    let s := set_memo_tempo tempo s in
    let s := check_balancing s in
    let s := RotactorConfig inp s in
    let s := emit (ConsoleDisplay (whatToDisplay s)) s in
    let s := emit OledDisplay s in
    every_minute tempo s.

Definition loop (inp : inputs) (s : state) : state :=
  let tempo := Int.u32 (millis inp) in
  let s := run_once_block tempo s in
  let s := read_analog_values inp s in
  let s := define_pwm s in
  let s := set_analogReadsCount (Int.u16 (analogReadsCount s + 1)) s in
  if analogReadsCount s >? 100 then s
  else
    let s := calculate_voltages s in
    every_second inp tempo s.

(** ** [serialEvent] (lines 405-467) *)

(** [consoleInput[index] = c] in the 7-character buffer. *)
Definition store_consoleInput (c : Z) (s : state) : result state :=
  if (0 <=? index s) && (index s <? 7) then
    Ok (set_consoleInput (<[Z.to_nat (index s) := c]> (consoleInput s)) s)
  else OutOfBounds "consoleInput" (index s).

(** [Vcalibration[cell] = v] in the 4-element array. *)
Definition store_Vcalibration (cell : Z) (v : F32.float) (s : state) : result state :=
  if (0 <=? cell) && (cell <? 4) then
    Ok (set_Vcalibration (<[Z.to_nat cell := v]> (Vcalibration s)) s)
  else OutOfBounds "Vcalibration" cell.

(** The decimal value of the digits of a command, in [int] arithmetic. *)
Definition value4 (c : list Z) : Z :=
  Int.s16 ((c !!! 5%nat - 48) + 10 * (c !!! 4%nat - 48) + 100 * (c !!! 3%nat - 48)
           + 1000 * (c !!! 2%nat - 48)).

Definition value3 (c : list Z) : Z :=
  Int.s16 ((c !!! 4%nat - 48) + 10 * (c !!! 3%nat - 48) + 100 * (c !!! 2%nat - 48)).

Definition is_char (c : Z) (lower upper : ascii) : bool :=
  (c =? Int.chr lower) || (c =? Int.chr upper).

(** Lines 419-426 *)
Definition command_B (s : state) : result state :=
  let c := consoleInput s in
  let s := set_whatToDisplay (Int.chr "B") s in
  let val := value4 c in
  let cell := c !!! 1%nat - 49 in
  if cell >? cellNumber s then Ok (emit (Println "cell number out of range") s)
  else if (val <? 800) || (val >? 1200) then
    Ok (emit (Println "Calibration value out of range") s)
  else store_Vcalibration cell (F32.div (F32.of_int val) (F32.of_int 1000)) s.

(** Lines 427-437 *)
Definition command_L (s : state) : state :=
  let c := consoleInput s in
  let s := set_whatToDisplay (Int.chr "L") s in
  let val := value3 c in
  if (val <? 270) || (val >? 460) then emit (Println "cell voltage value out of range") s
  else if is_char (c !!! 1%nat) "t" "T" then
    set_Vmin (<[0%nat := F32.div (F32.of_int val) (F32.of_int 100)]> (Vmin s)) s
  else if is_char (c !!! 1%nat) "f" "F" then
    set_Vmin (<[1%nat := F32.div (F32.of_int val) (F32.of_int 100)]> (Vmin s)) s
  else emit (Println "unrecognised cells model") s.

(** Lines 438-448 *)
Definition command_H (s : state) : state :=
  let c := consoleInput s in
  let s := set_whatToDisplay (Int.chr "H") s in
  let val := value3 c in
  if (val <? 270) || (val >? 460) then emit (Println "cell voltage value out of range") s
  else if is_char (c !!! 1%nat) "t" "T" then
    set_Vmax (<[0%nat := F32.div (F32.of_int val) (F32.of_int 100)]> (Vmax s)) s
  else if is_char (c !!! 1%nat) "f" "F" then
    set_Vmax (<[1%nat := F32.div (F32.of_int val) (F32.of_int 100)]> (Vmax s)) s
  else emit (Println "unrecognised cells model") s.

(** Lines 418-464: the [switch] on the first character of the line. *)
Definition command (s : state) : result state :=
  let c0 := consoleInput s !!! 0%nat in
  if is_char c0 "b" "B" then command_B s
  else if is_char c0 "l" "L" then Ok (command_L s)
  else if is_char c0 "h" "H" then Ok (command_H s)
  else if is_char c0 "e" "E" then
    let s := set_whatToDisplay (Int.chr "A") s in
    let s := emit (Println "cancel all changes!") s in
    Ok (EEPROM_Get s)
  else if is_char c0 "s" "S" then
    let s := set_whatToDisplay (Int.chr "A") s in
    let s := emit (Println "all data saved!") s in
    Ok (EEPROM_Update s)
  else
    let s := set_whatToDisplay (Int.chr "A") s in
    Ok (emit (Println "unrecognised command") s).

(** [serialEvent] is called between two passes of [loop]; [incoming] is
    [None] when no byte is available and the byte [Serial.read()] returns
    otherwise. *)
Definition serialEvent (incoming : option Z) (s : state) : result state :=
  match incoming with
  | None => Ok s
  | Some b =>
      let incomingChar := Int.s8 b in
      if negb (incomingChar =? 10) then
        bind (store_consoleInput incomingChar s) (fun s =>
        Ok (set_index (Int.u8 (index s + 1)) s))
      else
        bind (store_consoleInput 0 s) (fun s =>
        let s := set_index 0 s in
        command s)
  end.

(** Feeding a stream of bytes to [serialEvent], one call per byte. *)
Fixpoint serialEvents (bytes : list Z) (s : state) : result state :=
  match bytes with
  | [] => Ok s
  | b :: rest => bind (serialEvent (Some b) s) (serialEvents rest)
  end.

(** The bytes of a line typed on the console. *)
Definition bytes_of (line : string) : list Z :=
  map (fun a => Z.of_N (N_of_ascii a)) (list_ascii_of_string line).

(** ** The running system *)

(** Successive passes of [loop], one per element of [ticks]. *)
Definition run (ticks : list inputs) (s : state) : state :=
  foldl (fun s inp => loop inp s) s ticks.

(** Between two passes of [loop] the Arduino core calls [serialEvent]. *)
Inductive step : state -> state -> Prop :=
| step_loop (inp : inputs) (s : state) : step s (loop inp s)
| step_serial (incoming : option Z) (s s' : state) :
    serialEvent incoming s = Ok s' -> step s s'.

Inductive reachable : state -> Prop :=
| reachable_setup (eeprom : list Z) (inp : inputs) : reachable (setup inp (power_on eeprom))
| reachable_step (s s' : state) : reachable s -> step s s' -> reachable s'.

(** An EEPROM that holds the default parameters: four calibrations of
    1.000, then Vmax 4.20 and 3.70, then Vmin 3.60 and 3.20. *)
Definition stored_defaults : list Z := [3; 232; 3; 232; 3; 232; 3; 232; 120; 70; 60; 20].

(** Selector set on four Li-ion cells; the over-current detector is idle
    when its (active low) line reads high. *)
Definition pass (t : Z) (readings : list Z) (Imax_line : bool) : inputs :=
  {| millis := t; analogRead := readings; ImaxLevel := Imax_line;
     UrcLevel := true; DrcLevel := true; CrcLevel := false |}.

Definition started : state := setup (pass 0 [] true) (power_on stored_defaults).

(** ** Predicates used by the statements *)

(** The throttling test of line 183 as a pass of [loop] evaluates it: the
    over-current line has just been read (active low), [Vcell[0]] is the
    value the previous pass left. *)
Definition throttles (inp : inputs) (s : state) : bool :=
  negb (ImaxLevel inp) || F32.ltb (Vcell s !!! 0%nat) (F32.lit 49 10).

(** No pass of the run throttles. *)
Fixpoint never_throttles (ticks : list inputs) (s : state) : bool :=
  match ticks with
  | [] => true
  | inp :: rest => negb (throttles inp s) && never_throttles rest (loop inp s)
  end.

(** [Vmin < Vmax] for both chemistries. *)
Definition thresholds_ordered (s : state) : bool :=
  F32.ltb (Vmin s !!! 0%nat) (Vmax s !!! 0%nat)
  && F32.ltb (Vmin s !!! 1%nat) (Vmax s !!! 1%nat).

(** A threshold between 2.70 V and 4.60 V. *)
Definition in_console_range (v : F32.float) : bool :=
  F32.is_finite v && Qle_bool (27 # 10) (F32.to_Q v) && Qle_bool (F32.to_Q v) (46 # 10).

Definition thresholds_in_range (s : state) : Prop :=
  Forall (fun v => in_console_range v = true) (Vmax s)
  /\ Forall (fun v => in_console_range v = true) (Vmin s).

(** The one-second block of a pass is reached. *)
Definition evaluates (inp : inputs) (s : state) : bool :=
  (Int.u16 (analogReadsCount s + 1) <=? 100)
  && (1000 <=? Int.u32 (Int.u32 (millis inp) - memo_tempo s)).

(** Every cell reads between the thresholds of the selected chemistry. *)
Definition cells_healthy (s : state) : bool :=
  forallb (fun v => F32.ltb (Vmin s !!! Nat.b2n (cellModel s)) v
                    && negb (F32.gtb v (Vmax s !!! Nat.b2n (cellModel s)))) (Vcell s).

(** The alarm as the specification words it: not latched, so that it is
    silent after any one-second evaluation that finds every cell recovered. *)
Definition alarm_clears_on_recovery : Prop :=
  forall (inp : inputs) (s : state),
    reachable s -> evaluates inp s = true -> cells_healthy (loop inp s) = true ->
    buzzerON (loop inp s) = false.

(** The threshold order as the specification words it: kept by every
    ['L'] and ['H'] command. *)
Definition threshold_commands_keep_order : Prop :=
  forall s : state,
    thresholds_ordered s = true ->
    thresholds_ordered (command_L s) = true /\ thresholds_ordered (command_H s) = true.

(** Every line of the stream, the current one included, has at most six
    characters before its newline; [k] characters of the current line
    have been received already. *)
Fixpoint lines_fit (k : Z) (bytes : list Z) : bool :=
  match bytes with
  | [] => k <=? 6
  | b :: rest => if Int.s8 b =? 10 then (k <=? 6) && lines_fit 0 rest
                 else lines_fit (k + 1) rest
  end.

(** The three selector lines as a pass reads them, and as the previous call
    of [RotactorConfig] remembered them. *)
Definition selector (inp : inputs) : bool * bool * bool :=
  (UrcLevel inp, DrcLevel inp, CrcLevel inp).

Definition remembered (s : state) : bool * bool * bool :=
  (memo_Urc s, memo_Drc s, memo_Crc s).

(** The truth table of the specification. *)
Definition selected_cells (U D : bool) : Z :=
  match U, D with
  | true, true => 4
  | true, false => 2
  | false, true => 3
  | false, false => 1
  end.

(** How many times the buzzer has sounded so far. *)
Definition is_tone (e : event) : bool :=
  match e with
  | Tone _ _ _ => true
  | _ => false
  end.

Fixpoint count_tones (evs : list event) : nat :=
  match evs with
  | [] => 0
  | e :: rest => (if is_tone e then 1 else 0) + count_tones rest
  end.

Definition tones (s : state) : nat := count_tones (output s).

(** Some cell reads under the Vmin of the chemistry selected in [s]. *)
Definition undervoltage_found (s : state) (cells : list F32.float) : Prop :=
  exists i, (i < 4)%nat /\ F32.ltb (cells !!! i) (Vmin s !!! Nat.b2n (cellModel s)) = true.

(** A history for the alarm, from the started system: the first minute
    elapses at 60 s, seven passes 400 ms apart complete the run-once block,
    then at 64 s the bottom cell reads 2.93 V (under the Li-ion Vmin). *)
Definition healthy_readings : list Z := [800; 800; 800; 800].

Definition alarmed : state :=
  run [pass 60000 healthy_readings true; pass 60400 healthy_readings true;
       pass 60800 healthy_readings true; pass 61200 healthy_readings true;
       pass 61600 healthy_readings true; pass 62000 healthy_readings true;
       pass 62400 healthy_readings true; pass 62800 healthy_readings true;
       pass 64000 [600; 760; 800; 800] true] started.

(** The sum of the numbers a list of cell voltages denotes. *)
Definition sum_of_cells (cells : list F32.float) : Q :=
  foldr (fun v acc => (F32.to_Q v + acc)%Q) 0%Q cells.

(** A number: a finite binary32 in canonical form. *)
Definition well_formed (v : F32.float) : bool := F32.valid v && F32.is_finite v.

(** The integers [lo, lo+1, ..., lo+n-1]. *)
Definition Zrange (lo : Z) (n : nat) : list Z := map (fun k => lo + Z.of_nat k) (seq 0 n).

(** ** Further notions used by the statements *)

(** The arrays have the sizes of their declarations; so has the console
    line buffer. *)
Definition arrays_sized (s : state) : Prop :=
  length (Vcalibration s) = 4%nat /\ length (Vmax s) = 2%nat /\ length (Vmin s) = 2%nat.

Definition sized (s : state) : Prop :=
  length (consoleInput s) = 7%nat /\ arrays_sized s.

Definition four_cells (s : state) : Prop := length (Vcell s) = 4%nat.

(** The twelve bytes [EEPROM_Update] stores, in the order of the cells. *)
Definition stored_parameters (s : state) : list Z :=
  flat_map (fun x => [Int.highByte (calibration_to_int x); Int.lowByte (calibration_to_int x)])
    (Vcalibration s)
  ++ map byte_of_threshold (Vmax s) ++ map byte_of_threshold (Vmin s).

(** [g] leaves the part [f] of the state as it is; [g] keeps the property
    [P]. *)
Definition keeps {A : Type} (f : state -> A) (g : state -> state) : Prop :=
  forall s, f (g s) = f s.

Definition preserves (P : state -> Prop) (g : state -> state) : Prop :=
  forall s, P s -> P (g s).

(** The line buffer after the characters of [line] have been stored from
    index [k] on. *)
Fixpoint write_line (k : nat) (line : list Z) (buffer : list Z) : list Z :=
  match line with
  | [] => buffer
  | c :: rest => write_line (S k) rest (<[k := c]> buffer)
  end.

(** The character of the decimal digit [d]. *)
Definition digit (d : Z) : Z := 48 + d.




(** The letters [ConsoleDisplay] tests for. *)
Definition display_letter (what : Z) : bool :=
  existsb (fun c => what =? Int.chr c) ["A"; "B"; "L"; "H"]%char.

(** What [loop] and [serialEvent] may do to the outside world: a level on
    one of the four shunt pins, a duty cycle of 0..255 on the PWM pin, a
    tone on the buzzer pin, a console report on one of its four letters, a
    console message, a refresh of the display. *)
Definition runtime_event (e : event) : bool :=
  match e with
  | DigitalWrite pin _ => existsb (fun i => pin =? shuntPin i) [0; 1; 2; 3]%nat
  | AnalogWrite pin value => (pin =? pwmPin) && (0 <=? value) && (value <=? 255)
  | Tone pin _ _ => pin =? buzzerPin
  | ConsoleDisplay what => display_letter what
  | Println _ | OledDisplay => true
  end.

(** The same, or a level on the enable pin. *)
Definition wired (e : event) : bool :=
  match e with
  | DigitalWrite pin _ => (pin =? enablePin) || runtime_event e
  | _ => runtime_event e
  end.

(** What [setup] does to the outside world. *)
Definition setup_trace : list event :=
  [DigitalWrite enablePin false]
  ++ map (fun i => DigitalWrite (shuntPin i) false) [0; 1; 2; 3]%nat
  ++ [AnalogWrite pwmPin 0; Println "Starting...."; DigitalWrite enablePin true].

(** The levels written to a pin, and the duty cycles written, in order. *)
Definition levels_written (pin : Z) (evs : list event) : list bool :=
  omap (fun e => match e with
                 | DigitalWrite p level => if p =? pin then Some level else None
                 | _ => None
                 end) evs.

Definition analog_writes (evs : list event) : list (Z * Z) :=
  omap (fun e => match e with
                 | AnalogWrite p value => Some (p, value)
                 | _ => None
                 end) evs.

Definition duty_writes (s : state) : list (Z * Z) := analog_writes (output s).

(** A property [T] of the trace, with the ranges the trace depends on. *)
Definition driven (T : list event -> Prop) (s : state) : Prop :=
  1 <= cellNumber s <= 4 /\ 0 <= pwm s <= 255 /\ display_letter (whatToDisplay s) = true
  /\ T (output s).

(** The level [level] written to the shunts of [cells], in order. *)
Definition shunts (level : bool) (cells : list nat) : list event :=
  map (fun i => DigitalWrite (shuntPin i) level) cells.

(** The run-once block gives one more pulse at time [t]: fewer than six
    are counted and more than 300 ms have passed since the last one. *)
Definition advancing (t : Z) (s : state) : bool :=
  (counter s <=? 5) && (300 <? Int.u32 (t - memo_tempo_shuntON s)).

(** The pulse counter of the run-once block is within its six pulses, and
    at rest when the block is over. *)
Definition pulses_counted (s : state) : Prop :=
  0 <= counter s <= 6 /\ (runOnce s = false -> counter s = 0).

(** The tests of lines 214 and 215 on cell [i]. *)
Definition above_Vmax (s : state) (i : nat) : bool :=
  F32.gtb (Vcell s !!! i) (Vmax s !!! Nat.b2n (cellModel s)).

Definition below_Vmin (s : state) (i : nat) : bool :=
  F32.ltb (Vcell s !!! i) (Vmin s !!! Nat.b2n (cellModel s)).

(** The reading a pass takes on channel [i]. *)
Definition reading (inp : inputs) (i : nat) : Z :=
  default 0 (analogRead inp !! Z.to_nat (VcellPin i)).

(** The node voltage a pass resolves on channel [i] from its own reading,
    the accumulators and the count being cleared. *)
Definition node_measured (inp : inputs) (calibrations : list F32.float) (i : nat) : F32.float :=
  node_voltage (F32.add (F32.of_int 0) (F32.of_int (reading inp i))) 1 (calibrations !!! i) i.

(** The node voltage one reading [r] gives on channel [i], from a cleared
    accumulator and with a calibration of 1.000. *)
Definition single_reading (r : Z) (i : nat) : F32.float :=
  node_voltage (F32.add (F32.of_int 0) (F32.of_int r)) 1 (F32.of_int 1) i.

(** The bottom cell a pass resolves from its own reading, with the
    calibrations of [s], is under the 4.9 V of line 183. *)
Definition measures_below_sentinel (s : state) (inp : inputs) : bool :=
  F32.ltb (node_measured inp (Vcalibration s) 0) (F32.lit 49 10).






(** * Properties *)

(** ** Generic facts about the helpers *)

Lemma for_up_bounded_ind (P : state -> Prop) (lo hi : nat) (body : nat -> state -> state)
    (s : state) :
  (forall i s, (lo <= i < hi)%nat -> P s -> P (body i s)) -> P s -> P (for_up lo hi body s).
Proof.
  intros Hbody. unfold for_up.
  assert (Hin : forall i, In i (seq lo (hi - lo)) -> (lo <= i < hi)%nat).
  { intros i Hi. apply in_seq in Hi. lia. }
  revert Hin. generalize (seq lo (hi - lo)). intros l. revert s.
  induction l as [|i l IH]; intros s Hin Hs; simpl; [exact Hs|].
  apply IH.
  - intros j Hj. apply Hin. right. exact Hj.
  - apply Hbody; [apply Hin; left; reflexivity | exact Hs].
Qed.

Lemma for_up_ind (P : state -> Prop) (lo hi : nat) (body : nat -> state -> state) (s : state) :
  (forall i s, P s -> P (body i s)) -> P s -> P (for_up lo hi body s).
Proof. intros Hbody. apply for_up_bounded_ind. intros i x _. apply Hbody. Qed.

Lemma Zrange_spec (lo : Z) (n : nat) (z : Z) :
  lo <= z < lo + Z.of_nat n -> In z (Zrange lo n).
Proof.
  intros H. unfold Zrange. apply in_map_iff. exists (Z.to_nat (z - lo)). split.
  - lia.
  - apply in_seq. lia.
Qed.

Lemma forallb_Zrange (P : Z -> bool) (lo : Z) (n : nat) :
  forallb P (Zrange lo n) = true -> forall z, lo <= z < lo + Z.of_nat n -> P z = true.
Proof.
  intros H z Hz. rewrite forallb_forall in H. apply H. apply Zrange_spec. exact Hz.
Qed.

Lemma reachable_run (ticks : list inputs) (s : state) :
  reachable s -> reachable (run ticks s).
Proof.
  revert s. induction ticks as [|inp ticks IH]; intros s Hs; simpl.
  - exact Hs.
  - apply IH. eapply reachable_step; [exact Hs | apply step_loop].
Qed.

(** ** The charge current regulator *)

(** C1. The regulator of the sketch tests [Vcell[0] < 4.9], the reverse of
    the protection its comment announces.  After one pass has resolved
    3.91 V on every cell, a pass without over-current lowers the duty from
    1 to 0; and after a pass that resolved 5.0 V on the bottom cell (above
    the 4.9 V sentinel), a pass without over-current raises it from 1 to 2. *)
Theorem regulator_throttles_below_sentinel :
  let normal := loop (pass 10 [800; 800; 800; 800] true) started in
  let high := loop (pass 10 [1023; 800; 800; 800] true) started in
  (pwm normal = 1
   /\ F32.ltb (Vcell normal !!! 0%nat) (F32.lit 49 10) = true
   /\ Imax (loop (pass 20 [800; 800; 800; 800] true) normal) = false
   /\ pwm (loop (pass 20 [800; 800; 800; 800] true) normal) = 0)
  /\ (pwm high = 1
      /\ F32.gtb (Vcell high !!! 0%nat) (F32.lit 49 10) = true
      /\ pwm (loop (pass 20 [1023; 800; 800; 800] true) high) = 2).
Proof. vm_compute. repeat split. Qed.

(** ** Which part of the state each function leaves alone *)

Arguments F32.add : simpl never.
Arguments F32.sub : simpl never.
Arguments F32.mul : simpl never.
Arguments F32.div : simpl never.
Arguments F32.of_int : simpl never.
Arguments F32.lit : simpl never.
Arguments F32.ltb : simpl never.
Arguments F32.gtb : simpl never.
Arguments F32.to_int : simpl never.
Arguments Int.u8 : simpl never.
Arguments Int.u16 : simpl never.
Arguments Int.u32 : simpl never.
Arguments Int.s8 : simpl never.
Arguments Int.s16 : simpl never.
Arguments Int.chr : simpl never.
Arguments node_voltage : simpl never.
Arguments threshold_of_byte : simpl never.
Arguments calibration_of_bytes : simpl never.
Arguments byte_of_threshold : simpl never.
Arguments calibration_to_int : simpl never.
Arguments RotactorConfig : simpl never.
Arguments EEPROM_Get : simpl never.
Arguments EEPROM_Update : simpl never.
Arguments run_once_block : simpl never.
Arguments read_analog_values : simpl never.
Arguments define_pwm : simpl never.
Arguments calculate_voltages : simpl never.
Arguments get_cell_voltages : simpl never.
Arguments check_balancing : simpl never.
Arguments every_minute : simpl never.
Arguments every_second : simpl never.
Arguments loop : simpl never.
Arguments command_L : simpl never.
Arguments command_H : simpl never.
Arguments command_B : simpl never.
Arguments command : simpl never.
Arguments serialEvent : simpl never.
Arguments for_up : simpl never.

Lemma for_up_frame {A : Type} (f : state -> A) lo hi body s :
  (forall i s, f (body i s) = f s) -> f (for_up lo hi body s) = f s.
Proof.
  intros H. apply (for_up_ind (fun x => f x = f s)); [|reflexivity].
  intros i x Hx. rewrite H. exact Hx.
Qed.

Create Rewrite HintDb frame.

(** [frame f] shows that the field [f] goes unchanged through straight-line
    code, conditionals and loops whose body does not assign it. *)
Ltac frame f :=
  repeat first
    [ progress simpl
    | progress autorewrite with frame
    | rewrite (for_up_frame f) by (intros; repeat case_match; simpl; reflexivity)
    | case_match ];
  try reflexivity.

(** *** The duty cycle is assigned by [define_pwm] only *)

Lemma run_once_block_pwm tempo s : pwm (run_once_block tempo s) = pwm s.
Proof. unfold run_once_block. frame pwm. Qed.

Lemma read_analog_values_pwm inp s : pwm (read_analog_values inp s) = pwm s.
Proof. unfold read_analog_values. frame pwm. Qed.

Lemma calculate_voltages_pwm s : pwm (calculate_voltages s) = pwm s.
Proof. unfold calculate_voltages, get_cell_voltages, for_down. frame pwm. Qed.

Lemma check_balancing_pwm s : pwm (check_balancing s) = pwm s.
Proof. unfold check_balancing. frame pwm. Qed.

Lemma RotactorConfig_pwm inp s : pwm (RotactorConfig inp s) = pwm s.
Proof. unfold RotactorConfig. frame pwm. Qed.

Lemma EEPROM_Get_pwm s : pwm (EEPROM_Get s) = pwm s.
Proof. unfold EEPROM_Get. frame pwm. Qed.

Lemma EEPROM_Update_pwm s : pwm (EEPROM_Update s) = pwm s.
Proof. unfold EEPROM_Update, EEPROM_write. frame pwm. Qed.

#[local] Hint Rewrite run_once_block_pwm read_analog_values_pwm calculate_voltages_pwm
  check_balancing_pwm RotactorConfig_pwm EEPROM_Get_pwm EEPROM_Update_pwm : frame.

Lemma every_second_pwm inp tempo s : pwm (every_second inp tempo s) = pwm s.
Proof. unfold every_second, every_minute. frame pwm. Qed.

Lemma command_L_pwm s : pwm (command_L s) = pwm s.
Proof. unfold command_L. frame pwm. Qed.

Lemma command_H_pwm s : pwm (command_H s) = pwm s.
Proof. unfold command_H. frame pwm. Qed.

#[local] Hint Rewrite every_second_pwm command_L_pwm command_H_pwm : frame.

Lemma setup_pwm inp eeprom : pwm (setup inp (power_on eeprom)) = 0.
Proof. unfold setup. frame pwm. Qed.

Lemma serialEvent_pwm incoming s s' : serialEvent incoming s = Ok s' -> pwm s' = pwm s.
Proof.
  unfold serialEvent, command, command_B, store_consoleInput, store_Vcalibration, bind.
  intros H. repeat case_match; simplify_eq; frame pwm.
Qed.

(** ** The duty cycle *)

Lemma loop_pwm inp s :
  pwm (loop inp s)
  = if throttles inp s
    then (if pwm s >? 0 then Int.u8 (pwm s - 1) else pwm s)
    else (if pwm s <? 255 then Int.u8 (pwm s + 1) else pwm s).
Proof.
  assert (Hd : forall x, pwm (define_pwm x)
            = if Imax x || F32.ltb (Vcell x !!! 0%nat) (F32.lit 49 10)
              then (if pwm x >? 0 then Int.u8 (pwm x - 1) else pwm x)
              else (if pwm x <? 255 then Int.u8 (pwm x + 1) else pwm x)).
  { intros x. unfold define_pwm. repeat case_match; reflexivity. }
  assert (Hv : Vcell (read_analog_values inp (run_once_block (Int.u32 (millis inp)) s))
               = Vcell s).
  { unfold read_analog_values, run_once_block. frame Vcell. }
  assert (Hi : Imax (read_analog_values inp (run_once_block (Int.u32 (millis inp)) s))
               = negb (ImaxLevel inp)).
  { unfold read_analog_values. reflexivity. }
  unfold loop, throttles. cbv zeta.
  case_match; autorewrite with frame;
    change (pwm (set_analogReadsCount ?c ?x)) with (pwm x);
    rewrite Hd, Hv, Hi; autorewrite with frame; reflexivity.
Qed.

Lemma loop_pwm_saturating inp s :
  0 <= pwm s <= 255 ->
  pwm (loop inp s) = if throttles inp s then Z.max 0 (pwm s - 1) else Z.min 255 (pwm s + 1).
Proof.
  intros Hs. rewrite loop_pwm. unfold Int.u8.
  destruct (throttles inp s).
  - destruct (Z.gtb_spec (pwm s) 0); [rewrite Z.mod_small by lia|]; lia.
  - destruct (Z.ltb_spec (pwm s) 255); [rewrite Z.mod_small by lia|]; lia.
Qed.

Lemma loop_pwm_range inp s : 0 <= pwm s <= 255 -> 0 <= pwm (loop inp s) <= 255.
Proof.
  intros Hs. rewrite loop_pwm_saturating by exact Hs. destruct (throttles inp s); lia.
Qed.

Lemma run_pwm_range ticks s : 0 <= pwm s <= 255 -> 0 <= pwm (run ticks s) <= 255.
Proof.
  revert s. induction ticks as [|inp ticks IH]; intros s Hs; simpl; [exact Hs|].
  apply IH, loop_pwm_range, Hs.
Qed.

Lemma reachable_pwm_range s : reachable s -> 0 <= pwm s <= 255.
Proof.
  induction 1 as [eeprom inp | s s' _ IH Hstep].
  - rewrite setup_pwm. lia.
  - destruct Hstep as [inp s | incoming s s' Hev].
    + apply loop_pwm_range, IH.
    + rewrite (serialEvent_pwm _ _ _ Hev). exact IH.
Qed.

Lemma run_pwm_overcurrent ticks s :
  0 <= pwm s <= 255 -> Forall (fun inp => ImaxLevel inp = false) ticks ->
  pwm (run ticks s) = Z.max 0 (pwm s - Z.of_nat (length ticks)).
Proof.
  revert s. induction ticks as [|inp ticks IH]; intros s Hs Hall; simpl.
  - lia.
  - inversion Hall as [|? ? Hinp Hrest]; subst.
    rewrite IH by (auto using loop_pwm_range).
    rewrite loop_pwm_saturating by exact Hs.
    unfold throttles. rewrite Hinp. simpl. lia.
Qed.

Lemma run_pwm_unthrottled ticks s :
  0 <= pwm s <= 255 -> never_throttles ticks s = true ->
  pwm (run ticks s) = Z.min 255 (pwm s + Z.of_nat (length ticks)).
Proof.
  revert s. induction ticks as [|inp ticks IH]; intros s Hs Hnever; simpl.
  - lia.
  - simpl in Hnever. apply andb_true_iff in Hnever as [Hnow Hrest].
    apply negb_true_iff in Hnow.
    rewrite IH by (auto using loop_pwm_range).
    rewrite loop_pwm_saturating by exact Hs. rewrite Hnow. lia.
Qed.

(** ** The configuration selector *)

Lemma RotactorConfig_runOnce inp s :
  runOnce (RotactorConfig inp s)
  = if decide (selector inp = remembered s) then runOnce s else true.
Proof.
  unfold RotactorConfig, selector, remembered.
  destruct (UrcLevel inp), (DrcLevel inp), (CrcLevel inp); simpl;
    destruct (memo_Urc s), (memo_Drc s), (memo_Crc s); reflexivity.
Qed.

Lemma RotactorConfig_remembered inp s : remembered (RotactorConfig inp s) = selector inp.
Proof.
  unfold RotactorConfig, selector, remembered.
  destruct (UrcLevel inp), (DrcLevel inp), (CrcLevel inp); simpl;
    destruct (memo_Urc s), (memo_Drc s), (memo_Crc s); reflexivity.
Qed.

(** C9. [RotactorConfig] decodes the selector by the truth table (U,D =
    1,1 gives 4 cells; 1,0 gives 2; 0,1 gives 3; 0,0 gives 1; LiFePO4
    exactly when C is set) and remembers the three lines.  A call that
    reads lines different from the remembered ones sets [runOnce]; a call
    that reads the remembered lines leaves [runOnce] as it is.  Hence,
    whatever clears the flag in between (here [after], which keeps the
    remembered lines), a toggle sets the flag on the first call that sees
    it and the next call with the lines held steady does not set it again. *)
Theorem selector_decoded_and_change_detected :
  (forall inp s,
      cellNumber (RotactorConfig inp s) = selected_cells (UrcLevel inp) (DrcLevel inp)
      /\ cellModel (RotactorConfig inp s) = CrcLevel inp
      /\ remembered (RotactorConfig inp s) = selector inp)
  /\ (forall inp s, selector inp <> remembered s -> runOnce (RotactorConfig inp s) = true)
  /\ (forall inp s, selector inp = remembered s -> runOnce (RotactorConfig inp s) = runOnce s)
  /\ (forall inp1 inp2 s (after : state -> state),
        (forall x, remembered (after x) = remembered x) ->
        (forall x, runOnce (after x) = false) ->
        selector inp2 <> selector inp1 ->
        let toggled := RotactorConfig inp2 (after (RotactorConfig inp1 s)) in
        runOnce toggled = true
        /\ runOnce (RotactorConfig inp2 (after toggled)) = false).
Proof.
  split; [|split; [|split]].
  - intros inp s. split; [|split].
    + unfold RotactorConfig, selected_cells.
      destruct (UrcLevel inp), (DrcLevel inp); frame cellNumber.
    + unfold RotactorConfig. destruct (CrcLevel inp); frame cellModel.
    + apply RotactorConfig_remembered.
  - intros inp s Hne. rewrite RotactorConfig_runOnce.
    destruct (decide (selector inp = remembered s)); [contradiction|reflexivity].
  - intros inp s Heq. rewrite RotactorConfig_runOnce.
    destruct (decide (selector inp = remembered s)); [reflexivity|contradiction].
  - intros inp1 inp2 s after Hmemo Hclear Hne toggled. unfold toggled. split.
    + rewrite RotactorConfig_runOnce, Hmemo, RotactorConfig_remembered.
      destruct (decide (selector inp2 = selector inp1)); [contradiction|reflexivity].
    + rewrite RotactorConfig_runOnce, Hmemo, RotactorConfig_remembered.
      destruct (decide (selector inp2 = selector inp2)); [apply Hclear|contradiction].
Qed.

(** A turn of the selector from 4 to 2 cells between two calls, the
    run-once flag being cleared in between. *)
Lemma selector_decoded_and_change_detected_witness :
  let inp1 := pass 0 [] true in
  let inp2 := {| millis := 0; analogRead := []; ImaxLevel := true;
                 UrcLevel := true; DrcLevel := false; CrcLevel := false |} in
  let toggled := RotactorConfig inp2 (set_runOnce false (RotactorConfig inp1 started)) in
  cellNumber toggled = 2
  /\ runOnce toggled = true
  /\ runOnce (RotactorConfig inp2 (set_runOnce false toggled)) = false.
Proof.
  intros inp1 inp2 toggled.
  destruct selector_decoded_and_change_detected as (Htable & _ & _ & Hseq).
  split.
  - exact (proj1 (Htable inp2 (set_runOnce false (RotactorConfig inp1 started)))).
  - apply (Hseq inp1 inp2 started (set_runOnce false)).
    + intros x. reflexivity.
    + intros x. reflexivity.
    + discriminate.
Defined.

(** ** The console line buffer *)

Lemma EEPROM_Get_index s : index (EEPROM_Get s) = index s.
Proof. unfold EEPROM_Get. frame index. Qed.

Lemma EEPROM_Update_index s : index (EEPROM_Update s) = index s.
Proof. unfold EEPROM_Update, EEPROM_write. frame index. Qed.

Lemma command_L_index s : index (command_L s) = index s.
Proof. unfold command_L. frame index. Qed.

Lemma command_H_index s : index (command_H s) = index s.
Proof. unfold command_H. frame index. Qed.

#[local] Hint Rewrite EEPROM_Get_index EEPROM_Update_index command_L_index command_H_index
  : frame.

Lemma command_Ok_index s s' : command s = Ok s' -> index s' = index s.
Proof.
  unfold command, command_B, store_Vcalibration.
  intros H. repeat case_match; simplify_eq; frame index.
Qed.

Lemma command_fault s array idx : command s = OutOfBounds array idx -> array = "Vcalibration"%string.
Proof.
  unfold command, command_B, store_Vcalibration.
  intros H. repeat case_match; simplify_eq; reflexivity.
Qed.

Lemma lines_fit_bound k bytes : lines_fit k bytes = true -> k <= 6.
Proof.
  revert k. induction bytes as [|b rest IH]; intros k H; simpl in H.
  - lia.
  - destruct (Int.s8 b =? 10).
    + apply andb_true_iff in H as [H _]. lia.
    + apply IH in H. lia.
Qed.

(** What one call of [serialEvent] does to the write index. *)
Lemma serialEvent_char b s :
  (Int.s8 b =? 10) = false -> 0 <= index s ->
  match serialEvent (Some b) s with
  | Ok s' => index s < 7 /\ index s' = index s + 1
  | OutOfBounds array idx => 7 <= index s /\ array = "consoleInput"%string /\ idx = index s
  end.
Proof.
  intros Hb Hk. unfold serialEvent, store_consoleInput, bind. rewrite Hb. simpl.
  destruct (Z.leb_spec 0 (index s)); [|lia].
  destruct (Z.ltb_spec (index s) 7); simpl.
  - split; [lia|]. unfold Int.u8. rewrite Z.mod_small by lia. reflexivity.
  - repeat split; lia.
Qed.

Lemma serialEvent_newline b s :
  (Int.s8 b =? 10) = true -> 0 <= index s ->
  match serialEvent (Some b) s with
  | Ok s' => index s < 7 /\ index s' = 0
  | OutOfBounds array idx =>
      (7 <= index s /\ array = "consoleInput"%string /\ idx = index s)
      \/ (index s < 7 /\ array = "Vcalibration"%string)
  end.
Proof.
  intros Hb Hk. unfold serialEvent, store_consoleInput, bind. rewrite Hb. simpl.
  destruct (Z.leb_spec 0 (index s)); [|lia].
  destruct (Z.ltb_spec (index s) 7); simpl.
  - match goal with |- context [command ?x] => destruct (command x) as [s'|a i] eqn:Hc end.
    + split; [lia|]. apply command_Ok_index in Hc. exact Hc.
    + right. split; [lia|]. eapply command_fault, Hc.
  - left. repeat split; lia.
Qed.

(** C10. Whatever bytes arrive, as long as every line (the current one
    included) has at most six characters before its newline, the write
    index stays in 0..6 and every write into [consoleInput] is inside its
    seven bytes: the run ends with the index in 0..6, or stops on the
    out-of-range write of a ['B'] command into [Vcalibration], never on a
    write outside [consoleInput].  The bound is exact: a run that ends with
    the index in 0..6 had at most six characters on every line. *)
Theorem console_index_within_buffer (bytes : list Z) (s : state) :
  0 <= index s ->
  match serialEvents bytes s with
  | Ok s' => lines_fit (index s) bytes = true <-> 0 <= index s' <= 6
  | OutOfBounds array idx =>
      (lines_fit (index s) bytes = true -> array = "Vcalibration"%string)
      /\ (array = "consoleInput"%string -> 7 <= idx)
  end.
Proof.
  revert s. induction bytes as [|b rest IH]; intros s Hk; simpl.
  - rewrite Z.leb_le. lia.
  - destruct (Int.s8 b =? 10) eqn:Hb.
    + pose proof (serialEvent_newline b s Hb Hk) as Hstep.
      destruct (serialEvent (Some b) s) as [s1|a i]; simpl.
      * destruct Hstep as [Hlt H0]. specialize (IH s1). rewrite H0 in IH.
        specialize (IH ltac:(lia)).
        destruct (Z.leb_spec (index s) 6); [|lia]. simpl. exact IH.
      * destruct Hstep as [(Hge & Ha & Hi) | (Hlt & Ha)]; subst.
        -- split; [|lia]. intros H. apply andb_true_iff in H as [H _].
           apply Z.leb_le in H. lia.
        -- split; [reflexivity|discriminate].
    + pose proof (serialEvent_char b s Hb Hk) as Hstep.
      destruct (serialEvent (Some b) s) as [s1|a i]; simpl.
      * destruct Hstep as [Hlt H1]. specialize (IH s1). rewrite H1 in IH.
        apply IH. lia.
      * destruct Hstep as (Hge & Ha & Hi); subst. split; [|lia].
        intros H. apply lines_fit_bound in H. lia.
Qed.

(** A calibration command of exactly six characters and its newline. *)
Lemma console_index_within_buffer_witness :
  match serialEvents (bytes_of "B11000" ++ [10]) started with
  | Ok s' => 0 <= index s' <= 6
  | OutOfBounds _ _ => False
  end.
Proof.
  pose proof (console_index_within_buffer (bytes_of "B11000" ++ [10]) started) as H.
  assert (H0 : 0 <= index started) by (vm_compute; discriminate).
  specialize (H H0).
  destruct (serialEvents (bytes_of "B11000" ++ [10]) started) as [s'|a i] eqn:E.
  - apply H. vm_compute. reflexivity.
  - vm_compute in E. discriminate E.
Defined.

(** ** The calibration command *)

(** C4. With four cells selected, line 423 rejects a cell index only when
    it is greater than 4: the command [B51000] (cell digit 5, in-range
    value) is not rejected but stores into [Vcalibration[4]], past the end
    of the four-element array, and [B01000] stores into [Vcalibration[-1]]. *)
Theorem calibration_command_accepts_cell_5 :
  cellNumber started = 4
  /\ serialEvents (bytes_of "B51000" ++ [10]) started = OutOfBounds "Vcalibration" 4
  /\ serialEvents (bytes_of "B01000" ++ [10]) started = OutOfBounds "Vcalibration" (-1).
Proof. vm_compute. repeat split. Qed.

(** ** The calibration store *)

Lemma threshold_of_byte_at_least_3V (b : Z) :
  (3 <= F32.to_Q (threshold_of_byte (Int.u8 b)))%Q.
Proof.
  apply Qle_bool_iff.
  apply (forallb_Zrange (fun z => Qle_bool 3 (F32.to_Q (threshold_of_byte z))) 0 256).
  - vm_compute. reflexivity.
  - unfold Int.u8. pose proof (Z.mod_pos_bound b 256). lia.
Qed.

Lemma calibration_restored (n : Z) :
  800 <= n <= 1200 ->
  let x := F32.div (F32.of_int n) (F32.of_int 1000) in
  let var := calibration_to_int x in
  (Qabs (F32.to_Q (calibration_of_bytes (Int.highByte var) (Int.lowByte var)) - F32.to_Q x)
   <= 1 # 1000)%Q.
Proof.
  intros H. cbv zeta. apply Qle_bool_iff.
  apply (forallb_Zrange
           (fun z => let x := F32.div (F32.of_int z) (F32.of_int 1000) in
                     let var := calibration_to_int x in
                     Qle_bool
                       (Qabs (F32.to_Q (calibration_of_bytes (Int.highByte var)
                                          (Int.lowByte var)) - F32.to_Q x))
                       (1 # 1000)) 800 401).
  - vm_compute. reflexivity.
  - lia.
Qed.

Lemma threshold_restored (n : Z) :
  300 <= n <= 460 ->
  let v := F32.div (F32.of_int n) (F32.of_int 100) in
  (Qabs (F32.to_Q (threshold_of_byte (byte_of_threshold v)) - F32.to_Q v) <= 1 # 100)%Q.
Proof.
  intros H. cbv zeta. apply Qle_bool_iff.
  apply (forallb_Zrange
           (fun z => let v := F32.div (F32.of_int z) (F32.of_int 100) in
                     Qle_bool
                       (Qabs (F32.to_Q (threshold_of_byte (byte_of_threshold v)) - F32.to_Q v))
                       (1 # 100)) 300 161).
  - vm_compute. reflexivity.
  - lia.
Qed.

Lemma threshold_not_restored (n : Z) :
  270 <= n <= 299 ->
  let v := F32.div (F32.of_int n) (F32.of_int 100) in
  (F32.to_Q v + (25 # 10) <= F32.to_Q (threshold_of_byte (byte_of_threshold v)))%Q.
Proof.
  intros H. cbv zeta. apply Qle_bool_iff.
  apply (forallb_Zrange
           (fun z => let v := F32.div (F32.of_int z) (F32.of_int 100) in
                     Qle_bool (F32.to_Q v + (25 # 10))
                       (F32.to_Q (threshold_of_byte (byte_of_threshold v)))) 270 30).
  - vm_compute. reflexivity.
  - lia.
Qed.

(** C5. A threshold below 3.00 V does not survive the store.  2.70 V is
    encoded as [270 - 300 = -30], kept in one byte as 226, and decoded as
    5.26 V; no byte at all decodes below 3.00 V.  On the console: after
    [LT270] the Li-ion Vmin is 2.70 V; saving ([S]) and reloading ([E])
    leaves it at 5.26 V.  Of the values the console can set, every
    threshold from 2.70 V to 2.99 V is reloaded at least 2.5 V too high,
    while every threshold from 3.00 V to 4.60 V is reloaded within 0.01 V
    and every calibration from 0.800 to 1.200 within 0.001. *)
Theorem threshold_below_3V_not_restored :
  byte_of_threshold (F32.lit 27 10) = 226
  /\ threshold_of_byte 226 = F32.lit 526 100
  /\ (forall b, (3 <= F32.to_Q (threshold_of_byte (Int.u8 b)))%Q)
  /\ match serialEvents (bytes_of "LT270" ++ [10]) started with
     | Ok s1 =>
         Vmin s1 !!! 0%nat = F32.lit 27 10
         /\ match serialEvents (bytes_of "S" ++ [10] ++ bytes_of "E" ++ [10]) s1 with
            | Ok s2 => Vmin s2 !!! 0%nat = F32.lit 526 100
            | OutOfBounds _ _ => False
            end
     | OutOfBounds _ _ => False
     end
  /\ (forall n, 270 <= n <= 299 ->
        let v := F32.div (F32.of_int n) (F32.of_int 100) in
        (F32.to_Q v + (25 # 10) <= F32.to_Q (threshold_of_byte (byte_of_threshold v)))%Q)
  /\ (forall n, 300 <= n <= 460 ->
        let v := F32.div (F32.of_int n) (F32.of_int 100) in
        (Qabs (F32.to_Q (threshold_of_byte (byte_of_threshold v)) - F32.to_Q v) <= 1 # 100)%Q)
  /\ (forall n, 800 <= n <= 1200 ->
        let x := F32.div (F32.of_int n) (F32.of_int 1000) in
        let var := calibration_to_int x in
        (Qabs (F32.to_Q (calibration_of_bytes (Int.highByte var) (Int.lowByte var))
               - F32.to_Q x) <= 1 # 1000)%Q).
Proof.
  split; [vm_compute; reflexivity|].
  split; [vm_compute; reflexivity|].
  split; [exact threshold_of_byte_at_least_3V|].
  split; [vm_compute; split; reflexivity|].
  split; [exact threshold_not_restored|].
  split; [exact threshold_restored | exact calibration_restored].
Qed.

(** ** The voltage thresholds *)

(** C6, as stated, fails.  In the state where the line [HT300] has been
    typed and awaits its newline, Vmin < Vmax holds for both chemistries;
    the command then sets the Li-ion Vmax to 3.00 V while its Vmin is
    3.60 V. *)
Lemma threshold_order_not_preserved :
  (let s := set_consoleInput (bytes_of "HT300" ++ [0; 0]) started in
   thresholds_ordered s = true /\ thresholds_ordered (command_H s) = false)
  /\ ~ threshold_commands_keep_order.
Proof.
  assert (Hc : let s := set_consoleInput (bytes_of "HT300" ++ [0; 0]) started in
               thresholds_ordered s = true /\ thresholds_ordered (command_H s) = false).
  { vm_compute. split; reflexivity. }
  split; [exact Hc|].
  intros H. destruct Hc as [Hbefore Hafter].
  destruct (H _ Hbefore) as [_ HH]. rewrite Hafter in HH. discriminate HH.
Qed.

Lemma console_value_in_range (val : Z) :
  270 <= val <= 460 -> in_console_range (F32.div (F32.of_int val) (F32.of_int 100)) = true.
Proof.
  intros H.
  apply (forallb_Zrange
           (fun z => in_console_range (F32.div (F32.of_int z) (F32.of_int 100))) 270 191).
  - vm_compute. reflexivity.
  - lia.
Qed.

Lemma value3_accepted (c : list Z) :
  (value3 c <? 270) || (value3 c >? 460) = false -> 270 <= value3 c <= 460.
Proof.
  intros H. apply orb_false_iff in H as [H1 H2].
  apply Z.ltb_ge in H1. rewrite Z.gtb_ltb in H2. apply Z.ltb_ge in H2. lia.
Qed.

Lemma command_L_thresholds s :
  thresholds_in_range s -> thresholds_in_range (command_L s) /\ Vmax (command_L s) = Vmax s.
Proof.
  intros [Hmax Hmin]. unfold command_L, thresholds_in_range.
  repeat case_match; simpl; repeat split; auto;
    apply Forall_insert; auto; apply console_value_in_range, value3_accepted; assumption.
Qed.

Lemma command_H_thresholds s :
  thresholds_in_range s -> thresholds_in_range (command_H s) /\ Vmin (command_H s) = Vmin s.
Proof.
  intros [Hmax Hmin]. unfold command_H, thresholds_in_range.
  repeat case_match; simpl; repeat split; auto;
    apply Forall_insert; auto; apply console_value_in_range, value3_accepted; assumption.
Qed.

(** ** The undervoltage alarm *)

Lemma count_tones_app evs1 evs2 :
  count_tones (evs1 ++ evs2) = (count_tones evs1 + count_tones evs2)%nat.
Proof. induction evs1 as [|e evs1 IH]; simpl; [reflexivity|]. rewrite IH. lia. Qed.

#[local] Hint Rewrite count_tones_app Nat.add_0_r : frame.

Lemma tones_emit e s : tones (emit e s) = (tones s + (if is_tone e then 1 else 0))%nat.
Proof. unfold tones. simpl. rewrite count_tones_app. simpl. lia. Qed.

(** [silent] shows that a piece of code that emits no [Tone] leaves the
    count of tones unchanged. *)
Ltac silent :=
  unfold tones;
  repeat first
    [ progress simpl
    | progress autorewrite with frame
    | rewrite (for_up_frame (fun x => count_tones (output x)))
        by (intros; repeat case_match; simpl; autorewrite with frame; reflexivity)
    | case_match ];
  try reflexivity.

(** The part of the state the alarm logic reads but the measuring code does
    not assign. *)
Lemma run_once_block_alarm tempo s :
  let s' := run_once_block tempo s in
  buzzerON s' = (if runOnce s then false else buzzerON s)
  /\ oneMinute s' = oneMinute s /\ tones s' = tones s
  /\ analogReadsCount s' = analogReadsCount s /\ memo_tempo s' = memo_tempo s
  /\ Vmin s' = Vmin s /\ cellModel s' = cellModel s.
Proof.
  intros s'; subst s'. unfold run_once_block. repeat apply conj.
  - frame buzzerON.
  - frame oneMinute.
  - silent.
  - frame analogReadsCount.
  - frame memo_tempo.
  - frame Vmin.
  - frame cellModel.
Qed.

Lemma read_analog_values_alarm inp s :
  let s' := read_analog_values inp s in
  buzzerON s' = buzzerON s /\ oneMinute s' = oneMinute s /\ tones s' = tones s
  /\ analogReadsCount s' = analogReadsCount s /\ memo_tempo s' = memo_tempo s
  /\ Vmin s' = Vmin s /\ cellModel s' = cellModel s.
Proof.
  intros s'; subst s'. unfold read_analog_values. repeat apply conj.
  - frame buzzerON.
  - frame oneMinute.
  - silent.
  - frame analogReadsCount.
  - frame memo_tempo.
  - frame Vmin.
  - frame cellModel.
Qed.

Lemma define_pwm_alarm s :
  let s' := define_pwm s in
  buzzerON s' = buzzerON s /\ oneMinute s' = oneMinute s /\ tones s' = tones s
  /\ analogReadsCount s' = analogReadsCount s /\ memo_tempo s' = memo_tempo s
  /\ Vmin s' = Vmin s /\ cellModel s' = cellModel s.
Proof.
  intros s'; subst s'. unfold define_pwm. repeat apply conj.
  - frame buzzerON.
  - frame oneMinute.
  - silent.
  - frame analogReadsCount.
  - frame memo_tempo.
  - frame Vmin.
  - frame cellModel.
Qed.

Lemma calculate_voltages_alarm s :
  let s' := calculate_voltages s in
  buzzerON s' = buzzerON s /\ oneMinute s' = oneMinute s /\ tones s' = tones s
  /\ memo_tempo s' = memo_tempo s /\ Vmin s' = Vmin s /\ cellModel s' = cellModel s.
Proof.
  intros s'; subst s'. unfold calculate_voltages, get_cell_voltages, for_down. repeat apply conj.
  - frame buzzerON.
  - frame oneMinute.
  - silent.
  - frame memo_tempo.
  - frame Vmin.
  - frame cellModel.
Qed.

Lemma RotactorConfig_alarm inp s :
  let s' := RotactorConfig inp s in
  buzzerON s' = buzzerON s /\ oneMinute s' = oneMinute s /\ tones s' = tones s
  /\ Vcell s' = Vcell s.
Proof.
  intros s'; subst s'. unfold RotactorConfig. repeat apply conj.
  - frame buzzerON.
  - frame oneMinute.
  - silent.
  - frame Vcell.
Qed.

Lemma every_minute_alarm tempo s :
  let s' := every_minute tempo s in
  buzzerON s' = buzzerON s /\ (oneMinute s = true -> oneMinute s' = true)
  /\ tones s' = tones s /\ Vcell s' = Vcell s.
Proof.
  intros s'; subst s'. unfold every_minute. repeat apply conj.
  - frame buzzerON.
  - intros H. repeat case_match; simpl; auto.
  - silent.
  - frame Vcell.
Qed.

Lemma check_balancing_alarm s :
  let s' := check_balancing s in
  oneMinute s' = oneMinute s /\ Vcell s' = Vcell s
  /\ tones s' = (tones s + (if buzzerON s' then 1 else 0))%nat
  /\ (buzzerON s = true -> buzzerON s' = true)
  /\ (buzzerON s' = true ->
      buzzerON s = true \/ (oneMinute s = true /\ undervoltage_found s (Vcell s))).
Proof.
  intros s'; subst s'. unfold check_balancing.
  match goal with |- context [for_up ?lo ?hi ?body s] => set (checked := for_up lo hi body s) end.
  assert (H : oneMinute checked = oneMinute s /\ Vcell checked = Vcell s
              /\ Vmin checked = Vmin s /\ cellModel checked = cellModel s
              /\ tones checked = tones s
              /\ (buzzerON s = true -> buzzerON checked = true)
              /\ (buzzerON checked = true ->
                  buzzerON s = true \/ (oneMinute s = true /\ undervoltage_found s (Vcell s)))).
  { subst checked. apply for_up_bounded_ind; [|tauto].
    intros i x Hi (Hmin & Hcell & Hvmin & Hmodel & Htones & Hkeep & Hraise).
    destruct (F32.gtb (Vcell x !!! i) (Vmax x !!! Nat.b2n (cellModel x))).
    - repeat apply conj; try assumption.
      unfold tones in *. simpl. rewrite count_tones_app. simpl. lia.
    - destruct (oneMinute x && F32.ltb (Vcell x !!! i) (Vmin x !!! Nat.b2n (cellModel x)))
        eqn:Hlow.
      + repeat apply conj; try assumption; simpl; auto.
        intros _. right. apply andb_true_iff in Hlow as [Hone Hlt].
        split; [congruence|]. exists i. split; [lia|]. congruence.
      + repeat apply conj; assumption. }
  destruct H as (Hmin & Hcell & _ & _ & Htones & Hkeep & Hraise).
  destruct (buzzerON checked) eqn:Hb; simpl.
  - repeat apply conj; auto. unfold tones in *. simpl. rewrite count_tones_app, Htones.
    simpl. rewrite Hb. reflexivity.
  - rewrite Hb. repeat apply conj; auto. lia.
Qed.

Lemma measuring_alarm inp tempo s :
  let s3 := define_pwm (read_analog_values inp (run_once_block tempo s)) in
  buzzerON s3 = (if runOnce s then false else buzzerON s)
  /\ oneMinute s3 = oneMinute s /\ tones s3 = tones s
  /\ analogReadsCount s3 = analogReadsCount s /\ memo_tempo s3 = memo_tempo s
  /\ Vmin s3 = Vmin s /\ cellModel s3 = cellModel s.
Proof.
  intros s3; subst s3.
  destruct (run_once_block_alarm tempo s) as (Hb1 & Ho1 & Ht1 & Hc1 & Hm1 & Hv1 & Hk1).
  destruct (read_analog_values_alarm inp (run_once_block tempo s))
    as (Hb2 & Ho2 & Ht2 & Hc2 & Hm2 & Hv2 & Hk2).
  destruct (define_pwm_alarm (read_analog_values inp (run_once_block tempo s)))
    as (Hb3 & Ho3 & Ht3 & Hc3 & Hm3 & Hv3 & Hk3).
  repeat apply conj.
  - rewrite Hb3, Hb2, Hb1. reflexivity.
  - rewrite Ho3, Ho2, Ho1. reflexivity.
  - rewrite Ht3, Ht2, Ht1. reflexivity.
  - rewrite Hc3, Hc2, Hc1. reflexivity.
  - rewrite Hm3, Hm2, Hm1. reflexivity.
  - rewrite Hv3, Hv2, Hv1. reflexivity.
  - rewrite Hk3, Hk2, Hk1. reflexivity.
Qed.

Lemma reporting_alarm inp tempo s :
  let s' := every_minute tempo
              (emit OledDisplay
                 (emit (ConsoleDisplay (whatToDisplay (RotactorConfig inp s)))
                    (RotactorConfig inp s))) in
  buzzerON s' = buzzerON s /\ (oneMinute s = true -> oneMinute s' = true)
  /\ tones s' = tones s /\ Vcell s' = Vcell s.
Proof.
  intros s'; subst s'.
  destruct (RotactorConfig_alarm inp s) as (Hb1 & Ho1 & Ht1 & Hc1).
  match goal with |- context [every_minute tempo ?x] =>
    destruct (every_minute_alarm tempo x) as (Hb2 & Ho2 & Ht2 & Hc2)
  end.
  repeat apply conj.
  - rewrite Hb2. exact Hb1.
  - intros H. apply Ho2. rewrite <- Ho1 in H. exact H.
  - rewrite Ht2, <- Ht1. unfold tones. simpl. rewrite !count_tones_app. simpl. lia.
  - rewrite Hc2. exact Hc1.
Qed.

Lemma every_second_alarm inp tempo s :
  let s' := every_second inp tempo s in
  let due := 1000 <=? Int.u32 (tempo - memo_tempo s) in
  (oneMinute s = true -> oneMinute s' = true)
  /\ (buzzerON s = true -> buzzerON s' = true)
  /\ (buzzerON s' = true ->
      buzzerON s = true
      \/ (due = true /\ oneMinute s = true /\ undervoltage_found s (Vcell s')))
  /\ tones s' = (tones s + (if due && buzzerON s' then 1 else 0))%nat.
Proof.
  intros s' due; subst s' due. unfold every_second. rewrite (Z.leb_antisym _ 1000).
  destruct (Int.u32 (tempo - memo_tempo s) <? 1000); unfold negb, andb; cbv beta iota.
  { repeat apply conj; auto; lia. }
  destruct (check_balancing_alarm (set_memo_tempo tempo s)) as (Ho & Hc & Ht & Hkeep & Hraise).
  destruct (reporting_alarm inp tempo (check_balancing (set_memo_tempo tempo s)))
    as (Hb' & Ho' & Ht' & Hc').
  cbv zeta in Hb', Ho', Ht', Hc'.
  rewrite Hb', Ht', Hc', Ht, Hc.
  repeat apply conj.
  - intros H. apply Ho'. rewrite Ho. exact H.
  - exact Hkeep.
  - intros H. destruct (Hraise H) as [Hold | [Hone Hlow]]; [left; exact Hold|].
    right. repeat apply conj; [reflexivity | exact Hone | exact Hlow].
  - reflexivity.
Qed.

(** What a pass of [loop] does to the alarm, whichever way it returns. *)
Lemma loop_alarm inp s :
  let s' := loop inp s in
  let cleared := if runOnce s then false else buzzerON s in
  (oneMinute s = true -> oneMinute s' = true)
  /\ (cleared = true -> buzzerON s' = true)
  /\ (buzzerON s' = true ->
      cleared = true
      \/ (evaluates inp s = true /\ oneMinute s = true /\ undervoltage_found s (Vcell s')))
  /\ tones s' = (tones s + (if evaluates inp s && buzzerON s' then 1 else 0))%nat.
Proof.
  intros s' cleared; subst s' cleared. unfold loop, evaluates. cbv zeta.
  generalize (Int.u32 (millis inp)). intros tempo.
  destruct (measuring_alarm inp tempo s) as (Hb & Ho & Ht & Hc & Hm & Hv & Hk).
  revert Hb Ho Ht Hc Hm Hv Hk.
  generalize (define_pwm (read_analog_values inp (run_once_block tempo s))).
  intros s3 Hb Ho Ht Hc Hm Hv Hk.
  change (analogReadsCount (set_analogReadsCount ?c ?x)) with c.
  rewrite Hc, Z.gtb_ltb, (Z.leb_antisym 100).
  destruct (100 <? Int.u16 (analogReadsCount s + 1)); unfold negb, andb; cbv beta iota.
  { change (buzzerON (set_analogReadsCount ?c ?x)) with (buzzerON x).
    change (oneMinute (set_analogReadsCount ?c ?x)) with (oneMinute x).
    change (tones (set_analogReadsCount ?c ?x)) with (tones x).
    rewrite Hb, Ho, Ht. repeat apply conj; auto; lia. }
  destruct (calculate_voltages_alarm
              (set_analogReadsCount (Int.u16 (analogReadsCount s + 1)) s3))
    as (Hb5 & Ho5 & Ht5 & Hm5 & Hv5 & Hk5).
  revert Hb5 Ho5 Ht5 Hm5 Hv5 Hk5.
  change (buzzerON (set_analogReadsCount ?c ?x)) with (buzzerON x).
  change (oneMinute (set_analogReadsCount ?c ?x)) with (oneMinute x).
  change (tones (set_analogReadsCount ?c ?x)) with (tones x).
  change (memo_tempo (set_analogReadsCount ?c ?x)) with (memo_tempo x).
  change (Vmin (set_analogReadsCount ?c ?x)) with (Vmin x).
  change (cellModel (set_analogReadsCount ?c ?x)) with (cellModel x).
  rewrite Hb, Ho, Ht, Hm, Hv, Hk.
  generalize (calculate_voltages (set_analogReadsCount (Int.u16 (analogReadsCount s + 1)) s3)).
  intros s5 Hb5 Ho5 Ht5 Hm5 Hv5 Hk5.
  destruct (every_second_alarm inp tempo s5) as (Hone & Hkeep & Hraise & Htones).
  cbv zeta in Hone, Hkeep, Hraise, Htones.
  rewrite Htones, Ht5, Hm5.
  rewrite Hb5, Ho5, Hm5 in *.
  repeat apply conj; auto.
  intros H. destruct (Hraise H) as [Hold | (Hdue & Hmin & Hlow)]; [left; exact Hold|].
  right. repeat apply conj; auto.
  destruct Hlow as (i & Hi & Hlt). exists i. split; [exact Hi|].
  rewrite <- Hv5, <- Hk5. exact Hlt.
Qed.

Lemma EEPROM_Get_alarm s :
  buzzerON (EEPROM_Get s) = buzzerON s /\ oneMinute (EEPROM_Get s) = oneMinute s
  /\ tones (EEPROM_Get s) = tones s.
Proof. unfold EEPROM_Get. repeat apply conj; [frame buzzerON | frame oneMinute | silent]. Qed.

Lemma EEPROM_Update_alarm s :
  buzzerON (EEPROM_Update s) = buzzerON s /\ oneMinute (EEPROM_Update s) = oneMinute s
  /\ tones (EEPROM_Update s) = tones s.
Proof.
  unfold EEPROM_Update, EEPROM_write.
  repeat apply conj; [frame buzzerON | frame oneMinute | silent].
Qed.

Lemma command_L_alarm s :
  buzzerON (command_L s) = buzzerON s /\ oneMinute (command_L s) = oneMinute s
  /\ tones (command_L s) = tones s.
Proof. unfold command_L. repeat apply conj; [frame buzzerON | frame oneMinute | silent]. Qed.

Lemma command_H_alarm s :
  buzzerON (command_H s) = buzzerON s /\ oneMinute (command_H s) = oneMinute s
  /\ tones (command_H s) = tones s.
Proof. unfold command_H. repeat apply conj; [frame buzzerON | frame oneMinute | silent]. Qed.

Lemma command_alarm s s' :
  command s = Ok s' ->
  buzzerON s' = buzzerON s /\ oneMinute s' = oneMinute s /\ tones s' = tones s.
Proof.
  unfold command, command_B, store_Vcalibration. intros H.
  repeat case_match; simplify_eq;
    first [ apply command_L_alarm | apply command_H_alarm
          | match goal with |- context [EEPROM_Get ?x] =>
              destruct (EEPROM_Get_alarm x) as (-> & -> & ->) end
          | match goal with |- context [EEPROM_Update ?x] =>
              destruct (EEPROM_Update_alarm x) as (-> & -> & ->) end
          | idtac ];
    (split; [frame buzzerON | split; [frame oneMinute | silent]]).
Qed.

Lemma serialEvent_alarm incoming s s' :
  serialEvent incoming s = Ok s' ->
  buzzerON s' = buzzerON s /\ oneMinute s' = oneMinute s /\ tones s' = tones s.
Proof.
  unfold serialEvent, store_consoleInput, bind. intros H.
  repeat case_match; simplify_eq;
    try (apply command_alarm in H; destruct H as (-> & -> & ->));
    (split; [frame buzzerON | split; [frame oneMinute | silent]]).
Qed.

Lemma setup_alarm inp eeprom :
  buzzerON (setup inp (power_on eeprom)) = false /\ tones (setup inp (power_on eeprom)) = 0%nat.
Proof.
  unfold setup.
  match goal with |- context [RotactorConfig inp ?x] =>
    destruct (RotactorConfig_alarm inp x) as (Hb & _ & Ht & _); revert Hb Ht;
    assert (Hx : buzzerON x = false /\ tones x = 0%nat);
    [|generalize dependent x]
  end.
  - destruct FIRST_USE;
      [ match goal with |- context [EEPROM_Update ?x] =>
          destruct (EEPROM_Update_alarm x) as (-> & _ & ->) end
      | match goal with |- context [EEPROM_Get ?x] =>
          destruct (EEPROM_Get_alarm x) as (-> & _ & ->) end ];
      (split; [frame buzzerON | silent]).
  - intros x [Hb0 Ht0] Hb Ht. split.
    + change (buzzerON (emit ?e ?y)) with (buzzerON y). rewrite Hb. exact Hb0.
    + rewrite tones_emit, Ht, Ht0. reflexivity.
Qed.

Lemma reachable_alarm s :
  reachable s -> buzzerON s = true \/ (0 < tones s)%nat -> oneMinute s = true.
Proof.
  induction 1 as [eeprom inp | s s' _ IH Hstep].
  - destruct (setup_alarm inp eeprom) as [Hb Ht]. rewrite Hb, Ht.
    intros [H | H]; [discriminate | lia].
  - destruct Hstep as [inp s | incoming s s' Hev].
    + destruct (loop_alarm inp s) as (Hone & Hkeep & Hraise & Htones).
      cbv zeta in Hone, Hkeep, Hraise, Htones.
      assert (Hon : buzzerON (loop inp s) = true -> oneMinute (loop inp s) = true).
      { intros Hb. apply Hone. destruct (Hraise Hb) as [Hold | (_ & Hmin & _)]; [|exact Hmin].
        apply IH. left. destruct (runOnce s); [discriminate | exact Hold]. }
      intros [Hb | Ht]; [exact (Hon Hb)|].
      rewrite Htones in Ht.
      destruct (evaluates inp s && buzzerON (loop inp s)) eqn:Hsound.
      * apply andb_true_iff in Hsound as [_ Hb]. exact (Hon Hb).
      * apply Hone, IH. right. lia.
    + destruct (serialEvent_alarm _ _ _ Hev) as (Hb & Ho & Ht). rewrite Hb, Ho, Ht. exact IH.
Qed.

(** C3, as stated, fails.  In the state [alarmed] the alarm is on and the
    run-once block is over.  The pass at 65 s then resolves 3.91 V on every
    cell, between the Li-ion Vmin and Vmax, and reaches the one-second
    evaluation; the buzzer sounds once more and the alarm stays on. *)
Lemma alarm_survives_recovery :
  (let inp := pass 65000 healthy_readings true in
   buzzerON alarmed = true /\ runOnce alarmed = false
   /\ evaluates inp alarmed = true
   /\ cells_healthy (loop inp alarmed) = true
   /\ tones (loop inp alarmed) = S (tones alarmed)
   /\ buzzerON (loop inp alarmed) = true)
  /\ ~ alarm_clears_on_recovery.
Proof.
  assert (Hc : let inp := pass 65000 healthy_readings true in
               buzzerON alarmed = true /\ runOnce alarmed = false
               /\ evaluates inp alarmed = true
               /\ cells_healthy (loop inp alarmed) = true
               /\ tones (loop inp alarmed) = S (tones alarmed)
               /\ buzzerON (loop inp alarmed) = true).
  { vm_compute. repeat apply conj; reflexivity. }
  split; [exact Hc|].
  intros H. destruct Hc as (_ & _ & Hev & Hok & _ & Hon).
  rewrite (H (pass 65000 healthy_readings true) alarmed) in Hon; [discriminate| |exact Hev|exact Hok].
  apply reachable_run, reachable_setup.
Qed.

(** *** When the run-once block is entered *)

Lemma run_once_block_runOnce tempo s :
  runOnce (run_once_block tempo s) = runOnce s && negb (counter s >? 5).
Proof.
  unfold run_once_block. destruct (runOnce s) eqn:Hr; [|exact Hr].
  cbv zeta.
  rewrite (for_up_frame counter) by reflexivity.
  change (counter (set_buzzerON false s)) with (counter s).
  destruct (counter s >? 5); [reflexivity|].
  case_match; frame runOnce; exact Hr.
Qed.

Lemma remembered_ext s s' :
  memo_Urc s' = memo_Urc s -> memo_Drc s' = memo_Drc s -> memo_Crc s' = memo_Crc s ->
  remembered s' = remembered s.
Proof. unfold remembered. intros -> -> ->. reflexivity. Qed.

Lemma measuring_selector inp tempo s :
  let s3 := define_pwm (read_analog_values inp (run_once_block tempo s)) in
  runOnce s3 = runOnce s && negb (counter s >? 5)
  /\ remembered s3 = remembered s /\ memo_tempo_tendancy s3 = memo_tempo_tendancy s
  /\ memo_tempo s3 = memo_tempo s /\ analogReadsCount s3 = analogReadsCount s.
Proof.
  intros s3; subst s3. rewrite <- (run_once_block_runOnce tempo s).
  repeat apply conj.
  - unfold define_pwm, read_analog_values. frame runOnce.
  - apply remembered_ext; unfold define_pwm, read_analog_values, run_once_block.
    + frame memo_Urc.
    + frame memo_Drc.
    + frame memo_Crc.
  - unfold define_pwm, read_analog_values, run_once_block. frame memo_tempo_tendancy.
  - unfold define_pwm, read_analog_values, run_once_block. frame memo_tempo.
  - unfold define_pwm, read_analog_values, run_once_block. frame analogReadsCount.
Qed.

Lemma calculate_voltages_selector s :
  let s' := calculate_voltages s in
  runOnce s' = runOnce s /\ remembered s' = remembered s
  /\ memo_tempo_tendancy s' = memo_tempo_tendancy s /\ memo_tempo s' = memo_tempo s.
Proof.
  intros s'; subst s'. unfold calculate_voltages, get_cell_voltages, for_down.
  repeat apply conj.
  - frame runOnce.
  - apply remembered_ext; [frame memo_Urc | frame memo_Drc | frame memo_Crc].
  - frame memo_tempo_tendancy.
  - frame memo_tempo.
Qed.

Lemma check_balancing_selector s :
  let s' := check_balancing s in
  runOnce s' = runOnce s /\ remembered s' = remembered s
  /\ memo_tempo_tendancy s' = memo_tempo_tendancy s.
Proof.
  intros s'; subst s'. unfold check_balancing.
  repeat apply conj.
  - frame runOnce.
  - apply remembered_ext; [frame memo_Urc | frame memo_Drc | frame memo_Crc].
  - frame memo_tempo_tendancy.
Qed.

Lemma RotactorConfig_memo_tempo_tendancy inp s :
  memo_tempo_tendancy (RotactorConfig inp s) = memo_tempo_tendancy s.
Proof. unfold RotactorConfig. frame memo_tempo_tendancy. Qed.

Lemma every_minute_runOnce tempo s :
  runOnce (every_minute tempo s)
  = if Int.u32 (tempo - memo_tempo_tendancy s) <? 60000 then runOnce s else true.
Proof. unfold every_minute. case_match; reflexivity. Qed.

(** The flag [runOnce] at the end of the one-second block. *)
Lemma every_second_runOnce inp tempo s :
  runOnce (every_second inp tempo s)
  = if Int.u32 (tempo - memo_tempo s) <? 1000 then runOnce s
    else if Int.u32 (tempo - memo_tempo_tendancy s) <? 60000
         then (if decide (selector inp = remembered s) then runOnce s else true)
         else true.
Proof.
  unfold every_second. destruct (Int.u32 (tempo - memo_tempo s) <? 1000); [reflexivity|].
  cbv zeta. rewrite every_minute_runOnce.
  unfold emit. cbn [memo_tempo_tendancy runOnce set_output].
  rewrite RotactorConfig_memo_tempo_tendancy, RotactorConfig_runOnce.
  destruct (check_balancing_selector (set_memo_tempo tempo s)) as (-> & -> & ->).
  reflexivity.
Qed.

(** The flag [runOnce] at the end of a pass: the run-once block clears it
    once six pulses are counted; the one-second block sets it when a minute
    has elapsed or the selector has moved. *)
Lemma loop_runOnce inp s :
  runOnce (loop inp s)
  = let pending := runOnce s && negb (counter s >? 5) in
    if evaluates inp s then
      if Int.u32 (Int.u32 (millis inp) - memo_tempo_tendancy s) <? 60000
      then (if decide (selector inp = remembered s) then pending else true)
      else true
    else pending.
Proof.
  unfold loop, evaluates. cbv zeta.
  generalize (Int.u32 (millis inp)). intros tempo.
  destruct (measuring_selector inp tempo s) as (Hr & Hs & Ht & Hm & Hc).
  revert Hr Hs Ht Hm Hc.
  generalize (define_pwm (read_analog_values inp (run_once_block tempo s))).
  intros s3 Hr Hs Ht Hm Hc.
  change (analogReadsCount (set_analogReadsCount ?c ?x)) with c.
  rewrite Hc, Z.gtb_ltb, (Z.leb_antisym 100).
  destruct (100 <? Int.u16 (analogReadsCount s + 1)); unfold negb at 1, andb at 1; cbv beta iota.
  { exact Hr. }
  destruct (calculate_voltages_selector
              (set_analogReadsCount (Int.u16 (analogReadsCount s + 1)) s3))
    as (Hr5 & Hs5 & Ht5 & Hm5).
  revert Hr5 Hs5 Ht5 Hm5.
  generalize (calculate_voltages (set_analogReadsCount (Int.u16 (analogReadsCount s + 1)) s3)).
  intros s5 Hr5 Hs5 Ht5 Hm5.
  rewrite every_second_runOnce, Hr5, Hs5, Ht5, Hm5.
  change (runOnce (set_analogReadsCount ?c ?x)) with (runOnce x).
  change (remembered (set_analogReadsCount ?c ?x)) with (remembered x).
  change (memo_tempo_tendancy (set_analogReadsCount ?c ?x)) with (memo_tempo_tendancy x).
  change (memo_tempo (set_analogReadsCount ?c ?x)) with (memo_tempo x).
  rewrite Hr, Hs, Ht, Hm, (Z.leb_antisym _ 1000).
  destruct (Int.u32 (tempo - memo_tempo s) <? 1000); reflexivity.
Qed.

Lemma serialEvent_runOnce incoming s s' :
  serialEvent incoming s = Ok s' -> runOnce s' = runOnce s.
Proof.
  unfold serialEvent, command, command_B, store_consoleInput, store_Vcalibration, bind.
  intros H.
  repeat case_match; simplify_eq;
    unfold command_L, command_H, EEPROM_Get, EEPROM_Update, EEPROM_write; frame runOnce.
Qed.

(** C3, amended.  The buzzer sounds, and the alarm flag is set, only once
    the first-full-minute flag is set.  A pass sounds the buzzer exactly
    when it reaches its one-second evaluation with the alarm flag set.  The
    flag is latched: a pass that starts with [runOnce] clear never clears
    it, whatever the cell voltages, and no console byte changes it.  A
    pass that starts with [runOnce] set runs the run-once block, which
    clears the alarm first of all; at the end of such a pass, or of a pass
    that started with the alarm off, the alarm is on only if that pass
    reached its one-second evaluation after the first minute and found a
    cell under Vmin.  The run-once block is entered after every elapsed
    minute and after every selector change: a pass that reaches its
    one-second evaluation 60 s or more after the last minute mark, or with
    selector lines that differ from the remembered ones, ends with
    [runOnce] set; a pass that starts with [runOnce] clear sets it in
    these two cases only, and no console byte changes it. *)
Theorem alarm_latched_until_run_once :
  (forall s, reachable s -> buzzerON s = true \/ (0 < tones s)%nat -> oneMinute s = true)
  /\ (forall inp s,
        tones (loop inp s)
        = (tones s + (if evaluates inp s && buzzerON (loop inp s) then 1 else 0))%nat)
  /\ (forall inp s, runOnce s = false -> buzzerON s = true -> buzzerON (loop inp s) = true)
  /\ (forall inp s, runOnce s = true \/ buzzerON s = false ->
        buzzerON (loop inp s) = true ->
        evaluates inp s = true /\ oneMinute s = true
        /\ undervoltage_found s (Vcell (loop inp s)))
  /\ (forall tempo s, runOnce s = true -> buzzerON (run_once_block tempo s) = false)
  /\ (forall inp s, evaluates inp s = true ->
        60000 <= Int.u32 (Int.u32 (millis inp) - memo_tempo_tendancy s) ->
        runOnce (loop inp s) = true)
  /\ (forall inp s, evaluates inp s = true -> selector inp <> remembered s ->
        runOnce (loop inp s) = true)
  /\ (forall inp s, runOnce s = false -> runOnce (loop inp s) = true ->
        evaluates inp s = true
        /\ (60000 <= Int.u32 (Int.u32 (millis inp) - memo_tempo_tendancy s)
            \/ selector inp <> remembered s))
  /\ (forall incoming s s', serialEvent incoming s = Ok s' ->
        runOnce s' = runOnce s /\ buzzerON s' = buzzerON s).
Proof.
  split; [exact reachable_alarm|].
  split; [|split; [|split; [|split; [|split; [|split; [|split]]]]]].
  - intros inp s. apply (loop_alarm inp s).
  - intros inp s Hrun Hon. apply (loop_alarm inp s). rewrite Hrun. exact Hon.
  - intros inp s Hoff Hon.
    destruct (proj1 (proj2 (proj2 (loop_alarm inp s))) Hon) as [Hold | Hnew]; [|exact Hnew].
    destruct Hoff as [Hrun | Hb]; [rewrite Hrun in Hold | rewrite Hb in Hold].
    + discriminate.
    + destruct (runOnce s); discriminate.
  - intros tempo s Hrun. rewrite (proj1 (run_once_block_alarm tempo s)), Hrun. reflexivity.
  - intros inp s Hev Hmin. rewrite loop_runOnce. cbv zeta. rewrite Hev.
    destruct (Z.ltb_spec (Int.u32 (Int.u32 (millis inp) - memo_tempo_tendancy s)) 60000);
      [lia | reflexivity].
  - intros inp s Hev Hsel. rewrite loop_runOnce. cbv zeta. rewrite Hev.
    destruct (Int.u32 (Int.u32 (millis inp) - memo_tempo_tendancy s) <? 60000);
      [|reflexivity].
    destruct (decide (selector inp = remembered s)); [contradiction | reflexivity].
  - intros inp s Hrun Hset. rewrite loop_runOnce in Hset. cbv zeta in Hset.
    rewrite Hrun in Hset. cbn [andb] in Hset.
    destruct (evaluates inp s); [|discriminate Hset]. split; [reflexivity|].
    destruct (Z.ltb_spec (Int.u32 (Int.u32 (millis inp) - memo_tempo_tendancy s)) 60000);
      [|left; assumption].
    destruct (decide (selector inp = remembered s)); [discriminate Hset | right; assumption].
  - intros incoming s s' Hev. split.
    + exact (serialEvent_runOnce _ _ _ Hev).
    + exact (proj1 (serialEvent_alarm _ _ _ Hev)).
Qed.

(** The latch at work on the state [alarmed], with the healthy readings of
    the pass at 65 s; a pass at 120 s, one minute after the last minute
    mark, sets [runOnce]. *)
Lemma alarm_latched_until_run_once_witness :
  oneMinute alarmed = true
  /\ buzzerON (loop (pass 65000 healthy_readings true) alarmed) = true
  /\ runOnce (loop (pass 120000 healthy_readings true) alarmed) = true.
Proof.
  destruct alarm_latched_until_run_once as (Hmin & _ & Hlatch & _ & _ & Hminute & _).
  split; [|split].
  - apply Hmin.
    + apply reachable_run, reachable_setup.
    + left. vm_compute. reflexivity.
  - apply Hlatch; vm_compute; reflexivity.
  - apply Hminute; [vm_compute; reflexivity | vm_compute; congruence].
Defined.

(** ** Rounding of binary32 subtraction *)

(** *** Shifting a mantissa right, one bit at a time *)
Lemma iter_pos_nat {A : Type} (f : A -> A) (p : positive) (x : A) :
  SpecFloat.iter_pos f p x = Nat.iter (Pos.to_nat p) f x.
Proof.
  revert x. induction p as [p IH|p IH|]; intros x.
  - rewrite Pos2Nat.inj_xI. cbn [SpecFloat.iter_pos]. rewrite !IH.
    rewrite <- Nat.iter_succ_r, <- Nat.iter_add. f_equal. lia.
  - rewrite Pos2Nat.inj_xO. cbn [SpecFloat.iter_pos]. rewrite !IH.
    rewrite <- Nat.iter_add. f_equal. lia.
  - reflexivity.
Qed.

Lemma shr_1_nonneg (m : Z) (r s : bool) :
  0 <= m ->
  shr_1 {| shr_m := m; shr_r := r; shr_s := s |}
  = {| shr_m := m / 2; shr_r := Z.odd m; shr_s := r || s |}.
Proof.
  intros Hm. rewrite <- Z.div2_div.
  destruct m as [|p|p]; [reflexivity| |lia].
  destruct p; reflexivity.
Qed.

Lemma shr_iter (k : nat) (M : Z) :
  0 <= M ->
  Nat.iter (S k) shr_1 {| shr_m := M; shr_r := false; shr_s := false |}
  = {| shr_m := M / 2 ^ Z.of_nat (S k);
       shr_r := Z.odd (M / 2 ^ Z.of_nat k);
       shr_s := negb (M mod 2 ^ Z.of_nat k =? 0) |}.
Proof.
  intros HM. induction k as [|k IH].
  - change (Nat.iter 1 shr_1 ?x) with (shr_1 x). rewrite shr_1_nonneg by exact HM.
    change (2 ^ Z.of_nat 1) with 2. change (2 ^ Z.of_nat 0) with 1.
    rewrite Z.div_1_r, Z.mod_1_r. reflexivity.
  - rewrite Nat.iter_succ, IH.
    assert (Hp : 0 < 2 ^ Z.of_nat k) by (apply Z.pow_pos_nonneg; lia).
    rewrite shr_1_nonneg by (apply Z.div_pos; [lia | apply Z.pow_pos_nonneg; lia]).
    f_equal.
    + rewrite Z.div_div by lia.
      rewrite (Nat2Z.inj_succ (S k)), Z.pow_succ_r by lia. f_equal. lia.
    + rewrite (Nat2Z.inj_succ k), Z.pow_succ_r by lia.
      rewrite (Z.mul_comm 2), Z.rem_mul_r by lia.
      pose proof (Z.mod_pos_bound M (2 ^ Z.of_nat k) Hp) as Hlow.
      rewrite (Zmod_odd (M / 2 ^ Z.of_nat k)).
      destruct (Z.odd (M / 2 ^ Z.of_nat k)); simpl.
      * symmetry. apply negb_true_iff, Z.eqb_neq. lia.
      * rewrite Z.mul_0_r, Z.add_0_r. reflexivity.
Qed.

Lemma digits2_pos_bounds (p : positive) :
  2 ^ (Z.pos (digits2_pos p) - 1) <= Z.pos p < 2 ^ Z.pos (digits2_pos p).
Proof.
  induction p as [p IH|p IH|]; cbn [digits2_pos].
  - rewrite Pos2Z.inj_succ. replace (Z.succ (Z.pos (digits2_pos p)) - 1)
      with (Z.succ (Z.pos (digits2_pos p) - 1)) by lia.
    rewrite !Z.pow_succ_r by lia. lia.
  - rewrite Pos2Z.inj_succ. replace (Z.succ (Z.pos (digits2_pos p)) - 1)
      with (Z.succ (Z.pos (digits2_pos p) - 1)) by lia.
    rewrite !Z.pow_succ_r by lia. lia.
  - simpl. lia.
Qed.

Lemma digits2_pos_unique (p : positive) (d : Z) :
  2 ^ (d - 1) <= Z.pos p < 2 ^ d -> Z.pos (digits2_pos p) = d.
Proof.
  intros [Hlo Hhi]. pose proof (digits2_pos_bounds p) as [Hlo' Hhi'].
  destruct (Z.lt_trichotomy (Z.pos (digits2_pos p)) d) as [Hlt | [Heq | Hgt]]; [|exact Heq|].
  - pose proof (Z.pow_le_mono_r 2 (Z.pos (digits2_pos p)) (d - 1)). lia.
  - assert (0 <= d).
    { destruct (Z.le_gt_cases 0 d); [assumption|].
      rewrite (Z.pow_neg_r 2 d) in Hhi by lia. lia. }
    pose proof (Z.pow_le_mono_r 2 d (Z.pos (digits2_pos p) - 1)). lia.
Qed.

Lemma shift_pos_mul (m d : positive) : Z.pos (Pos.iter xO m d) = Z.pos m * 2 ^ Z.pos d.
Proof.
  induction d as [|d IH] using Pos.peano_ind.
  - simpl. lia.
  - rewrite Pos.iter_succ, Pos2Z.inj_succ, Z.pow_succ_r by lia.
    rewrite Pos2Z.inj_xO, IH. lia.
Qed.

(** Rounding to nearest of [M / 2^(k+1)], from the record that [k+1]
    one-bit shifts leave. *)
Lemma round_nearest_even_shift (M : Z) (k : nat) :
  0 <= M ->
  let mrs := Nat.iter (S k) shr_1 {| shr_m := M; shr_r := false; shr_s := false |} in
  let m' := round_nearest_even (shr_m mrs) (loc_of_shr_record mrs) in
  M / 2 ^ Z.of_nat (S k) <= m' <= M / 2 ^ Z.of_nat (S k) + 1
  /\ 2 * Z.abs (m' * 2 ^ Z.of_nat (S k) - M) <= 2 ^ Z.of_nat (S k).
Proof.
  intros HM mrs m'. subst m' mrs. rewrite shr_iter by exact HM.
  cbn [shr_m loc_of_shr_record].
  rewrite Nat2Z.inj_succ, Z.pow_succ_r by lia.
  set (P := 2 ^ Z.of_nat k).
  assert (HP : 0 < P) by (apply Z.pow_pos_nonneg; lia).
  pose proof (Z.div_mod M P ltac:(lia)) as HMP.
  pose proof (Z.mod_pos_bound M P HP) as Hlow.
  pose proof (Z.div_mod (M / P) 2 ltac:(lia)) as Hq.
  rewrite (Zmod_odd (M / P)) in Hq.
  replace (M / (2 * P)) with (M / P / 2) by (rewrite Z.div_div by lia; f_equal; lia).
  set (q := M / P / 2) in *. set (h := M / P) in *. set (low := M mod P) in *.
  destruct (Z.odd h); destruct (Z.eqb_spec low 0) as [Hz|Hz];
    cbn [negb round_nearest_even]; try destruct (Z.even q); nia.
Qed.

Lemma fexp_32 (x : Z) : fexp 24 128 x = Z.max (x - 24) (-149).
Proof. reflexivity. Qed.

(** A mantissa that is already canonical goes through unchanged. *)
Lemma binary_round_aux_canonical (s : bool) (m : positive) (e : Z) :
  Z.max (Z.pos (digits2_pos m) + e - 24) (-149) = e -> e <= 104 ->
  binary_round_aux 24 128 s (Z.pos m) e loc_Exact = S754_finite s m e.
Proof.
  intros Hcan He.
  unfold binary_round_aux, shr_fexp. rewrite fexp_32. cbn [Zdigits2].
  rewrite Hcan, Z.sub_diag. cbn [shr shr_record_of_loc shr_m loc_of_shr_record round_nearest_even].
  cbn [Zdigits2]. rewrite fexp_32, Hcan, Z.sub_diag. cbn [shr shr_m].
  replace (e <=? 128 - 24) with true by (symmetry; apply Z.leb_le; lia).
  reflexivity.
Qed.

(** A mantissa of more than 24 bits is shifted right and rounded to nearest;
    the result is within half a unit of the last kept bit.  In the largest
    binade the mantissa must not round up past [2^24 - 1], which would
    overflow. *)
Lemma binary_round_aux_long (s : bool) (m : positive) (e : Z) :
  24 < Z.pos (digits2_pos m) -> -149 <= e -> Z.pos (digits2_pos m) + e <= 128 ->
  (Z.pos (digits2_pos m) + e = 128 ->
   Z.pos m <= 16777215 * 2 ^ (Z.pos (digits2_pos m) - 24)) ->
  exists (m' : positive) (k : Z),
    binary_round_aux 24 128 s (Z.pos m) e loc_Exact = S754_finite s m' (e + k)
    /\ 0 <= k
    /\ 2 ^ 24 * Z.abs (Z.pos m' * 2 ^ k - Z.pos m) <= Z.pos m.
Proof.
  intros Hd He Hmax Htop. set (d := Z.pos (digits2_pos m)) in *.
  pose proof (digits2_pos_bounds m) as [Hlo Hhi]. fold d in Hlo, Hhi.
  unfold binary_round_aux, shr_fexp. rewrite fexp_32. cbn [Zdigits2]. fold d.
  replace (Z.max (d + e - 24) (-149) - e) with (d - 24) by lia.
  destruct (d - 24) as [|n|n] eqn:Hn; try lia.
  cbn [shr shr_record_of_loc]. rewrite iter_pos_nat.
  destruct (Pos2Nat.is_succ n) as [k Hk]. rewrite Hk.
  assert (Hnk : Z.pos n = Z.of_nat (S k)) by lia.
  pose proof (round_nearest_even_shift (Z.pos m) k ltac:(lia)) as Hround.
  cbv zeta in Hround. rewrite <- Hnk in Hround.
  set (mrs := Nat.iter (S k) shr_1 _) in *.
  set (m1 := round_nearest_even (shr_m mrs) (loc_of_shr_record mrs)) in *.
  destruct Hround as [[Hq1 Hq2] Herr].
  assert (Hpn : 0 < 2 ^ Z.pos n) by (apply Z.pow_pos_nonneg; lia).
  assert (Hsplit : 2 ^ d = 2 ^ 24 * 2 ^ Z.pos n).
  { rewrite <- Z.pow_add_r by lia. f_equal. lia. }
  assert (Hsplit' : 2 ^ (d - 1) = 2 ^ 23 * 2 ^ Z.pos n).
  { rewrite <- Z.pow_add_r by lia. f_equal. lia. }
  assert (Hqlo : 2 ^ 23 <= Z.pos m / 2 ^ Z.pos n).
  { apply Z.div_le_lower_bound; lia. }
  assert (Hqhi : Z.pos m / 2 ^ Z.pos n < 2 ^ 24).
  { apply Z.div_lt_upper_bound; lia. }
  assert (Hm1 : 2 ^ 23 <= m1 <= 2 ^ 24) by lia.
  destruct m1 as [|p1|p1] eqn:Hp1; try lia.
  change (2 ^ 24) with 16777216 in *. change (2 ^ 23) with 8388608 in *.
  destruct (Pos.eq_dec p1 16777216%positive) as [Hcarry | Hnocarry].
  - (* the rounding carried to 2^24: one more shift, which is exact *)
    subst p1.
    assert (Hroom : d + e <= 127).
    { destruct (Z.eq_dec (d + e) 128) as [Heq|]; [|lia].
      specialize (Htop Heq). nia. }
    exists 8388608%positive, (Z.pos n + 1). split; [|split].
    + cbn [Zdigits2]. change (digits2_pos 16777216) with 25%positive. rewrite fexp_32.
      replace (Z.max (25 + (e + Z.pos n) - 24) (-149) - (e + Z.pos n)) with 1 by lia.
      cbn [shr shr_record_of_loc SpecFloat.iter_pos shr_1 shr_m].
      replace (e + Z.pos n + 1 <=? 128 - 24) with true by (symmetry; apply Z.leb_le; lia).
      f_equal. lia.
    + lia.
    + rewrite Z.pow_add_r by lia. change (2 ^ 1) with 2. lia.
  - exists p1, (Z.pos n). split; [|split].
    + assert (Hd1 : Z.pos (digits2_pos p1) = 24).
      { apply digits2_pos_unique. change (2 ^ (24 - 1)) with 8388608.
        change (2 ^ 24) with 16777216. lia. }
      cbn [Zdigits2]. rewrite fexp_32, Hd1.
      replace (Z.max (24 + (e + Z.pos n) - 24) (-149) - (e + Z.pos n)) with 0 by lia.
      cbn [shr shr_record_of_loc shr_m].
      replace (e + Z.pos n <=? 128 - 24) with true by (symmetry; apply Z.leb_le; lia).
      reflexivity.
    + lia.
    + lia.
Qed.

Lemma shl_align_lower (m : positive) (e e' : Z) :
  e' < e ->
  exists mz, shl_align m e e' = (mz, e') /\ Z.pos mz = Z.pos m * 2 ^ (e - e').
Proof.
  intros H. unfold shl_align. destruct (e' - e) as [|d|d] eqn:Hd; try lia.
  eexists. split; [reflexivity|]. rewrite shift_pos_mul. f_equal. f_equal. lia.
Qed.

Lemma shl_align_same (m : positive) (e e' : Z) : e <= e' -> shl_align m e e' = (m, e).
Proof. intros H. unfold shl_align. destruct (e' - e) eqn:Hd; try lia; reflexivity. Qed.

(** [binary_round] on a mantissa [m] and an exponent [e] not below the
    smallest one, with [m * 2^e] not above the largest binary32: the result
    is a finite number, equal to [m * 2^e] when [m] has at most 24 bits and
    within a relative error of [2^-24] of it otherwise. *)
Lemma binary_round_spec (s : bool) (m : positive) (e : Z) :
  -149 <= e -> Z.pos (digits2_pos m) + e <= 128 ->
  (Z.pos (digits2_pos m) + e = 128 -> 24 < Z.pos (digits2_pos m) ->
   Z.pos m <= 16777215 * 2 ^ (Z.pos (digits2_pos m) - 24)) ->
  exists (m' : positive) (e' : Z),
    binary_round 24 128 s m e = S754_finite s m' e'
    /\ ((exists j, 0 <= j /\ e = e' + j /\ Z.pos m' = Z.pos m * 2 ^ j)
        \/ (exists k, 0 <= k /\ e' = e + k
                      /\ 2 ^ 24 * Z.abs (Z.pos m' * 2 ^ k - Z.pos m) <= Z.pos m)).
Proof.
  intros He Hmax Htop. unfold binary_round. rewrite fexp_32.
  set (d := Z.pos (digits2_pos m)) in *.
  pose proof (digits2_pos_bounds m) as [Hlo Hhi]. fold d in Hlo, Hhi.
  destruct (Z.lt_trichotomy (Z.max (d + e - 24) (-149)) e) as [Hlt | [Heq | Hgt]].
  - destruct (shl_align_lower m e _ Hlt) as (mz & -> & Hmz).
    set (f := Z.max (d + e - 24) (-149)) in *.
    assert (Hpj : 0 < 2 ^ (e - f)) by (apply Z.pow_pos_nonneg; lia).
    assert (Hdz : Z.pos (digits2_pos mz) = d + (e - f)).
    { apply digits2_pos_unique. rewrite Hmz.
      replace (d + (e - f) - 1) with ((d - 1) + (e - f)) by lia.
      rewrite !Z.pow_add_r by lia. nia. }
    exists mz, f. split.
    + apply binary_round_aux_canonical; [rewrite Hdz|]; lia.
    + left. exists (e - f). repeat split; [lia | lia | exact Hmz].
  - rewrite shl_align_same by lia. exists m, e. split.
    + apply binary_round_aux_canonical; fold d; lia.
    + left. exists 0. repeat split; [lia | lia | simpl; lia].
  - rewrite shl_align_same by lia.
    destruct (binary_round_aux_long s m e) as (m' & k & Hr & Hk & Herr);
      [fold d; lia | lia | fold d; lia | fold d; intros; apply Htop; lia |].
    exists m', (e + k). split; [exact Hr|]. right. exists k. auto.
Qed.

(** *** Floats as rationals *)

Lemma Qpower2_pos (e : Z) : (0 < 2 ^ e)%Q.
Proof. apply Qpower_0_lt. reflexivity. Qed.

Lemma Qpower2_inject (k : Z) : 0 <= k -> (inject_Z (2 ^ k) == 2 ^ k)%Q.
Proof. intros Hk. apply (Zpower_Qpower 2 k Hk). Qed.

Lemma Qpower2_add (a b : Z) : (2 ^ (a + b) == 2 ^ a * 2 ^ b)%Q.
Proof. apply Qpower_plus. discriminate. Qed.

Lemma to_Q_finite (s : bool) (m : positive) (e : Z) :
  (F32.to_Q (S754_finite s m e) == inject_Z (cond_Zopp s (Z.pos m)) * 2 ^ e)%Q.
Proof.
  unfold F32.to_Q. destruct e as [|p|p].
  - change (2 ^ 0)%Q with 1%Q. rewrite Qmult_1_r. reflexivity.
  - change (cond_Zopp s (Z.pos m) * 2 ^ Z.pos p # 1)%Q
      with (inject_Z (cond_Zopp s (Z.pos m) * 2 ^ Z.pos p)).
    rewrite inject_Z_mult, Qpower2_inject by lia. reflexivity.
  - rewrite Qmake_Qdiv. change (Z.neg p) with (- Z.pos p). rewrite Qpower_opp.
    rewrite <- Qpower2_inject by lia. rewrite Pos2Z.inj_pow. reflexivity.
Qed.

Lemma cond_Zopp_mul (s : bool) (a b : Z) : cond_Zopp s (a * b) = cond_Zopp s a * b.
Proof. destruct s; simpl; lia. Qed.

Lemma cond_Zopp_abs (s : bool) (a : Z) : Z.abs (cond_Zopp s a) = Z.abs a.
Proof. destruct s; simpl; lia. Qed.

(** The same number written with a lower exponent. *)
Lemma to_Q_align (s : bool) (m m' : positive) (e' j : Z) :
  0 <= j -> Z.pos m' = Z.pos m * 2 ^ j ->
  (F32.to_Q (S754_finite s m' e') == F32.to_Q (S754_finite s m (e' + j)))%Q.
Proof.
  intros Hj Hm. rewrite !to_Q_finite, Hm, cond_Zopp_mul, inject_Z_mult.
  rewrite Qpower2_add, Qpower2_inject by exact Hj. ring.
Qed.

(** A mantissa rounded at [k] bits above the exponent. *)
Lemma to_Q_rounded (s : bool) (m m' : positive) (e k : Z) :
  0 <= k -> 2 ^ 24 * Z.abs (Z.pos m' * 2 ^ k - Z.pos m) <= Z.pos m ->
  (Qabs (F32.to_Q (S754_finite s m' (e + k)) - F32.to_Q (S754_finite s m e))
   <= Qabs (F32.to_Q (S754_finite s m e)) * (1 # 16777216))%Q.
Proof.
  intros Hk Herr. rewrite !to_Q_finite, (Qpower2_add e k), <- (Qpower2_inject k Hk).
  pose proof (Qpower2_pos e) as HP. set (P := (2 ^ e)%Q) in *.
  setoid_replace (inject_Z (cond_Zopp s (Z.pos m')) * (P * inject_Z (2 ^ k))
                  - inject_Z (cond_Zopp s (Z.pos m)) * P)%Q
    with (inject_Z (cond_Zopp s (Z.pos m' * 2 ^ k - Z.pos m)) * P)%Q using relation Qeq.
  2:{ destruct s; cbn [cond_Zopp];
        rewrite ?inject_Z_opp, ?Z.opp_sub_distr; unfold Zminus;
        rewrite ?inject_Z_plus, ?inject_Z_opp, ?inject_Z_mult; ring. }
  rewrite !Qabs_Qmult, (Qabs_pos P) by (apply Qlt_le_weak, HP).
  setoid_replace (Qabs (inject_Z (cond_Zopp s (Z.pos m))) * P * (1 # 16777216))%Q
    with (Qabs (inject_Z (cond_Zopp s (Z.pos m))) * (1 # 16777216) * P)%Q
    using relation Qeq by ring.
  apply Qmult_le_compat_r; [|apply Qlt_le_weak, HP].
  unfold inject_Z. rewrite <- !Zabs_Qabs, !cond_Zopp_abs.
  unfold Qle, Qmult. cbn [Qnum Qden]. change (2 ^ 24) with 16777216 in Herr. lia.
Qed.

(** A magnitude not above the largest binary32 stays within the binades,
    and within the largest one its leading 24 bits are at most [2^24 - 1]. *)
Lemma digits_below_top (p : positive) (e : Z) :
  (inject_Z (Z.pos p) * 2 ^ e <= F32.to_Q F32.largest)%Q ->
  Z.pos (digits2_pos p) + e <= 128
  /\ (Z.pos (digits2_pos p) + e = 128 -> 24 < Z.pos (digits2_pos p) ->
      Z.pos p <= 16777215 * 2 ^ (Z.pos (digits2_pos p) - 24)).
Proof.
  intros H. pose proof (digits2_pos_bounds p) as [Hlo _].
  set (d := Z.pos (digits2_pos p)) in *.
  pose proof (Qpower2_pos e) as HP. split.
  - assert (Hpow : (2 ^ (d - 1 + e) < 2 ^ 128)%Q).
    { apply Qle_lt_trans with (F32.to_Q F32.largest); [|reflexivity].
      eapply Qle_trans; [|exact H].
      rewrite Qpower2_add, <- Qpower2_inject by lia.
      apply Qmult_le_compat_r; [|apply Qlt_le_weak, HP].
      rewrite <- Zle_Qle. exact Hlo. }
    apply Qpower_lt_compat_l_inv in Hpow; [lia | reflexivity].
  - intros Htop Hd. rewrite Zle_Qle, inject_Z_mult, Qpower2_inject by lia.
    apply (Qmult_le_r _ _ (2 ^ e)%Q HP).
    eapply Qle_trans; [exact H|].
    unfold F32.largest. rewrite to_Q_finite. cbn [cond_Zopp].
    replace 104 with (d - 24 + e) by lia. rewrite Qpower2_add, Qmult_assoc. apply Qle_refl.
Qed.

Lemma exact_within_tolerance (x y : Q) :
  (x == y)%Q -> (Qabs (x - y) <= Qabs y * (1 # 16777216))%Q.
Proof.
  intros H. apply Qabs_Qle_condition. pose proof (Qabs_nonneg y) as Hy.
  revert Hy. generalize (Qabs y). intros t Ht. split; lra.
Qed.

(** [binary_normalize] of the integer [D] at exponent [e]: exact when [D]
    is zero, rounded to nearest otherwise. *)
Lemma binary_normalize_error (D e : Z) :
  -149 <= e -> (Qabs (inject_Z D * 2 ^ e) <= F32.to_Q F32.largest)%Q ->
  F32.is_finite (binary_normalize 24 128 D e false) = true
  /\ (Qabs (F32.to_Q (binary_normalize 24 128 D e false) - inject_Z D * 2 ^ e)
      <= Qabs (inject_Z D * 2 ^ e) * (1 # 16777216))%Q.
Proof.
  intros He Hsmall.
  assert (Hround : forall (s : bool) (p : positive),
             D = cond_Zopp s (Z.pos p) ->
             F32.is_finite (binary_round 24 128 s p e) = true
             /\ (Qabs (F32.to_Q (binary_round 24 128 s p e) - inject_Z D * 2 ^ e)
                 <= Qabs (inject_Z D * 2 ^ e) * (1 # 16777216))%Q).
  { intros s p HD.
    assert (Hexact : (inject_Z D * 2 ^ e == F32.to_Q (S754_finite s p e))%Q)
      by (rewrite to_Q_finite, HD; reflexivity).
    destruct (digits_below_top p e) as [Hdig Htop].
    { setoid_replace (inject_Z (Z.pos p) * 2 ^ e)%Q with (Qabs (inject_Z D * 2 ^ e))
        using relation Qeq; [exact Hsmall|].
      rewrite Qabs_Qmult, (Qabs_pos (2 ^ e)) by (apply Qlt_le_weak, Qpower2_pos).
      unfold inject_Z. rewrite <- Zabs_Qabs, HD, cond_Zopp_abs. reflexivity. }
    destruct (binary_round_spec s p e He Hdig Htop) as (m' & e' & -> & Hval).
    split; [reflexivity|]. rewrite Hexact.
    destruct Hval as [(j & Hj & -> & Hm) | (k & Hk & -> & Herr)].
    - apply exact_within_tolerance, (to_Q_align s p m' e' j Hj Hm).
    - apply to_Q_rounded; assumption. }
  destruct D as [|p|p].
  - split; [reflexivity|]. apply exact_within_tolerance. cbn [binary_normalize F32.to_Q]. ring.
  - apply (Hround false p). reflexivity.
  - apply (Hround true p). reflexivity.
Qed.

Lemma valid_exponent (s : bool) (m : positive) (e : Z) :
  F32.valid (S754_finite s m e) = true -> -149 <= e.
Proof.
  unfold F32.valid, valid_binary, bounded, canonical_mantissa. rewrite fexp_32.
  intros H. apply andb_true_iff in H as [H _]. apply Z.eqb_eq in H. lia.
Qed.

(** A finite number brought to a lower exponent, as [SFsub] does. *)
Lemma to_Q_shl_align (s : bool) (m : positive) (e e' : Z) :
  e' <= e ->
  (F32.to_Q (S754_finite s m e)
   == inject_Z (cond_Zopp s (Z.pos (fst (shl_align m e e')))) * 2 ^ e')%Q.
Proof.
  intros H. destruct (Z.eq_dec e' e) as [-> | Hne].
  - rewrite shl_align_same by lia. apply to_Q_finite.
  - destruct (shl_align_lower m e e') as (mz & -> & Hmz); [lia|]. cbn [fst].
    rewrite <- to_Q_finite, (to_Q_align s m mz e' (e - e')) by (lia || exact Hmz).
    replace (e' + (e - e')) with e by lia. reflexivity.
Qed.

Lemma to_Q_negb (s : bool) (m : positive) (e : Z) :
  (F32.to_Q (S754_finite (negb s) m e) == - F32.to_Q (S754_finite s m e))%Q.
Proof.
  rewrite !to_Q_finite. destruct s; cbn [negb cond_Zopp];
    change (Z.neg m) with (- Z.pos m); rewrite inject_Z_opp; ring.
Qed.

(** The subtraction of two finite numbers whose difference is not above the
    largest binary32 is a finite number within a relative error of [2^-24]
    of the exact difference. *)
Lemma sub_error (a b : F32.float) :
  F32.valid a = true -> F32.valid b = true ->
  F32.is_finite a = true -> F32.is_finite b = true ->
  (Qabs (F32.to_Q a - F32.to_Q b) <= F32.to_Q F32.largest)%Q ->
  F32.is_finite (F32.sub a b) = true
  /\ (Qabs (F32.to_Q (F32.sub a b) - (F32.to_Q a - F32.to_Q b))
      <= Qabs (F32.to_Q a - F32.to_Q b) * (1 # 16777216))%Q.
Proof.
  intros Hva Hvb Hfa Hfb Hsmall.
  pose proof exact_within_tolerance as Hexact.
  destruct a as [sa| | |sa ma ea]; try discriminate;
    destruct b as [sb| | |sb mb eb]; try discriminate.
  - split; [destruct sa, sb; reflexivity|]. apply Hexact.
    destruct sa, sb; reflexivity.
  - split; [reflexivity|]. apply Hexact.
    change (F32.sub (S754_zero sa) (S754_finite sb mb eb)) with (S754_finite (negb sb) mb eb).
    rewrite to_Q_negb. change (F32.to_Q (S754_zero sa)) with 0%Q. ring.
  - split; [reflexivity|]. apply Hexact.
    change (F32.sub (S754_finite sa ma ea) (S754_zero sb)) with (S754_finite sa ma ea).
    change (F32.to_Q (S754_zero sb)) with 0%Q. ring.
  - apply valid_exponent in Hva, Hvb.
    unfold F32.sub, SFsub. fold F32.prec F32.emax.
    change F32.prec with 24. change F32.emax with 128.
    set (ez := Z.min ea eb).
    assert (Hdiff : (F32.to_Q (S754_finite sa ma ea) - F32.to_Q (S754_finite sb mb eb)
                     == inject_Z (cond_Zopp sa (Z.pos (fst (shl_align ma ea ez)))
                                  - cond_Zopp sb (Z.pos (fst (shl_align mb eb ez)))) * 2 ^ ez)%Q).
    { rewrite (to_Q_shl_align sa ma ea ez), (to_Q_shl_align sb mb eb ez) by (unfold ez; lia).
      unfold Z.sub. rewrite inject_Z_plus, inject_Z_opp. ring. }
    rewrite Hdiff in Hsmall |- *.
    apply binary_normalize_error; [unfold ez; lia | exact Hsmall].
Qed.

(** No finite binary32 is above the largest one. *)
Lemma well_formed_bound (x : F32.float) :
  well_formed x = true -> (Qabs (F32.to_Q x) <= F32.to_Q F32.largest)%Q.
Proof.
  intros H. apply andb_true_iff in H as [Hv Hf].
  destruct x as [s| | |s m e]; try discriminate Hf.
  - apply Qle_bool_iff. reflexivity.
  - unfold F32.valid, valid_binary, bounded, canonical_mantissa in Hv. rewrite fexp_32 in Hv.
    apply andb_true_iff in Hv as [Hcan He]. apply Z.eqb_eq in Hcan. apply Z.leb_le in He.
    pose proof (digits2_pos_bounds m) as [_ Hhi].
    assert (Hm : Z.pos m < 2 ^ 24).
    { eapply Z.lt_le_trans; [exact Hhi|]. apply Z.pow_le_mono_r; lia. }
    change (2 ^ 24) with 16777216 in Hm. change (F32.emax - F32.prec) with 104 in He.
    unfold F32.largest.
    rewrite !to_Q_finite, Qabs_Qmult, (Qabs_pos (2 ^ e)) by (apply Qlt_le_weak, Qpower2_pos).
    unfold inject_Z at 1. rewrite <- Zabs_Qabs, cond_Zopp_abs. cbn [cond_Zopp Z.abs].
    apply Qle_trans with (inject_Z 16777215 * 2 ^ e)%Q.
    + apply Qmult_le_compat_r; [|apply Qlt_le_weak, Qpower2_pos].
      change (Z.abs (Z.pos m) # 1) with (inject_Z (Z.pos m)). rewrite <- Zle_Qle. lia.
    + apply Qmult_le_l; [reflexivity|]. apply Qpower_le_compat_l; [lia | discriminate].
Qed.

Lemma get_cell_voltages_Vcell (s : state) (A0 A1 A2 A3 : F32.float) :
  Vcell s = [A0; A1; A2; A3] ->
  Vcell (get_cell_voltages s) = [A0; F32.sub A1 A0; F32.sub A2 A1; F32.sub A3 A2]
  /\ Valim (get_cell_voltages s) = A3.
Proof.
  intros H. unfold get_cell_voltages, for_down. simpl. rewrite H. simpl. split; reflexivity.
Qed.

(** The difference of two finite numbers [0 <= b <= a] never overflows. *)
Lemma difference_error (a b : F32.float) :
  well_formed a = true -> well_formed b = true ->
  (0 <= F32.to_Q b)%Q -> (F32.to_Q b <= F32.to_Q a)%Q ->
  F32.is_finite (F32.sub a b) = true
  /\ (- ((F32.to_Q a - F32.to_Q b) * (1 # 16777216))
      <= F32.to_Q (F32.sub a b) - (F32.to_Q a - F32.to_Q b)
      <= (F32.to_Q a - F32.to_Q b) * (1 # 16777216))%Q.
Proof.
  intros Ha Hb Hpos Hle.
  pose proof (well_formed_bound a Ha) as Hmax.
  apply andb_true_iff in Ha as [Hva Hfa]. apply andb_true_iff in Hb as [Hvb Hfb].
  assert (Habs : (Qabs (F32.to_Q a - F32.to_Q b) == F32.to_Q a - F32.to_Q b)%Q)
    by (apply Qabs_pos; lra).
  rewrite Qabs_pos in Hmax by lra.
  destruct (sub_error a b Hva Hvb Hfa Hfb) as [Hfin Herr].
  - rewrite Habs. lra.
  - split; [exact Hfin|]. rewrite Habs in Herr. apply Qabs_Qle_condition in Herr. exact Herr.
Qed.

(** C8. For four node voltages held in [Vcell], lines 201-204 leave [A0] in
    cell 0 and the binary32 difference [A[i] - A[i-1]] in cell [i] for
    i = 3, 2, 1, and set [Valim] to A3.  When the nodes are finite numbers
    with 0 <= A0 <= A1 <= A2 <= A3, the four cell voltages are finite and
    their exact sum is A3 within the rounding of the three subtractions: at
    most [2^-24] times the span A3 - A0. *)
Theorem cell_voltages_telescope (s : state) (A0 A1 A2 A3 : F32.float) :
  Vcell s = [A0; A1; A2; A3] ->
  Vcell (get_cell_voltages s) = [A0; F32.sub A1 A0; F32.sub A2 A1; F32.sub A3 A2]
  /\ Valim (get_cell_voltages s) = A3
  /\ (forallb well_formed [A0; A1; A2; A3] = true ->
      (0 <= F32.to_Q A0)%Q -> (F32.to_Q A0 <= F32.to_Q A1)%Q ->
      (F32.to_Q A1 <= F32.to_Q A2)%Q -> (F32.to_Q A2 <= F32.to_Q A3)%Q ->
      forallb F32.is_finite (Vcell (get_cell_voltages s)) = true
      /\ (Qabs (sum_of_cells (Vcell (get_cell_voltages s)) - F32.to_Q A3)
          <= (F32.to_Q A3 - F32.to_Q A0) * (1 # 16777216))%Q).
Proof.
  intros Hcells.
  destruct (get_cell_voltages_Vcell s A0 A1 A2 A3 Hcells) as [-> ->].
  split; [reflexivity|]. split; [reflexivity|].
  intros Hwf H0 H01 H12 H23.
  cbn [forallb] in Hwf. rewrite !andb_true_iff in Hwf.
  destruct Hwf as (Hw0 & Hw1 & Hw2 & Hw3 & _).
  destruct (difference_error A1 A0 Hw1 Hw0 H0 H01) as [Hf1 He1].
  destruct (difference_error A2 A1 Hw2 Hw1 ltac:(lra) H12) as [Hf2 He2].
  destruct (difference_error A3 A2 Hw3 Hw2 ltac:(lra) H23) as [Hf3 He3].
  split.
  - cbn [forallb]. rewrite Hf1, Hf2, Hf3.
    apply andb_true_iff in Hw0 as [_ ->]. reflexivity.
  - apply Qabs_Qle_condition. unfold sum_of_cells. cbn [foldr]. split; lra.
Qed.

(** The node voltages one sample of 800 counts gives on each channel:
    3.91 V, 7.82 V, 11.73 V and 15.64 V. *)
Lemma cell_voltages_telescope_witness :
  let A := map (node_voltage (F32.of_int 800) 1 (F32.of_int 1)) [0; 1; 2; 3]%nat in
  let s := set_Vcell A started in
  Valim (get_cell_voltages s) = A !!! 3%nat
  /\ (Qabs (sum_of_cells (Vcell (get_cell_voltages s)) - F32.to_Q (A !!! 3%nat))
      <= (F32.to_Q (A !!! 3%nat) - F32.to_Q (A !!! 0%nat)) * (1 # 16777216))%Q.
Proof.
  intros A s.
  destruct (cell_voltages_telescope s (A !!! 0%nat) (A !!! 1%nat) (A !!! 2%nat) (A !!! 3%nat))
    as (_ & Hv & Hsum); [reflexivity|].
  split; [exact Hv|]. apply Hsum.
  - vm_compute. reflexivity.
  - apply Qle_bool_iff. vm_compute. reflexivity.
  - apply Qle_bool_iff. vm_compute. reflexivity.
  - apply Qle_bool_iff. vm_compute. reflexivity.
  - apply Qle_bool_iff. vm_compute. reflexivity.
Defined.

(** ** The sampling window *)

Lemma calculate_voltages_window s :
  length (VcellCumul s) = 4%nat ->
  analogReadsCount (calculate_voltages s) = 0
  /\ VcellCumul (calculate_voltages s)
     = [F32.of_int 0; F32.of_int 0; F32.of_int 0; F32.of_int 0].
Proof.
  intros Hlen. destruct (VcellCumul s) as [|c0 [|c1 [|c2 [|c3 [|c4 rest]]]]] eqn:Hc;
    try discriminate Hlen.
  unfold calculate_voltages, get_cell_voltages, for_down, for_up. simpl.
  rewrite Hc. simpl. split; reflexivity.
Qed.

Lemma RotactorConfig_analogReadsCount inp s :
  analogReadsCount (RotactorConfig inp s) = analogReadsCount s.
Proof. unfold RotactorConfig. frame analogReadsCount. Qed.

Lemma RotactorConfig_VcellCumul inp s : VcellCumul (RotactorConfig inp s) = VcellCumul s.
Proof. unfold RotactorConfig. frame VcellCumul. Qed.

Lemma check_balancing_analogReadsCount s :
  analogReadsCount (check_balancing s) = analogReadsCount s.
Proof. unfold check_balancing. frame analogReadsCount. Qed.

Lemma check_balancing_VcellCumul s : VcellCumul (check_balancing s) = VcellCumul s.
Proof. unfold check_balancing. frame VcellCumul. Qed.

Lemma EEPROM_Get_analogReadsCount s : analogReadsCount (EEPROM_Get s) = analogReadsCount s.
Proof. unfold EEPROM_Get. frame analogReadsCount. Qed.

Lemma EEPROM_Get_VcellCumul s : VcellCumul (EEPROM_Get s) = VcellCumul s.
Proof. unfold EEPROM_Get. frame VcellCumul. Qed.

Lemma EEPROM_Update_analogReadsCount s :
  analogReadsCount (EEPROM_Update s) = analogReadsCount s.
Proof. unfold EEPROM_Update, EEPROM_write. frame analogReadsCount. Qed.

Lemma EEPROM_Update_VcellCumul s : VcellCumul (EEPROM_Update s) = VcellCumul s.
Proof. unfold EEPROM_Update, EEPROM_write. frame VcellCumul. Qed.

Lemma command_L_window s :
  analogReadsCount (command_L s) = analogReadsCount s
  /\ VcellCumul (command_L s) = VcellCumul s.
Proof. unfold command_L. split; [frame analogReadsCount | frame VcellCumul]. Qed.

Lemma command_H_window s :
  analogReadsCount (command_H s) = analogReadsCount s
  /\ VcellCumul (command_H s) = VcellCumul s.
Proof. unfold command_H. split; [frame analogReadsCount | frame VcellCumul]. Qed.

#[local] Hint Rewrite RotactorConfig_analogReadsCount RotactorConfig_VcellCumul
  check_balancing_analogReadsCount check_balancing_VcellCumul
  EEPROM_Get_analogReadsCount EEPROM_Get_VcellCumul
  EEPROM_Update_analogReadsCount EEPROM_Update_VcellCumul : frame.

Lemma every_second_window inp tempo s :
  analogReadsCount (every_second inp tempo s) = analogReadsCount s
  /\ VcellCumul (every_second inp tempo s) = VcellCumul s.
Proof.
  unfold every_second, every_minute.
  split; [frame analogReadsCount | frame VcellCumul].
Qed.

Lemma command_window s s' :
  command s = Ok s' ->
  analogReadsCount s' = analogReadsCount s /\ VcellCumul s' = VcellCumul s.
Proof.
  unfold command, command_B, store_Vcalibration. intros H.
  repeat case_match; simplify_eq;
    first [ apply command_L_window | apply command_H_window
          | split; [solve [frame analogReadsCount] | solve [frame VcellCumul]] ].
Qed.

Lemma serialEvent_window incoming s s' :
  serialEvent incoming s = Ok s' ->
  analogReadsCount s' = analogReadsCount s /\ VcellCumul s' = VcellCumul s.
Proof.
  unfold serialEvent, store_consoleInput, bind. intros H.
  repeat case_match; simplify_eq;
    try (apply command_window in H; destruct H as (-> & ->));
    (split; [frame analogReadsCount | frame VcellCumul]).
Qed.

Lemma measuring_window inp tempo s :
  let s3 := define_pwm (read_analog_values inp (run_once_block tempo s)) in
  analogReadsCount s3 = analogReadsCount s /\ length (VcellCumul s3) = length (VcellCumul s).
Proof.
  intros s3; subst s3. split; [apply measuring_alarm|].
  unfold define_pwm, read_analog_values.
  assert (H : VcellCumul (run_once_block tempo s) = VcellCumul s)
    by (unfold run_once_block; frame VcellCumul).
  revert H. generalize (run_once_block tempo s). intros x Hx. rewrite <- Hx.
  match goal with |- context [for_up 0 4 ?body x] =>
    transitivity (length (VcellCumul (for_up 0 4 body x)))
  end.
  - repeat case_match; reflexivity.
  - apply (for_up_ind (fun y => length (VcellCumul y) = length (VcellCumul x))); [|reflexivity].
    intros i y Hy. simpl. rewrite length_insert. exact Hy.
Qed.

Lemma loop_window inp s :
  length (VcellCumul s) = 4%nat -> analogReadsCount s = 0 ->
  analogReadsCount (loop inp s) = 0
  /\ VcellCumul (loop inp s) = [F32.of_int 0; F32.of_int 0; F32.of_int 0; F32.of_int 0].
Proof.
  intros Hlen Hcount. unfold loop. cbv zeta.
  generalize (Int.u32 (millis inp)). intros tempo.
  destruct (measuring_window inp tempo s) as [Hc Hl]. revert Hc Hl.
  generalize (define_pwm (read_analog_values inp (run_once_block tempo s))).
  intros s3 Hc Hl.
  change (analogReadsCount (set_analogReadsCount ?c ?x)) with c.
  rewrite Hc, Hcount. change (Int.u16 (0 + 1) >? 100) with false. cbv iota.
  destruct (every_second_window inp tempo
              (calculate_voltages (set_analogReadsCount (Int.u16 (0 + 1)) s3))) as [-> ->].
  apply calculate_voltages_window. change (VcellCumul (set_analogReadsCount ?c ?x)) with (VcellCumul x).
  congruence.
Qed.

Lemma setup_window inp eeprom :
  analogReadsCount (setup inp (power_on eeprom)) = 0
  /\ VcellCumul (setup inp (power_on eeprom))
     = [F32.of_int 0; F32.of_int 0; F32.of_int 0; F32.of_int 0].
Proof.
  unfold setup. split; [frame analogReadsCount | frame VcellCumul].
Qed.

Lemma reachable_window s :
  reachable s ->
  analogReadsCount s = 0
  /\ VcellCumul s = [F32.of_int 0; F32.of_int 0; F32.of_int 0; F32.of_int 0].
Proof.
  induction 1 as [eeprom inp | s s' _ [IHc IHv] Hstep].
  - apply setup_window.
  - destruct Hstep as [inp s | incoming s s' Hev].
    + apply loop_window; [rewrite IHv; reflexivity | exact IHc].
    + destruct (serialEvent_window _ _ _ Hev) as [-> ->]. split; assumption.
Qed.

(** C2. Line 193 returns when the incremented count exceeds 100 and
    resolves the voltages otherwise.  From the started system (count 0) the
    first pass already resolves the node voltages from its single sample
    and clears the accumulators and the count; from a count of 100 a pass
    only accumulates: nothing is resolved and the count moves to 101.  In
    every reachable state the count is 0, and every pass from such a state
    ends with the count and the accumulators cleared: the window is one
    sample. *)
Theorem voltages_resolved_below_window :
  (let inp := pass 10 [800; 800; 800; 800] true in
   (analogReadsCount started = 0
    /\ (let v := node_voltage (F32.of_int 800) 1 (F32.of_int 1) 0 in
        Vcell (loop inp started) = [v; v; v; v])
    /\ Valim (loop inp started) = node_voltage (F32.of_int 800) 1 (F32.of_int 1) 3
    /\ VcellCumul (loop inp started) = VcellCumul (power_on stored_defaults)
    /\ analogReadsCount (loop inp started) = 0)
   /\ (let full := set_analogReadsCount 100 started in
       Vcell (loop inp full) = Vcell full
       /\ Valim (loop inp full) = Valim full
       /\ VcellCumul (loop inp full)
          = [F32.of_int 800; F32.of_int 800; F32.of_int 800; F32.of_int 800]
       /\ analogReadsCount (loop inp full) = 101))
  /\ (forall s, reachable s ->
        analogReadsCount s = 0
        /\ forall inp,
             analogReadsCount (loop inp s) = 0
             /\ VcellCumul (loop inp s)
                = [F32.of_int 0; F32.of_int 0; F32.of_int 0; F32.of_int 0]).
Proof.
  split; [vm_compute; repeat split|].
  intros s Hs. destruct (reachable_window s Hs) as [Hc Hv].
  split; [exact Hc|]. intros inp. apply loop_window; [rewrite Hv; reflexivity | exact Hc].
Qed.

(** ** The calibration store, saved and restored *)

Arguments Int.highByte : simpl never.
Arguments Int.lowByte : simpl never.

Lemma EEPROM_Update_layout (s : state) :
  arrays_sized s ->
  EEPROM_Update s = set_EEPROM (stored_parameters s ++ drop 12 (EEPROM s)) s.
Proof.
  intros (Hc & Hx & Hn).
  destruct s as [? ? vmax vmin vcal ? ? ? ? ? ? ? ? ? ? ? ? ? ? ? ? ? ? ? ? rom ?].
  cbn [Vcalibration Vmax Vmin] in Hc, Hx, Hn.
  destruct vcal as [|c0 [|c1 [|c2 [|c3 [|]]]]]; try discriminate Hc.
  destruct vmax as [|x0 [|x1 [|]]]; try discriminate Hx.
  destruct vmin as [|n0 [|n1 [|]]]; try discriminate Hn.
  do 12 (destruct rom as [|? rom]; [reflexivity|]).
  unfold EEPROM_Update, EEPROM_write, for_up, stored_parameters. simpl.
  rewrite !app_nil_r. reflexivity.
Qed.

Lemma s16_range (z : Z) : -32768 <= Int.s16 z <= 32767.
Proof. unfold Int.s16. pose proof (Z.mod_pos_bound (z + 32768) 65536). lia. Qed.

Lemma two_bytes_hold_int (v : Z) :
  -32768 <= v <= 32767 -> Int.s16 (Z.shiftl (Int.highByte v) 8 + Int.lowByte v) = v.
Proof.
  intros Hv. unfold Int.s16, Int.highByte, Int.lowByte, Int.u8.
  change 255 with (Z.ones 8). rewrite Z.land_ones, Z.shiftr_div_pow2, Z.shiftl_mul_pow2 by lia.
  change (2 ^ 8) with 256.
  pose proof (Z.div_mod v 256 ltac:(lia)) as Hdm.
  pose proof (Z.mod_pos_bound v 256 ltac:(lia)) as Hlo.
  rewrite (Z.mod_small (v mod 256) 256) by lia.
  assert (Hq : -128 <= v / 256 <= 127) by lia.
  destruct (Z_lt_le_dec v 0) as [Hneg | Hpos].
  - assert (Hh : (v / 256) mod 256 = v / 256 + 256).
    { symmetry. apply (Z.mod_unique _ _ (-1)); lia. }
    rewrite Hh.
    replace ((v / 256 + 256) * 256 + v mod 256 + 32768) with (v + 32768 + 1 * 65536) by lia.
    rewrite Z.mod_add by lia. rewrite Z.mod_small by lia. lia.
  - assert (0 <= v / 256) by (apply Z.div_pos; lia).
    rewrite (Z.mod_small (v / 256) 256) by lia.
    replace (v / 256 * 256 + v mod 256 + 32768) with (v + 32768) by lia.
    rewrite Z.mod_small by lia. lia.
Qed.

Lemma calibration_of_stored_bytes (x : F32.float) :
  calibration_of_bytes (Int.highByte (calibration_to_int x)) (Int.lowByte (calibration_to_int x))
  = F32.div (F32.of_int (calibration_to_int x)) (F32.of_int 1000).
Proof.
  unfold calibration_of_bytes. rewrite two_bytes_hold_int; [reflexivity|].
  unfold calibration_to_int. apply s16_range.
Qed.

Lemma EEPROM_Get_loads (s : state) :
  arrays_sized s ->
  EEPROM_Get s
  = set_Vmin (map (fun a => threshold_of_byte (EEPROM_read a s)) [10; 11]%nat)
      (set_Vmax (map (fun a => threshold_of_byte (EEPROM_read a s)) [8; 9]%nat)
         (set_Vcalibration
            (map (fun i => calibration_of_bytes (EEPROM_read (2 * i) s) (EEPROM_read (2 * i + 1) s))
               [0; 1; 2; 3]%nat) s)).
Proof.
  intros (Hc & Hx & Hn).
  destruct s as [? ? vmax vmin vcal ? ? ? ? ? ? ? ? ? ? ? ? ? ? ? ? ? ? ? ? rom ?].
  cbn [Vcalibration Vmax Vmin] in Hc, Hx, Hn.
  destruct vcal as [|c0 [|c1 [|c2 [|c3 [|]]]]]; try discriminate Hc.
  destruct vmax as [|x0 [|x1 [|]]]; try discriminate Hx.
  destruct vmin as [|n0 [|n1 [|]]]; try discriminate Hn.
  reflexivity.
Qed.

Lemma EEPROM_Update_parameters (s : state) :
  Vcalibration (EEPROM_Update s) = Vcalibration s
  /\ Vmax (EEPROM_Update s) = Vmax s /\ Vmin (EEPROM_Update s) = Vmin s.
Proof.
  unfold EEPROM_Update, EEPROM_write.
  repeat apply conj; [frame Vcalibration | frame Vmax | frame Vmin].
Qed.

Lemma EEPROM_Update_arrays_sized (s : state) : arrays_sized s -> arrays_sized (EEPROM_Update s).
Proof.
  unfold arrays_sized. destruct (EEPROM_Update_parameters s) as (-> & -> & ->). tauto.
Qed.

(** X1. Saving then restoring (the console commands [S] then [E]).
    [EEPROM_Update] leaves the twelve parameter bytes in cells 0 to 11, and
    the cells beyond as they were; [EEPROM_Get] then reloads every
    calibration as its 16-bit count of thousandths divided by 1000 and
    every threshold as the decoding of its byte, whatever the EEPROM held
    before. *)
Theorem save_then_restore (s : state) :
  arrays_sized s ->
  let s' := EEPROM_Get (EEPROM_Update s) in
  Vcalibration s'
  = map (fun x => F32.div (F32.of_int (calibration_to_int x)) (F32.of_int 1000)) (Vcalibration s)
  /\ Vmax s' = map (fun v => threshold_of_byte (byte_of_threshold v)) (Vmax s)
  /\ Vmin s' = map (fun v => threshold_of_byte (byte_of_threshold v)) (Vmin s)
  /\ EEPROM s' = stored_parameters s ++ drop 12 (EEPROM s).
Proof.
  intros Hsz s'. subst s'.
  rewrite (EEPROM_Get_loads _ (EEPROM_Update_arrays_sized s Hsz)).
  rewrite (EEPROM_Update_layout s Hsz).
  cbn [Vcalibration Vmax Vmin EEPROM set_Vmin set_Vmax set_Vcalibration set_EEPROM].
  unfold EEPROM_read. cbn [EEPROM set_EEPROM].
  destruct Hsz as (Hc & Hx & Hn). unfold stored_parameters.
  destruct (Vcalibration s) as [|c0 [|c1 [|c2 [|c3 [|]]]]]; try discriminate Hc.
  destruct (Vmax s) as [|x0 [|x1 [|]]]; try discriminate Hx.
  destruct (Vmin s) as [|n0 [|n1 [|]]]; try discriminate Hn.
  cbn [flat_map map app lookup list_lookup Nat.mul Nat.add default from_option id].
  rewrite !calibration_of_stored_bytes. repeat apply conj; reflexivity.
Qed.

(** The save and the restore of the started system. *)
Lemma save_then_restore_witness :
  let s' := EEPROM_Get (EEPROM_Update started) in
  Vcalibration s'
  = map (fun x => F32.div (F32.of_int (calibration_to_int x)) (F32.of_int 1000))
      (Vcalibration started)
  /\ Vmax s' = map (fun v => threshold_of_byte (byte_of_threshold v)) (Vmax started)
  /\ Vmin s' = map (fun v => threshold_of_byte (byte_of_threshold v)) (Vmin started)
  /\ EEPROM s' = stored_parameters started ++ drop 12 (EEPROM started).
Proof. apply (save_then_restore started). vm_compute. repeat split. Defined.

(** X2. Restoring then saving again.  A threshold byte that is loaded and
    saved again comes back as itself or as one less, and is stable from
    then on; so does a calibration count between 800 and 1200.  The byte
    120 (4.20 V) comes back as 119 and the count 1004 as 1003: the
    binary32 product is truncated toward zero. *)
Theorem resave_lowers_by_one_count_at_most :
  (forall b, 0 <= b <= 255 ->
     let b' := byte_of_threshold (threshold_of_byte b) in
     (b' = b \/ b' = b - 1) /\ byte_of_threshold (threshold_of_byte b') = b')
  /\ (forall v, 800 <= v <= 1200 ->
        let reload x := F32.div (F32.of_int x) (F32.of_int 1000) in
        let v' := calibration_to_int (reload v) in
        (v' = v \/ v' = v - 1) /\ calibration_to_int (reload v') = v')
  /\ byte_of_threshold (threshold_of_byte 120) = 119
  /\ calibration_to_int (F32.div (F32.of_int 1004) (F32.of_int 1000)) = 1003.
Proof.
  split; [|split; [|split; vm_compute; reflexivity]].
  - intros b Hb. cbv zeta.
    pose proof (forallb_Zrange
      (fun b => let b' := byte_of_threshold (threshold_of_byte b) in
                ((b' =? b) || (b' =? b - 1))
                && (byte_of_threshold (threshold_of_byte b') =? b')) 0 256) as H.
    cbv zeta in H. specialize (H ltac:(vm_compute; reflexivity) b ltac:(lia)).
    apply andb_true_iff in H as [H1 H2]. apply orb_true_iff in H1.
    rewrite !Z.eqb_eq in H1. apply Z.eqb_eq in H2. auto.
  - intros v Hv. cbv zeta.
    pose proof (forallb_Zrange
      (fun v => let reload x := F32.div (F32.of_int x) (F32.of_int 1000) in
                let v' := calibration_to_int (reload v) in
                ((v' =? v) || (v' =? v - 1)) && (calibration_to_int (reload v') =? v'))
      800 401) as H.
    cbv zeta in H. specialize (H ltac:(vm_compute; reflexivity) v ltac:(lia)).
    apply andb_true_iff in H as [H1 H2]. apply orb_true_iff in H1.
    rewrite !Z.eqb_eq in H1. apply Z.eqb_eq in H2. auto.
Qed.

(** *** What a pass and a console byte leave alone *)

Lemma every_second_keeps {A : Type} (f : state -> A) :
  (forall t, keeps f (set_memo_tempo t)) ->
  (forall w, keeps f (emit (ConsoleDisplay w))) -> keeps f (emit OledDisplay) ->
  keeps f check_balancing -> (forall inp, keeps f (RotactorConfig inp)) ->
  (forall t, keeps f (every_minute t)) ->
  forall inp t, keeps f (every_second inp t).
Proof.
  intros Hm Hd Ho Hc Hr Hmin inp t s. unfold every_second.
  destruct (Int.u32 (t - memo_tempo s) <? 1000); [reflexivity|].
  cbv zeta. rewrite Hmin, Ho, Hd, Hr, Hc, Hm. reflexivity.
Qed.

Lemma loop_keeps {A : Type} (f : state -> A) :
  (forall c, keeps f (set_analogReadsCount c)) ->
  (forall t, keeps f (run_once_block t)) -> (forall inp, keeps f (read_analog_values inp)) ->
  keeps f define_pwm -> keeps f calculate_voltages ->
  (forall inp t, keeps f (every_second inp t)) ->
  forall inp, keeps f (loop inp).
Proof.
  intros Hc Hr Ha Hp Hv Hs inp s. unfold loop. cbv zeta.
  match goal with |- context [if ?b then _ else _] => destruct b end.
  - rewrite Hc, Hp, Ha, Hr. reflexivity.
  - rewrite Hs, Hv, Hc, Hp, Ha, Hr. reflexivity.
Qed.

Ltac keeps_leaf f :=
  intros; unfold keeps; intros;
  try first [ progress unfold run_once_block | progress unfold read_analog_values
            | progress unfold define_pwm
            | progress unfold calculate_voltages, get_cell_voltages, for_down
            | progress unfold check_balancing | progress unfold RotactorConfig
            | progress unfold every_minute ];
  frame f.

Ltac loop_frame f :=
  apply (loop_keeps f);
    [ keeps_leaf f | keeps_leaf f | keeps_leaf f | keeps_leaf f | keeps_leaf f
    | apply (every_second_keeps f); keeps_leaf f ].

Lemma loop_EEPROM inp : keeps EEPROM (loop inp).
Proof. loop_frame EEPROM. Qed.

Lemma loop_Vcalibration inp : keeps Vcalibration (loop inp).
Proof. loop_frame Vcalibration. Qed.

Lemma loop_Vmax inp : keeps Vmax (loop inp).
Proof. loop_frame Vmax. Qed.

Lemma loop_Vmin inp : keeps Vmin (loop inp).
Proof. loop_frame Vmin. Qed.

Lemma setup_EEPROM inp eeprom : EEPROM (setup inp (power_on eeprom)) = eeprom.
Proof.
  unfold setup. change FIRST_USE with false. cbv iota.
  assert (Hg : keeps EEPROM EEPROM_Get) by (intros x; unfold EEPROM_Get; frame EEPROM).
  assert (Hr : keeps EEPROM (RotactorConfig inp)) by keeps_leaf EEPROM.
  cbv zeta. change (EEPROM (emit ?e ?x)) with (EEPROM x). rewrite Hr, Hg.
  frame EEPROM.
Qed.

Ltac console_leaf f :=
  intros; unfold keeps; intros;
  try first [ progress unfold command_L | progress unfold command_H
            | progress unfold EEPROM_Get | progress unfold EEPROM_Update, EEPROM_write ];
  frame f.

Lemma command_EEPROM s s' :
  command s = Ok s' ->
  EEPROM s' = EEPROM s
  \/ (is_char (consoleInput s !!! 0%nat) "s" "S" = true /\ consoleInput s' = consoleInput s).
Proof.
  assert (HL : keeps EEPROM command_L) by console_leaf EEPROM.
  assert (HH : keeps EEPROM command_H) by console_leaf EEPROM.
  assert (HG : keeps EEPROM EEPROM_Get) by console_leaf EEPROM.
  assert (HU : keeps consoleInput EEPROM_Update) by console_leaf consoleInput.
  unfold command, command_B, store_Vcalibration. intros H.
  repeat case_match; simplify_eq; rewrite ?HL, ?HH, ?HG, ?HU; auto.
Qed.

Lemma serialEvent_EEPROM incoming s s' :
  serialEvent incoming s = Ok s' ->
  EEPROM s' = EEPROM s
  \/ (exists b, incoming = Some b /\ Int.s8 b = 10
                /\ is_char (consoleInput s' !!! 0%nat) "s" "S" = true).
Proof.
  unfold serialEvent, store_consoleInput, bind. intros H.
  destruct incoming as [b|]; [|simplify_eq; left; reflexivity].
  destruct (Z.eqb_spec (Int.s8 b) 10) as [Hnl | Hch]; cbn [negb] in H.
  - destruct ((0 <=? index s) && (index s <? 7)); [|discriminate H].
    apply command_EEPROM in H. destruct H as [H | [Hs Hc]].
    + left. exact H.
    + right. exists b. rewrite Hc. auto.
  - left. repeat case_match; simplify_eq; reflexivity.
Qed.

(** X3. The EEPROM is written by the save command only: [setup] and [loop]
    leave it as it is, and a call of [serialEvent] changes it only on the
    newline that ends a line whose first character is [s] or [S]. *)
Theorem EEPROM_written_by_save_only :
  (forall eeprom inp, EEPROM (setup inp (power_on eeprom)) = eeprom)
  /\ (forall inp s, EEPROM (loop inp s) = EEPROM s)
  /\ (forall incoming s s',
        serialEvent incoming s = Ok s' -> EEPROM s' <> EEPROM s ->
        exists b, incoming = Some b /\ Int.s8 b = 10
                  /\ is_char (consoleInput s' !!! 0%nat) "s" "S" = true).
Proof.
  split; [|split].
  - intros eeprom inp. apply setup_EEPROM.
  - intros inp s. apply loop_EEPROM.
  - intros incoming s s' H Hne. destruct (serialEvent_EEPROM _ _ _ H) as [Heq | Hsave].
    + contradiction.
    + exact Hsave.
Qed.

(** X4. A pass of [loop] changes no calibration and no threshold. *)
Theorem loop_keeps_parameters (inp : inputs) (s : state) :
  Vcalibration (loop inp s) = Vcalibration s
  /\ Vmax (loop inp s) = Vmax s /\ Vmin (loop inp s) = Vmin s.
Proof.
  repeat apply conj; [apply loop_Vcalibration | apply loop_Vmax | apply loop_Vmin].
Qed.

(** ** Lines typed on the console *)

Lemma s8_small (z : Z) : -128 <= z < 128 -> Int.s8 z = z.
Proof. intros H. unfold Int.s8. rewrite Z.mod_small by lia. lia. Qed.

Lemma u8_small (z : Z) : 0 <= z < 256 -> Int.u8 z = z.
Proof. intros H. unfold Int.u8. apply Z.mod_small. lia. Qed.

Lemma s16_small (z : Z) : -32768 <= z < 32768 -> Int.s16 z = z.
Proof. intros H. unfold Int.s16. rewrite Z.mod_small by lia. lia. Qed.

(** One character of a line, then its end. *)
Lemma serialEvent_stores (b : Z) (s : state) :
  -128 <= b < 128 -> b <> 10 -> 0 <= index s < 7 ->
  serialEvent (Some b) s
  = Ok (set_index (index s + 1)
          (set_consoleInput (<[Z.to_nat (index s) := b]> (consoleInput s)) s)).
Proof.
  intros Hb Hnl Hk. unfold serialEvent, store_consoleInput, bind.
  rewrite (s8_small b Hb).
  destruct (Z.eqb_spec b 10) as [|_]; [contradiction|]. cbn [negb].
  destruct (Z.leb_spec 0 (index s)); [|lia].
  destruct (Z.ltb_spec (index s) 7); [|lia]. cbn [andb].
  f_equal. change (index (set_consoleInput ?l ?x)) with (index x).
  rewrite u8_small by lia. reflexivity.
Qed.

Lemma serialEvent_ends_line (s : state) :
  0 <= index s < 7 ->
  serialEvent (Some 10) s
  = command (set_index 0 (set_consoleInput (<[Z.to_nat (index s) := 0]> (consoleInput s)) s)).
Proof.
  intros Hk. unfold serialEvent, store_consoleInput, bind.
  change (Int.s8 10 =? 10) with true. cbn [negb].
  destruct (Z.leb_spec 0 (index s)); [|lia].
  destruct (Z.ltb_spec (index s) 7); [|lia]. reflexivity.
Qed.

Lemma serialEvents_line (line : list Z) (k : nat) (s : state) :
  index s = Z.of_nat k -> (k + length line <= 6)%nat ->
  Forall (fun c => -128 <= c < 128 /\ c <> 10) line ->
  serialEvents (line ++ [10]) s
  = command (set_index 0
               (set_consoleInput
                  (<[(k + length line)%nat := 0]> (write_line k line (consoleInput s))) s)).
Proof.
  revert k s. induction line as [|c rest IH]; intros k s Hk Hlen Hok.
  - cbn [app serialEvents bind length write_line].
    rewrite serialEvent_ends_line by lia. rewrite Hk, Nat2Z.id, Nat.add_0_r.
    destruct (command _); reflexivity.
  - inversion Hok as [|? ? [Hc Hnl] Hrest]; subst. cbn [length] in Hlen.
    cbn [app serialEvents]. rewrite serialEvent_stores by lia. cbn [bind].
    rewrite (IH (S k)).
    + cbn [length write_line]. rewrite Hk, Nat2Z.id.
      replace (S k + length rest)%nat with (k + S (length rest))%nat by lia. reflexivity.
    + change (index (set_index ?v ?x)) with v. lia.
    + lia.
    + exact Hrest.
Qed.

Lemma is_char_cases (c : Z) (lower upper : ascii) :
  is_char c lower upper = true -> c = Int.chr lower \/ c = Int.chr upper.
Proof.
  unfold is_char. intros H. apply orb_true_iff in H. rewrite !Z.eqb_eq in H. exact H.
Qed.

(** Evaluates the character tests on a known character code. *)
Ltac known_chars :=
  repeat match goal with
         | |- context [is_char ?c ?l ?u] =>
             let b := eval vm_compute in (is_char c l u) in
             change (is_char c l u) with b
         end.

Lemma command_runs_L (s : state) :
  is_char (consoleInput s !!! 0%nat) "l" "L" = true -> command s = Ok (command_L s).
Proof.
  intros H. unfold command.
  destruct (is_char_cases _ _ _ H) as [-> | ->];
    change (Int.chr "l") with 108; change (Int.chr "L") with 76; known_chars; reflexivity.
Qed.

Lemma command_runs_H (s : state) :
  is_char (consoleInput s !!! 0%nat) "h" "H" = true -> command s = Ok (command_H s).
Proof.
  intros H. unfold command.
  destruct (is_char_cases _ _ _ H) as [-> | ->];
    change (Int.chr "h") with 104; change (Int.chr "H") with 72; known_chars; reflexivity.
Qed.

Lemma command_runs_B (s : state) :
  is_char (consoleInput s !!! 0%nat) "b" "B" = true -> command s = command_B s.
Proof. intros H. unfold command. rewrite H. reflexivity. Qed.

Lemma value3_digits (c0 c1 a b c : Z) (rest : list Z) :
  0 <= a <= 9 -> 0 <= b <= 9 -> 0 <= c <= 9 ->
  value3 (c0 :: c1 :: digit a :: digit b :: digit c :: rest) = 100 * a + 10 * b + c.
Proof.
  intros Ha Hb Hc. unfold value3, digit.
  change ((?x0 :: ?x1 :: ?x2 :: ?x3 :: ?x4 :: ?r) !!! 4%nat) with x4.
  change ((?x0 :: ?x1 :: ?x2 :: ?x3 :: ?x4 :: ?r) !!! 3%nat) with x3.
  change ((?x0 :: ?x1 :: ?x2 :: ?x3 :: ?x4 :: ?r) !!! 2%nat) with x2.
  rewrite s16_small by lia. lia.
Qed.

Lemma value4_digits (c0 c1 a b c d : Z) (rest : list Z) :
  0 <= a <= 9 -> 0 <= b <= 9 -> 0 <= c <= 9 -> 0 <= d <= 9 ->
  value4 (c0 :: c1 :: digit a :: digit b :: digit c :: digit d :: rest)
  = 1000 * a + 100 * b + 10 * c + d.
Proof.
  intros Ha Hb Hc Hd. unfold value4, digit.
  change ((?x0 :: ?x1 :: ?x2 :: ?x3 :: ?x4 :: ?x5 :: ?r) !!! 5%nat) with x5.
  change ((?x0 :: ?x1 :: ?x2 :: ?x3 :: ?x4 :: ?r) !!! 4%nat) with x4.
  change ((?x0 :: ?x1 :: ?x2 :: ?x3 :: ?x4 :: ?r) !!! 3%nat) with x3.
  change ((?x0 :: ?x1 :: ?x2 :: ?x3 :: ?x4 :: ?r) !!! 2%nat) with x2.
  rewrite s16_small by lia. lia.
Qed.

Lemma in_range_accepted (val : Z) (lo hi : Z) :
  lo <= val <= hi -> (val <? lo) || (val >? hi) = false.
Proof.
  intros H. apply orb_false_iff. rewrite Z.gtb_ltb. split; apply Z.ltb_ge; lia.
Qed.

(** What an accepted threshold command does. *)
Lemma command_L_accepts (s : state) :
  270 <= value3 (consoleInput s) <= 460 ->
  is_char (consoleInput s !!! 1%nat) "t" "T" || is_char (consoleInput s !!! 1%nat) "f" "F" = true ->
  command_L s
  = set_Vmin (<[(if is_char (consoleInput s !!! 1%nat) "t" "T" then 0 else 1)%nat
                := F32.div (F32.of_int (value3 (consoleInput s))) (F32.of_int 100)]> (Vmin s))
      (set_whatToDisplay (Int.chr "L") s).
Proof.
  intros Hval Hmodel. unfold command_L. cbv zeta.
  change (consoleInput (set_whatToDisplay ?w ?x)) with (consoleInput x).
  rewrite (in_range_accepted _ _ _ Hval).
  destruct (is_char (consoleInput s !!! 1%nat) "t" "T"); [reflexivity|].
  cbn [orb] in Hmodel. rewrite Hmodel. reflexivity.
Qed.

Lemma command_H_accepts (s : state) :
  270 <= value3 (consoleInput s) <= 460 ->
  is_char (consoleInput s !!! 1%nat) "t" "T" || is_char (consoleInput s !!! 1%nat) "f" "F" = true ->
  command_H s
  = set_Vmax (<[(if is_char (consoleInput s !!! 1%nat) "t" "T" then 0 else 1)%nat
                := F32.div (F32.of_int (value3 (consoleInput s))) (F32.of_int 100)]> (Vmax s))
      (set_whatToDisplay (Int.chr "H") s).
Proof.
  intros Hval Hmodel. unfold command_H. cbv zeta.
  change (consoleInput (set_whatToDisplay ?w ?x)) with (consoleInput x).
  rewrite (in_range_accepted _ _ _ Hval).
  destruct (is_char (consoleInput s !!! 1%nat) "t" "T"); [reflexivity|].
  cbn [orb] in Hmodel. rewrite Hmodel. reflexivity.
Qed.

(** *** The arrays keep their sizes *)

Lemma EEPROM_Get_sized (s : state) : sized s -> sized (EEPROM_Get s).
Proof.
  unfold EEPROM_Get. cbv zeta. intros H.
  match goal with |- context [for_up ?lo ?hi ?body s] =>
    assert (Hloop : sized (for_up lo hi body s));
    [|generalize dependent (for_up lo hi body s)]
  end.
  - apply for_up_ind; [|exact H]. intros i x (Hc & Hv & Hx & Hn).
    unfold sized, arrays_sized. cbn [consoleInput Vcalibration Vmax Vmin set_Vcalibration].
    rewrite length_insert. auto.
  - intros x (Hc & Hv & Hx & Hn). unfold sized, arrays_sized.
    cbn [consoleInput Vcalibration Vmax Vmin set_Vmax set_Vmin].
    rewrite !length_insert. auto.
Qed.

Lemma EEPROM_Update_sized (s : state) : sized s -> sized (EEPROM_Update s).
Proof.
  assert (HU : keeps consoleInput EEPROM_Update) by console_leaf consoleInput.
  intros [Hc Ha]. split; [rewrite HU; exact Hc | apply EEPROM_Update_arrays_sized, Ha].
Qed.

Ltac sized_after_insert :=
  match goal with
  | H : sized _ |- _ => destruct H as (Hc & Hv & Hx & Hn)
  end;
  unfold sized, arrays_sized;
  cbn [consoleInput Vcalibration Vmax Vmin set_Vcalibration set_Vmax set_Vmin
       set_consoleInput set_whatToDisplay emit set_output];
  rewrite ?length_insert; auto.

Lemma command_L_sized (s : state) : sized s -> sized (command_L s).
Proof.
  intros Hs. unfold command_L. cbv zeta.
  destruct (_ || _); [sized_after_insert|].
  destruct (is_char _ "t" "T"); [sized_after_insert|].
  destruct (is_char _ "f" "F"); sized_after_insert.
Qed.

Lemma command_H_sized (s : state) : sized s -> sized (command_H s).
Proof.
  intros Hs. unfold command_H. cbv zeta.
  destruct (_ || _); [sized_after_insert|].
  destruct (is_char _ "t" "T"); [sized_after_insert|].
  destruct (is_char _ "f" "F"); sized_after_insert.
Qed.

Lemma command_B_sized (s s' : state) : command_B s = Ok s' -> sized s -> sized s'.
Proof.
  unfold command_B, store_Vcalibration. cbv zeta. intros H Hs.
  destruct (_ >? _); [simplify_eq; sized_after_insert|].
  destruct (_ || _); [simplify_eq; sized_after_insert|].
  destruct (_ && _); [simplify_eq; sized_after_insert | discriminate H].
Qed.

Lemma command_sized (s s' : state) : command s = Ok s' -> sized s -> sized s'.
Proof.
  unfold command. cbv zeta. intros H Hs.
  destruct (is_char _ "b" "B"); [exact (command_B_sized _ _ H Hs)|].
  destruct (is_char _ "l" "L"); [simplify_eq; exact (command_L_sized _ Hs)|].
  destruct (is_char _ "h" "H"); [simplify_eq; exact (command_H_sized _ Hs)|].
  destruct (is_char _ "e" "E"); [simplify_eq; apply EEPROM_Get_sized; exact Hs|].
  destruct (is_char _ "s" "S"); [simplify_eq; apply EEPROM_Update_sized; exact Hs|].
  simplify_eq. exact Hs.
Qed.

Lemma serialEvent_sized (incoming : option Z) (s s' : state) :
  serialEvent incoming s = Ok s' -> sized s -> sized s'.
Proof.
  unfold serialEvent, store_consoleInput, bind. intros H Hs.
  assert (Hins : forall k c, sized (set_consoleInput (<[k := c]> (consoleInput s)) s)).
  { intros k c. destruct Hs as (Hc & Hv & Hx & Hn). unfold sized, arrays_sized.
    cbn [consoleInput Vcalibration Vmax Vmin set_consoleInput]. rewrite length_insert. auto. }
  repeat case_match; simplify_eq; try exact Hs.
  - exact (Hins _ _).
  - eapply command_sized; [exact H|]. exact (Hins _ _).
Qed.

Lemma loop_consoleInput inp : keeps consoleInput (loop inp).
Proof. loop_frame consoleInput. Qed.

Lemma loop_sized (inp : inputs) (s : state) : sized s -> sized (loop inp s).
Proof.
  unfold sized, arrays_sized.
  rewrite loop_consoleInput, loop_Vcalibration, loop_Vmax, loop_Vmin. tauto.
Qed.

Lemma setup_sized (inp : inputs) (eeprom : list Z) : sized (setup inp (power_on eeprom)).
Proof.
  unfold setup. change FIRST_USE with false. cbv iota zeta.
  assert (Hr : forall x, sized x -> sized (RotactorConfig inp x)).
  { intros x. unfold sized, arrays_sized.
    assert (H1 : keeps consoleInput (RotactorConfig inp)) by keeps_leaf consoleInput.
    assert (H2 : keeps Vcalibration (RotactorConfig inp)) by keeps_leaf Vcalibration.
    assert (H3 : keeps Vmax (RotactorConfig inp)) by keeps_leaf Vmax.
    assert (H4 : keeps Vmin (RotactorConfig inp)) by keeps_leaf Vmin.
    rewrite H1, H2, H3, H4. tauto. }
  assert (He : forall e x, sized x -> sized (emit e x)) by (intros e x H; exact H).
  apply He, Hr, EEPROM_Get_sized, He, He.
  apply for_up_ind; [intros i x; apply He|].
  apply He. repeat split.
Qed.

Lemma reachable_sized (s : state) : reachable s -> sized s.
Proof.
  induction 1 as [eeprom inp | s s' _ IH Hstep].
  - apply setup_sized.
  - destruct Hstep as [inp s | incoming s s' Hev].
    + apply loop_sized, IH.
    + eapply serialEvent_sized; [exact Hev | exact IH].
Qed.

Lemma chr_range (a : ascii) : 0 <= Int.chr a < 256.
Proof.
  unfold Int.chr. pose proof (N_ascii_bounded a) as H. lia.
Qed.

(** The buffer after a line of five characters, typed from the start. *)
Lemma line5_typed (x0 x1 x2 x3 x4 : Z) (buffer : list Z) :
  length buffer = 7%nat ->
  <[5%nat := 0]> (write_line 0 [x0; x1; x2; x3; x4] buffer)
  = [x0; x1; x2; x3; x4] ++ 0 :: drop 6 buffer.
Proof.
  intros H. do 7 (destruct buffer as [|? buffer]; [discriminate H|]).
  destruct buffer; [reflexivity | discriminate H].
Qed.

Lemma line6_typed (x0 x1 x2 x3 x4 x5 : Z) (buffer : list Z) :
  length buffer = 7%nat ->
  <[6%nat := 0]> (write_line 0 [x0; x1; x2; x3; x4; x5] buffer) = [x0; x1; x2; x3; x4; x5; 0].
Proof.
  intros H. do 7 (destruct buffer as [|? buffer]; [discriminate H|]).
  destruct buffer; [reflexivity | discriminate H].
Qed.

Lemma letter_typed (c : Z) (lower upper : ascii) :
  is_char c lower upper = true -> Int.chr lower < 128 -> Int.chr upper < 128 ->
  Int.chr lower <> 10 -> Int.chr upper <> 10 -> -128 <= c < 128 /\ c <> 10.
Proof.
  intros H Hl Hu Hnl Hnu. pose proof (chr_range lower). pose proof (chr_range upper).
  destruct (is_char_cases _ _ _ H) as [-> | ->]; lia.
Qed.

Lemma digit_typed (d : Z) : 0 <= d <= 9 -> -128 <= digit d < 128 /\ digit d <> 10.
Proof. unfold digit. lia. Qed.

Lemma threshold_line_received (s : state) (c0 c1 a b c : Z) (l0 u0 : ascii) :
  sized s -> index s = 0 ->
  0 <= a <= 9 -> 0 <= b <= 9 -> 0 <= c <= 9 ->
  is_char c0 l0 u0 = true -> Int.chr l0 < 128 -> Int.chr u0 < 128 ->
  Int.chr l0 <> 10 -> Int.chr u0 <> 10 ->
  is_char c1 "t" "T" || is_char c1 "f" "F" = true ->
  serialEvents ([c0; c1; digit a; digit b; digit c] ++ [10]) s
  = command (set_index 0
               (set_consoleInput
                  ([c0; c1; digit a; digit b; digit c] ++ 0 :: drop 6 (consoleInput s)) s)).
Proof.
  intros [Hlen _] Hi Ha Hb Hc H0 Hl Hu Hnl Hnu H1.
  rewrite (serialEvents_line _ 0 s Hi).
  - cbn [length Nat.add]. rewrite line5_typed by exact Hlen. reflexivity.
  - cbn [length]. lia.
  - assert (Hc1 : -128 <= c1 < 128 /\ c1 <> 10).
    { apply orb_true_iff in H1 as [H1 | H1];
        (eapply letter_typed; [exact H1 | | | | ]; vm_compute; congruence). }
    assert (Hc0 : -128 <= c0 < 128 /\ c0 <> 10) by (eapply letter_typed; eassumption).
    repeat (constructor; [first [exact Hc0 | exact Hc1 | apply digit_typed; assumption]|]).
    constructor.
Qed.

(** X5. A threshold command typed on the console.  From a reachable state
    with an empty line buffer, the seven calls of [serialEvent] for a line
    [L] or [H], a chemistry letter [T] or [F] (either case), three digits
    worth 270 to 460, and the newline, all return, and together set that
    one threshold (Li-ion at index 0, LiFePO4 at index 1) to a hundredth of
    the value; besides, they change the line buffer, its index and the
    letter of the console report only. *)
Theorem threshold_line_sets_one_threshold (s : state) (c0 c1 a b c : Z) :
  reachable s -> index s = 0 ->
  0 <= a <= 9 -> 0 <= b <= 9 -> 0 <= c <= 9 -> 270 <= 100 * a + 10 * b + c <= 460 ->
  is_char c1 "t" "T" || is_char c1 "f" "F" = true ->
  let k := (if is_char c1 "t" "T" then 0 else 1)%nat in
  let v := F32.div (F32.of_int (100 * a + 10 * b + c)) (F32.of_int 100) in
  let line := [c0; c1; digit a; digit b; digit c] in
  let typed := set_index 0 (set_consoleInput (line ++ 0 :: drop 6 (consoleInput s)) s) in
  (is_char c0 "l" "L" = true ->
   serialEvents (line ++ [10]) s
   = Ok (set_Vmin (<[k := v]> (Vmin s)) (set_whatToDisplay (Int.chr "L") typed)))
  /\ (is_char c0 "h" "H" = true ->
      serialEvents (line ++ [10]) s
      = Ok (set_Vmax (<[k := v]> (Vmax s)) (set_whatToDisplay (Int.chr "H") typed))).
Proof.
  intros Hr Hi Ha Hb Hc Hv H1 k v line typed.
  pose proof (reachable_sized s Hr) as Hs.
  assert (Hval : value3 (consoleInput typed) = 100 * a + 10 * b + c).
  { subst typed line. cbn [consoleInput set_index set_consoleInput app].
    apply value3_digits; assumption. }
  assert (Hc0 : consoleInput typed !!! 0%nat = c0) by reflexivity.
  assert (Hc1 : consoleInput typed !!! 1%nat = c1) by reflexivity.
  split; intros H0.
  - subst line. rewrite (threshold_line_received s c0 c1 a b c "l" "L")
      by first [assumption | vm_compute; congruence].
    fold typed. rewrite command_runs_L by (rewrite Hc0; exact H0).
    rewrite command_L_accepts; rewrite ?Hval, ?Hc1; try assumption.
    reflexivity.
  - subst line. rewrite (threshold_line_received s c0 c1 a b c "h" "H")
      by first [assumption | vm_compute; congruence].
    fold typed. rewrite command_runs_H by (rewrite Hc0; exact H0).
    rewrite command_H_accepts; rewrite ?Hval, ?Hc1; try assumption.
    reflexivity.
Qed.

Lemma threshold_line_sets_one_threshold_witness :
  serialEvents (bytes_of "hf365" ++ [10]) started
  = Ok (set_Vmax (<[1%nat := F32.div (F32.of_int 365) (F32.of_int 100)]> (Vmax started))
          (set_whatToDisplay (Int.chr "H")
             (set_index 0
                (set_consoleInput (bytes_of "hf365" ++ 0 :: drop 6 (consoleInput started))
                   started)))).
Proof.
  refine (proj2 (threshold_line_sets_one_threshold started 104 102 3 6 5
                   (reachable_setup _ _) _ _ _ _ _ _) _);
    first [ reflexivity | lia ].
Defined.

(** X6. A calibration command typed on the console.  From a reachable state
    with an empty line buffer, the eight calls of [serialEvent] for a line
    [B], a cell digit 1 to 4 not beyond the selected cells plus one, four
    digits worth 800 to 1200, and the newline, all return, and together set
    the calibration of that cell to a thousandth of the value; besides,
    they change the line buffer, its index and the letter of the console
    report only. *)
Theorem calibration_line_sets_one_calibration (s : state) (c0 x a b c d : Z) :
  reachable s -> index s = 0 -> is_char c0 "b" "B" = true ->
  1 <= x <= 4 -> x - 1 <= cellNumber s ->
  0 <= a <= 9 -> 0 <= b <= 9 -> 0 <= c <= 9 -> 0 <= d <= 9 ->
  800 <= 1000 * a + 100 * b + 10 * c + d <= 1200 ->
  let v := F32.div (F32.of_int (1000 * a + 100 * b + 10 * c + d)) (F32.of_int 1000) in
  let line := [c0; digit x; digit a; digit b; digit c; digit d] in
  serialEvents (line ++ [10]) s
  = Ok (set_Vcalibration (<[Z.to_nat (x - 1) := v]> (Vcalibration s))
          (set_whatToDisplay (Int.chr "B")
             (set_index 0 (set_consoleInput (line ++ [0]) s)))).
Proof.
  intros Hr Hi H0 Hx Hcell Ha Hb Hc Hd Hv v line.
  destruct (reachable_sized s Hr) as [Hlen _].
  set (typed := set_index 0 (set_consoleInput (line ++ [0]) s)).
  assert (Hline : serialEvents (line ++ [10]) s = command typed).
  { subst line. rewrite (serialEvents_line _ 0 s Hi).
    - cbn [length Nat.add]. rewrite line6_typed by exact Hlen. reflexivity.
    - cbn [length]. lia.
    - assert (Hc0 : -128 <= c0 < 128 /\ c0 <> 10)
        by (eapply letter_typed; [exact H0 | | | | ]; vm_compute; congruence).
      repeat (constructor; [first [exact Hc0 | apply digit_typed; lia]|]). constructor. }
  rewrite Hline, command_runs_B by exact H0.
  unfold command_B. cbv zeta.
  change (consoleInput (set_whatToDisplay ?w ?y)) with (consoleInput y).
  change (cellNumber (set_whatToDisplay ?w ?y)) with (cellNumber y).
  change (cellNumber typed) with (cellNumber s).
  assert (Hval : value4 (consoleInput typed) = 1000 * a + 100 * b + 10 * c + d).
  { subst typed line. cbn [consoleInput set_index set_consoleInput app].
    apply value4_digits; assumption. }
  assert (Hc1 : consoleInput typed !!! 1%nat - 49 = x - 1).
  { change (consoleInput typed !!! 1%nat) with (digit x). unfold digit. lia. }
  rewrite Hval, Hc1.
  destruct (Z.gtb_spec (x - 1) (cellNumber s)) as [Hgt | _]; [lia|].
  rewrite (in_range_accepted _ _ _ Hv).
  unfold store_Vcalibration.
  destruct (Z.leb_spec 0 (x - 1)); [|lia]. destruct (Z.ltb_spec (x - 1) 4); [|lia].
  reflexivity.
Qed.

Lemma calibration_line_sets_one_calibration_witness :
  serialEvents (bytes_of "B21050" ++ [10]) started
  = Ok (set_Vcalibration
          (<[1%nat := F32.div (F32.of_int 1050) (F32.of_int 1000)]> (Vcalibration started))
          (set_whatToDisplay (Int.chr "B")
             (set_index 0 (set_consoleInput (bytes_of "B21050" ++ [0]) started)))).
Proof.
  refine (calibration_line_sets_one_calibration started 66 2 1 0 5 0
            (reachable_setup _ _) _ _ _ _ _ _ _ _ _);
    first [ reflexivity | lia | (vm_compute; congruence) ].
Defined.

(** *** Lines that are no command *)





(** ** Invariants of the running system *)

Lemma every_second_preserves (P : state -> Prop) :
  (forall t, preserves P (set_memo_tempo t)) ->
  preserves P check_balancing -> (forall inp, preserves P (RotactorConfig inp)) ->
  preserves P (fun s => emit (ConsoleDisplay (whatToDisplay s)) s) ->
  preserves P (emit OledDisplay) -> (forall t, preserves P (every_minute t)) ->
  forall inp t, preserves P (every_second inp t).
Proof.
  intros Hm Hc Hr Hd Ho Hmin inp t s Hs. unfold every_second.
  destruct (Int.u32 (t - memo_tempo s) <? 1000); [exact Hs|].
  cbv zeta. apply Hmin, Ho, (Hd _), Hr, Hc, Hm, Hs.
Qed.

Lemma loop_preserves (P : state -> Prop) :
  (forall c, preserves P (set_analogReadsCount c)) ->
  (forall t, preserves P (run_once_block t)) -> (forall inp, preserves P (read_analog_values inp)) ->
  preserves P define_pwm -> preserves P calculate_voltages ->
  (forall inp t, preserves P (every_second inp t)) ->
  forall inp, preserves P (loop inp).
Proof.
  intros Hc Hr Ha Hp Hv Hs inp s H. unfold loop. cbv zeta.
  match goal with |- context [if ?b then _ else _] => destruct b end.
  - apply Hc, Hp, Ha, Hr, H.
  - apply Hs, Hv, Hc, Hp, Ha, Hr, H.
Qed.

Lemma command_preserves (P : state -> Prop) :
  (forall w, display_letter w = true -> preserves P (set_whatToDisplay w)) ->
  (forall msg, preserves P (emit (Println msg))) ->
  (forall l, preserves P (set_Vcalibration l)) ->
  (forall l, preserves P (set_Vmax l)) -> (forall l, preserves P (set_Vmin l)) ->
  preserves P EEPROM_Get -> preserves P EEPROM_Update ->
  forall s s', command s = Ok s' -> P s -> P s'.
Proof.
  intros Hw Hp Hc Hx Hn Hg Hu s s' H Hs.
  assert (HA : P (set_whatToDisplay (Int.chr "A") s)) by (apply Hw; [reflexivity | exact Hs]).
  assert (HB : P (set_whatToDisplay (Int.chr "B") s)) by (apply Hw; [reflexivity | exact Hs]).
  assert (HL : P (set_whatToDisplay (Int.chr "L") s)) by (apply Hw; [reflexivity | exact Hs]).
  assert (HH : P (set_whatToDisplay (Int.chr "H") s)) by (apply Hw; [reflexivity | exact Hs]).
  revert H. unfold command. cbv zeta.
  destruct (is_char _ "b" "B").
  { unfold command_B, store_Vcalibration. cbv zeta.
    destruct (_ >? _); [intros; simplify_eq; apply Hp, HB|].
    destruct (_ || _); [intros; simplify_eq; apply Hp, HB|].
    destruct (_ && _); [intros; simplify_eq; apply Hc, HB | discriminate]. }
  destruct (is_char _ "l" "L").
  { intros; simplify_eq. unfold command_L. cbv zeta.
    destruct (_ || _); [apply Hp, HL|].
    destruct (is_char _ "t" "T"); [apply Hn, HL|].
    destruct (is_char _ "f" "F"); [apply Hn, HL | apply Hp, HL]. }
  destruct (is_char _ "h" "H").
  { intros; simplify_eq. unfold command_H. cbv zeta.
    destruct (_ || _); [apply Hp, HH|].
    destruct (is_char _ "t" "T"); [apply Hx, HH|].
    destruct (is_char _ "f" "F"); [apply Hx, HH | apply Hp, HH]. }
  destruct (is_char _ "e" "E"); [intros; simplify_eq; apply Hg, Hp, HA|].
  destruct (is_char _ "s" "S"); [intros; simplify_eq; apply Hu, Hp, HA|].
  intros; simplify_eq. apply Hp, HA.
Qed.

Lemma serialEvent_preserves (P : state -> Prop) :
  (forall l, preserves P (set_consoleInput l)) -> (forall k, preserves P (set_index k)) ->
  (forall s s', command s = Ok s' -> P s -> P s') ->
  forall incoming s s', serialEvent incoming s = Ok s' -> P s -> P s'.
Proof.
  intros Hb Hi Hc incoming s s' H Hs. revert H.
  unfold serialEvent, store_consoleInput, bind.
  destruct incoming as [b|]; [|intros; simplify_eq; exact Hs].
  destruct (negb _); (destruct (_ && _); [|discriminate]).
  - intros; simplify_eq. apply Hi, Hb, Hs.
  - intros H. apply (Hc _ _ H). apply Hi, Hb, Hs.
Qed.

Lemma reachable_ind_steps (P : state -> Prop) :
  (forall eeprom inp, P (setup inp (power_on eeprom))) ->
  (forall inp, preserves P (loop inp)) ->
  (forall incoming s s', serialEvent incoming s = Ok s' -> P s -> P s') ->
  forall s, reachable s -> P s.
Proof.
  intros H0 Hl He s Hr. induction Hr as [eeprom inp | s s' _ IH Hstep].
  - apply H0.
  - destruct Hstep as [inp s | incoming s s' Hev]; [apply Hl, IH | exact (He _ _ _ Hev IH)].
Qed.

(** *** The outputs *)

Ltac keeps_goal f :=
  try first [ progress unfold run_once_block | progress unfold read_analog_values
            | progress unfold define_pwm
            | progress unfold calculate_voltages, get_cell_voltages, for_down
            | progress unfold check_balancing | progress unfold RotactorConfig
            | progress unfold every_minute
            | progress unfold command_L | progress unfold command_H
            | progress unfold EEPROM_Get | progress unfold EEPROM_Update, EEPROM_write ];
  frame f.

Lemma shunt_runtime (i : nat) (level : bool) :
  (i < 4)%nat -> runtime_event (DigitalWrite (shuntPin i) level) = true.
Proof.
  intros Hi. destruct i as [|[|[|[|]]]]; try lia; reflexivity.
Qed.

Section Trace.
Variable T : list event -> Prop.
Hypothesis T_runtime : forall evs e, runtime_event e = true -> T evs -> T (evs ++ [e]).

Lemma driven_ext (s s' : state) :
  cellNumber s' = cellNumber s -> pwm s' = pwm s -> whatToDisplay s' = whatToDisplay s ->
  output s' = output s -> driven T s -> driven T s'.
Proof. unfold driven. intros -> -> -> ->. tauto. Qed.

Lemma driven_emit (e : event) (s : state) :
  runtime_event e = true -> driven T s -> driven T (emit e s).
Proof.
  intros He (Hc & Hp & Hw & Ho). repeat split; try assumption; try apply Hc; try apply Hp.
  cbn [output emit set_output]. apply T_runtime; assumption.
Qed.

Lemma shunt_loop_driven (lo hi : nat) (level : bool) (s : state) :
  (hi <= 4)%nat -> driven T s ->
  driven T (for_up lo hi (fun i => emit (DigitalWrite (shuntPin i) level)) s).
Proof.
  intros Hhi Hs. apply for_up_bounded_ind; [|exact Hs].
  intros i x Hi Hx. apply driven_emit; [|exact Hx]. apply shunt_runtime. lia.
Qed.

Lemma run_once_block_driven t : preserves (driven T) (run_once_block t).
Proof.
  intros s Hs. unfold run_once_block. destruct (runOnce s); [|exact Hs]. cbv zeta.
  assert (H1 : driven T (for_up (Z.to_nat (cellNumber (set_buzzerON false s))) 4
                           (fun i => emit (DigitalWrite (shuntPin i) true))
                           (set_buzzerON false s))).
  { apply shunt_loop_driven; [lia | exact Hs]. }
  revert H1. generalize (for_up (Z.to_nat (cellNumber (set_buzzerON false s))) 4
                           (fun i => emit (DigitalWrite (shuntPin i) true))
                           (set_buzzerON false s)).
  intros x Hx. destruct (counter x >? 5); [exact Hx|].
  destruct (_ >? 300); [|exact Hx].
  assert (Hn : (Z.to_nat (cellNumber x) <= 4)%nat) by (destruct Hx as ((_ & Hc) & _); lia).
  set (x1 := set_counter _ _).
  assert (Hx1 : driven T x1) by exact Hx.
  change (cellNumber x1) with (cellNumber x).
  assert (Hx2 : driven T (for_up 0 (Z.to_nat (cellNumber x))
                            (fun i => emit (DigitalWrite (shuntPin i) true)) x1))
    by (apply shunt_loop_driven; assumption).
  revert Hx2. generalize (for_up 0 (Z.to_nat (cellNumber x))
                            (fun i => emit (DigitalWrite (shuntPin i) true)) x1).
  intros x2 Hx2.
  apply shunt_loop_driven; [|exact Hx2]. destruct Hx2 as ((_ & Hc) & _). lia.
Qed.

Lemma read_analog_values_driven inp : preserves (driven T) (read_analog_values inp).
Proof.
  intros s Hs. apply (driven_ext s);
    [keeps_goal cellNumber | keeps_goal pwm | keeps_goal whatToDisplay | keeps_goal output
    | exact Hs].
Qed.

Lemma define_pwm_driven : preserves (driven T) define_pwm.
Proof.
  intros s (Hc & Hp & Hw & Ho). unfold define_pwm. cbv zeta.
  assert (Hset : forall v, 0 <= v <= 255 ->
            driven T (emit (AnalogWrite pwmPin (pwm (set_pwm v s))) (set_pwm v s))).
  { intros v Hv. apply driven_emit.
    - cbn [runtime_event pwm set_pwm]. rewrite Z.eqb_refl. cbn [andb].
      apply andb_true_iff. split; apply Z.leb_le; lia.
    - repeat split; cbn [cellNumber pwm whatToDisplay output set_pwm];
        first [assumption | lia]. }
  assert (Hkeep : driven T (emit (AnalogWrite pwmPin (pwm s)) s)).
  { apply driven_emit.
    - cbn [runtime_event]. rewrite Z.eqb_refl. cbn [andb].
      apply andb_true_iff. split; apply Z.leb_le; lia.
    - repeat split; first [assumption | lia]. }
  destruct (_ || _).
  - destruct (Z.gtb_spec (pwm s) 0); [|exact Hkeep].
    apply Hset. rewrite u8_small by lia. lia.
  - destruct (Z.ltb_spec (pwm s) 255); [|exact Hkeep].
    apply Hset. rewrite u8_small by lia. lia.
Qed.

Lemma calculate_voltages_driven : preserves (driven T) calculate_voltages.
Proof.
  intros s Hs. apply (driven_ext s);
    [keeps_goal cellNumber | keeps_goal pwm | keeps_goal whatToDisplay | keeps_goal output
    | exact Hs].
Qed.

Lemma check_balancing_driven : preserves (driven T) check_balancing.
Proof.
  intros s Hs. unfold check_balancing. cbv zeta.
  match goal with |- context [for_up ?lo ?hi ?body s] =>
    assert (Hloop : driven T (for_up lo hi body s));
    [|generalize dependent (for_up lo hi body s)]
  end.
  - apply for_up_bounded_ind; [|exact Hs]. intros i x Hi Hx.
    destruct (F32.gtb _ _); [apply driven_emit; [apply shunt_runtime; lia | exact Hx]|].
    destruct (_ && _); exact Hx.
  - intros x Hx. destruct (buzzerON x); [|exact Hx].
    apply driven_emit; [reflexivity | exact Hx].
Qed.

Lemma RotactorConfig_driven inp : preserves (driven T) (RotactorConfig inp).
Proof.
  intros s (Hc & Hp & Hw & Ho). unfold RotactorConfig. cbv zeta.
  destruct (UrcLevel inp), (DrcLevel inp), (CrcLevel inp);
    match goal with |- context [if ?b then _ else _] => destruct b end;
    (repeat split; try assumption; cbn; lia).
Qed.

Lemma every_minute_driven t : preserves (driven T) (every_minute t).
Proof.
  intros s Hs. apply (driven_ext s);
    [keeps_goal cellNumber | keeps_goal pwm | keeps_goal whatToDisplay | keeps_goal output
    | exact Hs].
Qed.

Lemma loop_driven inp : preserves (driven T) (loop inp).
Proof.
  apply loop_preserves.
  - intros c s Hs. exact Hs.
  - apply run_once_block_driven.
  - apply read_analog_values_driven.
  - apply define_pwm_driven.
  - apply calculate_voltages_driven.
  - apply every_second_preserves.
    + intros t s Hs. exact Hs.
    + apply check_balancing_driven.
    + apply RotactorConfig_driven.
    + intros s Hs. apply driven_emit; [|exact Hs]. apply Hs.
    + intros s Hs. apply driven_emit; [reflexivity | exact Hs].
    + apply every_minute_driven.
Qed.

Lemma EEPROM_Get_driven : preserves (driven T) EEPROM_Get.
Proof.
  intros s Hs. apply (driven_ext s);
    [keeps_goal cellNumber | keeps_goal pwm | keeps_goal whatToDisplay | keeps_goal output
    | exact Hs].
Qed.

Lemma EEPROM_Update_driven : preserves (driven T) EEPROM_Update.
Proof.
  intros s Hs. apply (driven_ext s);
    [keeps_goal cellNumber | keeps_goal pwm | keeps_goal whatToDisplay | keeps_goal output
    | exact Hs].
Qed.

Lemma serialEvent_driven incoming s s' :
  serialEvent incoming s = Ok s' -> driven T s -> driven T s'.
Proof.
  apply serialEvent_preserves.
  - intros l x Hx. exact Hx.
  - intros k x Hx. exact Hx.
  - apply command_preserves.
    + intros w Hw x (Hc & Hp & _ & Ho).
      repeat split; first [assumption | apply Hc | apply Hp].
    + intros msg x Hx. apply driven_emit; [reflexivity | exact Hx].
    + intros l x Hx. exact Hx.
    + intros l x Hx. exact Hx.
    + intros l x Hx. exact Hx.
    + apply EEPROM_Get_driven.
    + apply EEPROM_Update_driven.
Qed.
End Trace.

Lemma setup_output eeprom inp : output (setup inp (power_on eeprom)) = setup_trace.
Proof.
  assert (Hr : keeps output (RotactorConfig inp)) by (intros x; keeps_goal output).
  assert (Hg : keeps output EEPROM_Get) by (intros x; keeps_goal output).
  unfold setup. cbv zeta. unfold FIRST_USE. cbv iota.
  cbn [output emit set_output]. rewrite Hr, Hg. reflexivity.
Qed.

Lemma power_on_ranges eeprom : driven (fun _ => True) (power_on eeprom).
Proof. repeat split; cbn [cellNumber pwm power_on]; lia. Qed.

Lemma ranges_emit (e : event) (s : state) :
  driven (fun _ => True) s -> driven (fun _ => True) (emit e s).
Proof. intros H. exact H. Qed.

Lemma setup_driven (T : list event -> Prop) eeprom inp :
  T setup_trace -> driven T (setup inp (power_on eeprom)).
Proof.
  intros HT.
  assert (Hany : forall (evs : list event) (e : event), runtime_event e = true -> True -> True)
    by auto.
  assert (Hx : driven (fun _ => True) (setup inp (power_on eeprom))).
  { unfold setup. cbv zeta.
    apply ranges_emit, (RotactorConfig_driven _ inp). unfold FIRST_USE. cbv iota.
    apply (EEPROM_Get_driven _), ranges_emit, ranges_emit, (shunt_loop_driven _ Hany);
      [lia|].
    apply ranges_emit, power_on_ranges. }
  destruct Hx as (Hc & Hp & Hw & _). unfold driven. rewrite setup_output. auto.
Qed.

Lemma reachable_driven (T : list event -> Prop) :
  (forall evs e, runtime_event e = true -> T evs -> T (evs ++ [e])) -> T setup_trace ->
  forall s, reachable s -> driven T s.
Proof.
  intros Hrun H0. apply reachable_ind_steps.
  - intros eeprom inp. apply setup_driven, H0.
  - apply loop_driven, Hrun.
  - apply serialEvent_driven, Hrun.
Qed.

Lemma runtime_wired (e : event) : runtime_event e = true -> wired e = true.
Proof. destruct e; cbn [wired]; intros H; rewrite ?H, ?orb_true_r; reflexivity. Qed.

(** X8. In every reachable state the selected number of cells is 1 to 4,
    the console report is on one of its four letters, and every output
    made so far is on a wired pin: a level on the enable pin or on one of
    the four shunt pins, a duty cycle of 0 to 255 on the PWM pin, a tone on
    the buzzer pin, a console report or message, a refresh of the display. *)
Theorem outputs_stay_on_wired_pins (s : state) :
  reachable s ->
  1 <= cellNumber s <= 4 /\ display_letter (whatToDisplay s) = true
  /\ Forall (fun e => wired e = true) (output s).
Proof.
  intros Hr.
  destruct (reachable_driven (Forall (fun e => wired e = true))) with (s := s)
    as (Hc & _ & Hw & Ho); [| |exact Hr|auto].
  - intros evs e He Hevs. apply Forall_app. split; [exact Hevs|].
    repeat constructor. apply runtime_wired, He.
  - repeat constructor.
Qed.

Lemma outputs_stay_on_wired_pins_witness :
  1 <= cellNumber alarmed <= 4 /\ display_letter (whatToDisplay alarmed) = true
  /\ Forall (fun e => wired e = true) (output alarmed).
Proof.
  exact (outputs_stay_on_wired_pins alarmed (reachable_run _ _ (reachable_setup _ _))).
Defined.

Lemma levels_written_app pin evs1 evs2 :
  levels_written pin (evs1 ++ evs2) = levels_written pin evs1 ++ levels_written pin evs2.
Proof. apply omap_app. Qed.

(** X9. The converter driver is enabled once and for all.  [setup] writes,
    in this order: enable low, the four shunts low, a duty cycle of 0, the
    greeting, enable high; and in every reachable state the levels written
    to the enable pin are this low then this high, no other. *)
Theorem driver_enabled_once_and_for_all :
  (forall eeprom inp, output (setup inp (power_on eeprom)) = setup_trace)
  /\ (forall s, reachable s -> levels_written enablePin (output s) = [false; true]).
Proof.
  split; [exact setup_output|]. intros s Hr.
  destruct (reachable_driven (fun evs => levels_written enablePin evs = [false; true]))
    with (s := s) as (_ & _ & _ & Ho); [| |exact Hr|exact Ho].
  - intros evs e He Hevs. rewrite levels_written_app, Hevs.
    destruct e as [pin level| | | | |]; try reflexivity.
    unfold levels_written. simpl.
    destruct (Z.eqb_spec pin enablePin) as [-> | _]; [discriminate He | reflexivity].
  - reflexivity.
Qed.

(** *** The duty cycle written to the converter *)

Lemma analog_writes_app evs1 evs2 :
  analog_writes (evs1 ++ evs2) = analog_writes evs1 ++ analog_writes evs2.
Proof. apply omap_app. Qed.

#[local] Hint Rewrite analog_writes_app levels_written_app app_nil_r : frame.

(** [quiet F] shows that code which emits none of the events [F] selects
    leaves [F (output s)] unchanged. *)
Ltac quiet F :=
  repeat first
    [ progress simpl
    | progress autorewrite with frame
    | rewrite (for_up_frame (fun x => F (output x)))
        by (intros; repeat case_match; simpl; autorewrite with frame; reflexivity)
    | case_match ];
  try reflexivity.

Ltac quiet_goal F :=
  try first [ progress unfold run_once_block | progress unfold read_analog_values
            | progress unfold calculate_voltages, get_cell_voltages, for_down
            | progress unfold check_balancing | progress unfold RotactorConfig
            | progress unfold every_minute
            | progress unfold command_L | progress unfold command_H
            | progress unfold EEPROM_Get | progress unfold EEPROM_Update, EEPROM_write ];
  quiet F.

Lemma loop_after_pwm {A : Type} (f : state -> A) :
  (forall c, keeps f (set_analogReadsCount c)) -> keeps f calculate_voltages ->
  (forall inp t, keeps f (every_second inp t)) ->
  forall inp s,
    f (loop inp s)
    = f (define_pwm (read_analog_values inp (run_once_block (Int.u32 (millis inp)) s))).
Proof.
  intros Hc Hv Hs inp s. unfold loop. cbv zeta.
  match goal with |- context [if ?b then _ else _] => destruct b end.
  - rewrite Hc. reflexivity.
  - rewrite Hs, Hv, Hc. reflexivity.
Qed.

Lemma define_pwm_duty_writes (s : state) :
  duty_writes (define_pwm s) = duty_writes s ++ [(pwmPin, pwm (define_pwm s))].
Proof.
  unfold define_pwm, duty_writes. cbv zeta.
  repeat match goal with |- context [if ?b then _ else _] => destruct b end;
    cbn [output emit set_output set_pwm pwm]; rewrite analog_writes_app; reflexivity.
Qed.

Lemma loop_duty_writes (inp : inputs) (s : state) :
  duty_writes (loop inp s) = duty_writes s ++ [(pwmPin, pwm (loop inp s))].
Proof.
  rewrite (loop_after_pwm duty_writes), (loop_after_pwm pwm).
  - rewrite define_pwm_duty_writes. f_equal.
    assert (H1 : keeps duty_writes (read_analog_values inp))
      by (intros x; unfold duty_writes; quiet_goal analog_writes).
    assert (H2 : keeps duty_writes (run_once_block (Int.u32 (millis inp))))
      by (intros x; unfold duty_writes; quiet_goal analog_writes).
    rewrite H1, H2. reflexivity.
  - intros c x. reflexivity.
  - intros x. apply calculate_voltages_pwm.
  - intros i t x. apply every_second_pwm.
  - intros c x. reflexivity.
  - intros x. unfold duty_writes. quiet_goal analog_writes.
  - apply (every_second_keeps duty_writes);
      intros; intros x; unfold duty_writes; quiet_goal analog_writes.
Qed.

Lemma serialEvent_duty_writes incoming s s' :
  serialEvent incoming s = Ok s' -> duty_writes s' = duty_writes s.
Proof.
  intros H.
  apply (serialEvent_preserves (fun x => duty_writes x = duty_writes s)) with (4 := H);
    [| | |reflexivity].
  - intros l x Hx. exact Hx.
  - intros k x Hx. exact Hx.
  - apply command_preserves.
    + intros w _ x Hx. exact Hx.
    + intros msg x Hx. rewrite <- Hx. unfold duty_writes. quiet analog_writes.
    + intros l x Hx. exact Hx.
    + intros l x Hx. exact Hx.
    + intros l x Hx. exact Hx.
    + intros x Hx. rewrite <- Hx. unfold duty_writes. quiet_goal analog_writes.
    + intros x Hx. rewrite <- Hx. unfold duty_writes. quiet_goal analog_writes.
Qed.

Lemma reachable_duty (s : state) :
  reachable s -> last (duty_writes s) = Some (pwmPin, pwm s).
Proof.
  induction 1 as [eeprom inp | s s' _ IH Hstep].
  - unfold duty_writes. rewrite setup_output, setup_pwm. reflexivity.
  - destruct Hstep as [inp s | incoming s s' Hev].
    + rewrite loop_duty_writes. apply last_snoc.
    + rewrite (serialEvent_duty_writes _ _ _ Hev), (serialEvent_pwm _ _ _ Hev). exact IH.
Qed.

(** X10. Every pass of [loop] writes the duty cycle once, to the PWM pin,
    the value being the duty it leaves; [serialEvent] writes none.  Hence
    in every reachable state the last duty cycle written is the current
    one. *)
Theorem duty_cycle_written_on_every_pass :
  (forall inp s,
      analog_writes (output (loop inp s))
      = analog_writes (output s) ++ [(pwmPin, pwm (loop inp s))])
  /\ (forall incoming s s',
        serialEvent incoming s = Ok s' ->
        analog_writes (output s') = analog_writes (output s))
  /\ (forall s, reachable s -> last (analog_writes (output s)) = Some (pwmPin, pwm s)).
Proof.
  split; [exact loop_duty_writes|]. split; [exact serialEvent_duty_writes | exact reachable_duty].
Qed.

(** *** The run-once block *)

Lemma for_up_emit_output (lo hi : nat) (ev : nat -> event) (s : state) :
  output (for_up lo hi (fun i => emit (ev i)) s) = output s ++ map ev (seq lo (hi - lo)).
Proof.
  unfold for_up. generalize (seq lo (hi - lo)). intros l. revert s.
  induction l as [|i l IH]; intros s; cbn [foldl map].
  - rewrite app_nil_r. reflexivity.
  - rewrite IH. cbn [output emit set_output]. rewrite <- app_assoc. reflexivity.
Qed.

Lemma run_once_block_pending (t : Z) (s : state) :
  runOnce s = true ->
  let n := Z.to_nat (cellNumber s) in
  output (run_once_block t s)
  = output s ++ shunts true (seq n (4 - n))
    ++ (if advancing t s then shunts true (seq 0 n) ++ shunts false (seq 0 n) else [])
  /\ buzzerON (run_once_block t s) = false
  /\ runOnce (run_once_block t s) = (counter s <=? 5)
  /\ counter (run_once_block t s)
     = (if 5 <? counter s then 0
        else if advancing t s then Int.u8 (counter s + 1) else counter s).
Proof.
  intros Hrun n. unfold run_once_block, advancing. rewrite Hrun. cbv zeta.
  set (s1 := for_up _ 4 _ _).
  assert (Hout : output s1 = output s ++ shunts true (seq n (4 - n)))
    by (subst s1; rewrite for_up_emit_output; reflexivity).
  assert (Hcnt : counter s1 = counter s) by (subst s1; frame counter).
  assert (Hmem : memo_tempo_shuntON s1 = memo_tempo_shuntON s)
    by (subst s1; frame memo_tempo_shuntON).
  assert (Hcell : cellNumber s1 = cellNumber s) by (subst s1; frame cellNumber).
  assert (Hbuz : buzzerON s1 = false) by (subst s1; frame buzzerON).
  assert (Hro : runOnce s1 = true) by (subst s1; rewrite <- Hrun; frame runOnce).
  clearbody s1. rewrite Hcnt, Hmem, Z.gtb_ltb, (Z.leb_antisym 5), (Z.gtb_ltb _ 300).
  destruct (5 <? counter s); cbn [negb andb].
  - cbn [output buzzerON runOnce counter set_counter set_runOnce].
    rewrite Hout, app_nil_r. auto.
  - destruct (300 <? _).
    + cbn [cellNumber set_counter set_memo_tempo_shuntON]. rewrite Hcell. fold n.
      rewrite !for_up_emit_output, !(for_up_frame buzzerON), !(for_up_frame runOnce),
        !(for_up_frame counter), !(for_up_frame cellNumber) by reflexivity.
      cbn [output buzzerON runOnce counter cellNumber set_counter set_memo_tempo_shuntON].
      rewrite Hout, Hcnt, Hcell, <- !app_assoc, !Nat.sub_0_r. fold n. auto.
    + rewrite Hout, app_nil_r. auto.
Qed.

Lemma pulses_counted_ext (s s' : state) :
  counter s' = counter s -> (runOnce s' = false -> runOnce s = false) ->
  pulses_counted s -> pulses_counted s'.
Proof. unfold pulses_counted. intros -> Hr [Hc H0]. auto. Qed.

Ltac counted_kept :=
  intros x Hx; apply (pulses_counted_ext x);
    [quiet_goal analog_writes | intros Hr; rewrite <- Hr; symmetry; quiet_goal analog_writes
    | exact Hx].

Lemma run_once_block_counted t : preserves pulses_counted (run_once_block t).
Proof.
  intros s [Hc H0]. destruct (runOnce s) eqn:Hrun.
  - destruct (run_once_block_pending t s Hrun) as (_ & _ & Hr & Hn).
    unfold pulses_counted. rewrite Hr, Hn.
    destruct (Z.ltb_spec 5 (counter s)); destruct (Z.leb_spec (counter s) 5); try lia.
    split; [|discriminate]. destruct (advancing t s); [rewrite u8_small by lia|]; lia.
  - unfold run_once_block. rewrite Hrun. split; [exact Hc | intros _; apply H0; reflexivity].
Qed.

Lemma RotactorConfig_counted inp : preserves pulses_counted (RotactorConfig inp).
Proof.
  intros s Hs. apply (pulses_counted_ext s); [keeps_goal counter | | exact Hs].
  rewrite RotactorConfig_runOnce. destruct (decide _); [auto | discriminate].
Qed.

Lemma every_minute_counted t : preserves pulses_counted (every_minute t).
Proof.
  intros s Hs. apply (pulses_counted_ext s); [keeps_goal counter | | exact Hs].
  unfold every_minute. destruct (_ <? 60000); [auto | discriminate].
Qed.

Lemma loop_counted inp : preserves pulses_counted (loop inp).
Proof.
  apply loop_preserves.
  - intros c s Hs. exact Hs.
  - apply run_once_block_counted.
  - intros i s Hs. apply (pulses_counted_ext s);
      [keeps_goal counter | intros Hr; rewrite <- Hr; symmetry; keeps_goal runOnce | exact Hs].
  - intros s Hs. apply (pulses_counted_ext s);
      [keeps_goal counter | intros Hr; rewrite <- Hr; symmetry; keeps_goal runOnce | exact Hs].
  - intros s Hs. apply (pulses_counted_ext s);
      [keeps_goal counter | intros Hr; rewrite <- Hr; symmetry; keeps_goal runOnce | exact Hs].
  - apply every_second_preserves.
    + intros t s Hs. exact Hs.
    + intros s Hs. apply (pulses_counted_ext s);
        [keeps_goal counter | intros Hr; rewrite <- Hr; symmetry; keeps_goal runOnce | exact Hs].
    + apply RotactorConfig_counted.
    + intros s Hs. exact Hs.
    + intros s Hs. exact Hs.
    + apply every_minute_counted.
Qed.

Lemma serialEvent_counted incoming s s' :
  serialEvent incoming s = Ok s' -> pulses_counted s -> pulses_counted s'.
Proof.
  apply serialEvent_preserves.
  - intros l x Hx. exact Hx.
  - intros k x Hx. exact Hx.
  - apply command_preserves; try (intros ? x Hx; exact Hx).
    + intros w _ x Hx. exact Hx.
    + intros s0 Hs. apply (pulses_counted_ext s0);
        [keeps_goal counter | intros Hr; rewrite <- Hr; symmetry; keeps_goal runOnce | exact Hs].
    + intros s0 Hs. apply (pulses_counted_ext s0);
        [keeps_goal counter | intros Hr; rewrite <- Hr; symmetry; keeps_goal runOnce | exact Hs].
Qed.

Lemma setup_counted eeprom inp : pulses_counted (setup inp (power_on eeprom)).
Proof.
  assert (Hc : counter (setup inp (power_on eeprom)) = 0).
  { unfold setup. cbv zeta. unfold FIRST_USE. cbv iota.
    change (counter (emit ?e ?x)) with (counter x).
    assert (H1 : keeps counter (RotactorConfig inp)) by (intros x; keeps_goal counter).
    assert (H2 : keeps counter EEPROM_Get) by (intros x; keeps_goal counter).
    rewrite H1, H2. frame counter. }
  split; [lia | intros _; exact Hc].
Qed.

Lemma reachable_counted (s : state) : reachable s -> pulses_counted s.
Proof.
  apply reachable_ind_steps.
  - apply setup_counted.
  - apply loop_counted.
  - apply serialEvent_counted.
Qed.

(** X11. The run-once block (lines 153-168).  With [runOnce] clear it does
    nothing.  With [runOnce] set it stops the alarm and switches on the
    shunts of the cells beyond the selected ones; then, if six pulses are
    counted, it clears the counter and [runOnce]; otherwise, if more than
    300 ms have passed since the last pulse, it counts one more and
    switches the shunts of the selected cells on, then off.  In every
    reachable state the counter is 0 to 6, and 0 when the block is over. *)
Theorem run_once_block_pulses_the_shunts :
  (forall t s, runOnce s = false -> run_once_block t s = s)
  /\ (forall t s, runOnce s = true ->
        let n := Z.to_nat (cellNumber s) in
        output (run_once_block t s)
        = output s ++ shunts true (seq n (4 - n))
          ++ (if advancing t s then shunts true (seq 0 n) ++ shunts false (seq 0 n) else [])
        /\ buzzerON (run_once_block t s) = false
        /\ runOnce (run_once_block t s) = (counter s <=? 5)
        /\ counter (run_once_block t s)
           = (if 5 <? counter s then 0
              else if advancing t s then Int.u8 (counter s + 1) else counter s))
  /\ (forall s, reachable s -> 0 <= counter s <= 6 /\ (runOnce s = false -> counter s = 0)).
Proof.
  split; [|split].
  - intros t s H. unfold run_once_block. rewrite H. reflexivity.
  - exact run_once_block_pending.
  - exact reachable_counted.
Qed.

(** *** Balancing *)

Lemma check_balancing_loop (s : state) (cells : list nat) (x : state) :
  Vcell x = Vcell s -> Vmax x = Vmax s -> Vmin x = Vmin s -> cellModel x = cellModel s ->
  oneMinute x = oneMinute s ->
  let body i x :=
    if F32.gtb (Vcell x !!! i) (Vmax x !!! Nat.b2n (cellModel x))
    then emit (DigitalWrite (shuntPin i) true) x
    else if oneMinute x && F32.ltb (Vcell x !!! i) (Vmin x !!! Nat.b2n (cellModel x))
         then set_buzzerON true x
         else x in
  let x' := foldl (fun x i => body i x) x cells in
  buzzerON x'
  = buzzerON x
    || (oneMinute s && existsb (fun i => negb (above_Vmax s i) && below_Vmin s i) cells)
  /\ output x' = output x ++ shunts true (List.filter (above_Vmax s) cells).
Proof.
  intros Hc Hx Hn Hm Ho body. revert x Hc Hx Hn Hm Ho.
  induction cells as [|i cells IH]; intros x Hc Hx Hn Hm Ho; cbn [foldl existsb List.filter].
  - rewrite andb_false_r, orb_false_r. cbn [shunts map]. rewrite app_nil_r. auto.
  - assert (Hbody : Vcell (body i x) = Vcell s /\ Vmax (body i x) = Vmax s
                    /\ Vmin (body i x) = Vmin s /\ cellModel (body i x) = cellModel s
                    /\ oneMinute (body i x) = oneMinute s
                    /\ buzzerON (body i x)
                       = buzzerON x || (oneMinute s && (negb (above_Vmax s i) && below_Vmin s i))
                    /\ output (body i x)
                       = output x ++ (if above_Vmax s i
                                      then [DigitalWrite (shuntPin i) true] else [])).
    { subst body. cbv beta. unfold above_Vmax, below_Vmin. rewrite Hc, Hx, Hn, Hm, Ho.
      destruct (F32.gtb _ _); cbn [negb andb].
      - rewrite andb_false_r, orb_false_r. repeat apply conj; first [assumption | reflexivity].
      - destruct (oneMinute s) eqn:Hone; cbn [andb].
        + destruct (F32.ltb _ _); rewrite ?orb_true_r, ?orb_false_r, app_nil_r;
            repeat apply conj; first [assumption | reflexivity].
        + rewrite orb_false_r, app_nil_r. repeat apply conj; first [assumption | reflexivity]. }
    destruct Hbody as (Hc' & Hx' & Hn' & Hm' & Ho' & Hb' & Hout').
    destruct (IH (body i x) Hc' Hx' Hn' Hm' Ho') as [IHb IHo].
    rewrite IHb, IHo, Hb', Hout'. split.
    + destruct (buzzerON x), (oneMinute s), (negb (above_Vmax s i) && below_Vmin s i);
        reflexivity.
    + destruct (above_Vmax s i); cbn [shunts map]; rewrite <- app_assoc; reflexivity.
Qed.

Lemma check_balancing_cells (s : state) :
  let high := List.filter (above_Vmax s) [0; 1; 2; 3]%nat in
  let low := existsb (fun i => negb (above_Vmax s i) && below_Vmin s i) [0; 1; 2; 3]%nat in
  buzzerON (check_balancing s) = buzzerON s || (oneMinute s && low)
  /\ output (check_balancing s)
     = output s ++ shunts true high
       ++ (if buzzerON (check_balancing s) then [Tone buzzerPin 440 50] else []).
Proof.
  intros high low.
  destruct (check_balancing_loop s [0; 1; 2; 3]%nat s) as [Hb Ho]; try reflexivity.
  cbv zeta in Hb, Ho. fold high in Ho. fold low in Hb.
  unfold check_balancing, for_up. cbv zeta. cbn [seq Nat.sub].
  set (x' := foldl _ s _) in *.
  destruct (buzzerON x') eqn:Hx'.
  - cbn [buzzerON output emit set_output]. rewrite Hx', Ho, <- app_assoc. auto.
  - rewrite Hx', Ho, app_nil_r. auto.
Qed.

(** X12. Balancing and undervoltage (lines 213-217).  [check_balancing]
    switches on, in order, the shunt of every cell that reads above the
    Vmax of the selected chemistry, and never switches one off; it raises
    the alarm when the first minute has elapsed and a cell that is not
    above Vmax reads under Vmin, and never clears it; then it sounds the
    buzzer once if the alarm is on. *)
Theorem balancing_switches_on_the_high_cells (s : state) :
  let high := List.filter (above_Vmax s) [0; 1; 2; 3]%nat in
  let low := existsb (fun i => negb (above_Vmax s i) && below_Vmin s i) [0; 1; 2; 3]%nat in
  buzzerON (check_balancing s) = buzzerON s || (oneMinute s && low)
  /\ output (check_balancing s)
     = output s ++ shunts true high
       ++ (if buzzerON (check_balancing s) then [Tone buzzerPin 440 50] else []).
Proof. exact (check_balancing_cells s). Qed.

(** *** The time gates *)

Lemma elapsed_u32 (memo elapsed : Z) :
  0 <= memo < 2 ^ 32 -> 0 <= elapsed < 2 ^ 32 ->
  Int.u32 (Int.u32 (memo + elapsed) - memo) = elapsed.
Proof.
  unfold Int.u32. change (2 ^ 32) with 4294967296. intros Hm He.
  destruct (Z_lt_le_dec (memo + elapsed) 4294967296) as [Hlt | Hge].
  - rewrite (Z.mod_small (memo + elapsed)) by lia.
    replace (memo + elapsed - memo) with elapsed by lia. apply Z.mod_small. lia.
  - assert (H1 : (memo + elapsed) mod 4294967296 = memo + elapsed - 4294967296).
    { symmetry. apply (Z.mod_unique _ _ 1); lia. }
    rewrite H1. symmetry. apply (Z.mod_unique _ _ (-1)); lia.
Qed.

(** X13. The three time gates across the roll-over of [millis].  Whatever
    the 32-bit time of the last mark, the one-second block does nothing
    until 1000 ms have elapsed since it, and then marks the time and ends
    with the refresh of the display; the one-minute block does nothing
    until 60000 ms have elapsed, and then marks the time and sets
    [oneMinute] and [runOnce]; the pulse gate of the run-once block opens
    after more than 300 ms. *)
Theorem time_gates_survive_rollover :
  (forall inp s elapsed,
      0 <= memo_tempo s < 2 ^ 32 -> 0 <= elapsed < 2 ^ 32 ->
      let tempo := Int.u32 (memo_tempo s + elapsed) in
      (elapsed < 1000 -> every_second inp tempo s = s)
      /\ (1000 <= elapsed ->
          memo_tempo (every_second inp tempo s) = tempo
          /\ last (output (every_second inp tempo s)) = Some OledDisplay))
  /\ (forall s elapsed,
        0 <= memo_tempo_tendancy s < 2 ^ 32 -> 0 <= elapsed < 2 ^ 32 ->
        let tempo := Int.u32 (memo_tempo_tendancy s + elapsed) in
        (elapsed < 60000 -> every_minute tempo s = s)
        /\ (60000 <= elapsed ->
            memo_tempo_tendancy (every_minute tempo s) = tempo
            /\ oneMinute (every_minute tempo s) = true
            /\ runOnce (every_minute tempo s) = true))
  /\ (forall s elapsed,
        0 <= memo_tempo_shuntON s < 2 ^ 32 -> 0 <= elapsed < 2 ^ 32 ->
        advancing (Int.u32 (memo_tempo_shuntON s + elapsed)) s
        = (counter s <=? 5) && (300 <? elapsed)).
Proof.
  split; [|split].
  - intros inp s elapsed Hm He tempo. unfold every_second. subst tempo.
    rewrite (elapsed_u32 _ _ Hm He). split; intros H.
    + destruct (Z.ltb_spec elapsed 1000); [reflexivity | lia].
    + destruct (Z.ltb_spec elapsed 1000); [lia|]. cbv zeta.
      assert (Hk : forall t, keeps memo_tempo (every_minute t)) by (intros t x; keeps_goal memo_tempo).
      assert (Ho : forall t, keeps output (every_minute t)) by (intros t x; keeps_goal output).
      assert (Hr : keeps memo_tempo (RotactorConfig inp)) by (intros x; keeps_goal memo_tempo).
      assert (Hc : keeps memo_tempo check_balancing) by (intros x; keeps_goal memo_tempo).
      rewrite Hk, Ho. cbn [memo_tempo output emit set_output]. rewrite Hr, Hc. split.
      * reflexivity.
      * apply last_snoc.
  - intros s elapsed Hm He tempo. unfold every_minute. subst tempo.
    rewrite (elapsed_u32 _ _ Hm He). split; intros H.
    + destruct (Z.ltb_spec elapsed 60000); [reflexivity | lia].
    + destruct (Z.ltb_spec elapsed 60000); [lia|]. cbv zeta.
      cbn [memo_tempo_tendancy oneMinute runOnce set_runOnce set_oneMinute].
      rewrite (for_up_frame memo_tempo_tendancy) by reflexivity. auto.
  - intros s elapsed Hm He. unfold advancing. rewrite (elapsed_u32 _ _ Hm He). reflexivity.
Qed.

(** *** The conversion of a reading *)

(** X14. The scale of the conversion (line 197) with a calibration of 1.000:
    on each of the four channels the node voltage grows strictly with the
    reading over 0..1023, a reading of 0 gives 0 V and a reading of 1023
    gives exactly 5, 10, 15 and 20 V. *)
Theorem reading_scale (i : nat) (r : Z) :
  (i < 4)%nat -> 0 <= r < 1023 ->
  F32.ltb (single_reading r i) (single_reading (r + 1) i) = true
  /\ F32.eqb (single_reading 0 i) (F32.of_int 0) = true
  /\ single_reading 1023 i = F32.of_int (5 * (Z.of_nat i + 1)).
Proof.
  intros Hi Hr.
  assert (Hall : forallb (fun i =>
                   forallb (fun r => F32.ltb (single_reading r i) (single_reading (r + 1) i))
                     (Zrange 0 1023)
                   && F32.eqb (single_reading 0 i) (F32.of_int 0))
                 [0; 1; 2; 3]%nat = true) by (vm_compute; reflexivity).
  rewrite forallb_forall in Hall. specialize (Hall i).
  assert (Hin : In i [0; 1; 2; 3]%nat) by (simpl; lia).
  apply Hall in Hin. rewrite !andb_true_iff in Hin. destruct Hin as [Hlt H0].
  split; [|split; [exact H0|]].
  - apply (forallb_Zrange _ 0 1023 Hlt). lia.
  - destruct i as [|[|[|[|]]]]; try lia; vm_compute; reflexivity.
Qed.

(** The readings 800 and 801 on the bottom channel. *)
Lemma reading_scale_witness :
  F32.ltb (single_reading 800 0) (single_reading (800 + 1) 0) = true
  /\ F32.eqb (single_reading 0 0) (F32.of_int 0) = true
  /\ single_reading 1023 0 = F32.of_int (5 * (Z.of_nat 0 + 1)).
Proof. apply (reading_scale 0 800); lia. Defined.

(** *** What a pass measures *)

Lemma read_analog_values_cumul (inp : inputs) (s : state) (c0 c1 c2 c3 : F32.float) :
  VcellCumul s = [c0; c1; c2; c3] ->
  VcellCumul (read_analog_values inp s)
  = [F32.add c0 (F32.of_int (reading inp 0)); F32.add c1 (F32.of_int (reading inp 1));
     F32.add c2 (F32.of_int (reading inp 2)); F32.add c3 (F32.of_int (reading inp 3))].
Proof.
  intros H. unfold read_analog_values, for_up, reading. simpl. rewrite H. reflexivity.
Qed.

Lemma calculate_voltages_nodes (s : state) (c0 c1 c2 c3 k0 k1 k2 k3 : F32.float) :
  VcellCumul s = [c0; c1; c2; c3] -> Vcalibration s = [k0; k1; k2; k3] ->
  length (Vcell s) = 4%nat ->
  let n := analogReadsCount s in
  let A0 := node_voltage c0 n k0 0 in
  let A1 := node_voltage c1 n k1 1 in
  let A2 := node_voltage c2 n k2 2 in
  let A3 := node_voltage c3 n k3 3 in
  Vcell (calculate_voltages s) = [A0; F32.sub A1 A0; F32.sub A2 A1; F32.sub A3 A2]
  /\ Valim (calculate_voltages s) = A3.
Proof.
  intros Hc Hk Hv. destruct (Vcell s) as [|v0 [|v1 [|v2 [|v3 [|]]]]] eqn:Hcell;
    try discriminate Hv.
  unfold calculate_voltages, get_cell_voltages, for_down, for_up. simpl.
  rewrite Hc, Hk, Hcell. simpl. split; reflexivity.
Qed.

Lemma foldl_preserves (P : state -> Prop) (body : nat -> state -> state) (l : list nat)
    (s : state) :
  (forall i x, P x -> P (body i x)) -> P s -> P (foldl (fun x i => body i x) s l).
Proof.
  intros Hb. revert s. induction l as [|i l IH]; intros s Hs; cbn [foldl]; auto.
Qed.

Lemma four_cells_ext (s s' : state) : Vcell s' = Vcell s -> four_cells s -> four_cells s'.
Proof. unfold four_cells. intros ->. auto. Qed.

Lemma calculate_voltages_four_cells : preserves four_cells calculate_voltages.
Proof.
  intros s Hs. unfold four_cells in *.
  destruct (Vcell s) as [|v0 [|v1 [|v2 [|v3 [|]]]]] eqn:Hcell; try discriminate Hs.
  unfold calculate_voltages, get_cell_voltages, for_down, for_up. simpl.
  rewrite Hcell. reflexivity.
Qed.

Ltac four_cells_kept :=
  intros x Hx; unfold four_cells in *; rewrite <- Hx; f_equal; keeps_goal Vcell.

Lemma loop_four_cells inp : preserves four_cells (loop inp).
Proof.
  apply loop_preserves.
  - intros c s Hs. exact Hs.
  - intros t. four_cells_kept.
  - intros i. four_cells_kept.
  - four_cells_kept.
  - apply calculate_voltages_four_cells.
  - apply every_second_preserves.
    + intros t s Hs. exact Hs.
    + four_cells_kept.
    + intros i. four_cells_kept.
    + intros s Hs. exact Hs.
    + intros s Hs. exact Hs.
    + intros t. four_cells_kept.
Qed.

Lemma serialEvent_four_cells incoming s s' :
  serialEvent incoming s = Ok s' -> four_cells s -> four_cells s'.
Proof.
  apply serialEvent_preserves.
  - intros l x Hx. exact Hx.
  - intros k x Hx. exact Hx.
  - apply command_preserves; try (intros ? x Hx; exact Hx).
    + intros w _ x Hx. exact Hx.
    + four_cells_kept.
    + four_cells_kept.
Qed.

Lemma setup_four_cells eeprom inp : four_cells (setup inp (power_on eeprom)).
Proof.
  unfold four_cells.
  assert (H : Vcell (setup inp (power_on eeprom)) = Vcell (power_on eeprom)).
  { unfold setup. cbv zeta. unfold FIRST_USE. cbv iota.
    change (Vcell (emit ?e ?x)) with (Vcell x).
    assert (H1 : keeps Vcell (RotactorConfig inp)) by (intros x; keeps_goal Vcell).
    assert (H2 : keeps Vcell EEPROM_Get) by (intros x; keeps_goal Vcell).
    rewrite H1, H2. frame Vcell. }
  rewrite H. reflexivity.
Qed.

Lemma reachable_four_cells (s : state) : reachable s -> four_cells s.
Proof.
  apply reachable_ind_steps.
  - apply setup_four_cells.
  - apply loop_four_cells.
  - apply serialEvent_four_cells.
Qed.

Lemma measuring_sample (inp : inputs) (tempo : Z) (s : state) :
  VcellCumul s = [F32.of_int 0; F32.of_int 0; F32.of_int 0; F32.of_int 0] ->
  let s3 := define_pwm (read_analog_values inp (run_once_block tempo s)) in
  VcellCumul s3
  = [F32.add (F32.of_int 0) (F32.of_int (reading inp 0));
     F32.add (F32.of_int 0) (F32.of_int (reading inp 1));
     F32.add (F32.of_int 0) (F32.of_int (reading inp 2));
     F32.add (F32.of_int 0) (F32.of_int (reading inp 3))]
  /\ Vcalibration s3 = Vcalibration s /\ Vcell s3 = Vcell s
  /\ analogReadsCount s3 = analogReadsCount s.
Proof.
  intros Hc s3. subst s3.
  assert (Hr : forall x, VcellCumul (run_once_block tempo x) = VcellCumul x
                         /\ Vcalibration (run_once_block tempo x) = Vcalibration x
                         /\ Vcell (run_once_block tempo x) = Vcell x
                         /\ analogReadsCount (run_once_block tempo x) = analogReadsCount x).
  { intros x. repeat apply conj;
      [keeps_goal VcellCumul | keeps_goal Vcalibration | keeps_goal Vcell
      | keeps_goal analogReadsCount]. }
  assert (Ha : forall x, Vcalibration (read_analog_values inp x) = Vcalibration x
                         /\ Vcell (read_analog_values inp x) = Vcell x
                         /\ analogReadsCount (read_analog_values inp x) = analogReadsCount x).
  { intros x. repeat apply conj;
      [keeps_goal Vcalibration | keeps_goal Vcell | keeps_goal analogReadsCount]. }
  assert (Hp : forall x, VcellCumul (define_pwm x) = VcellCumul x
                         /\ Vcalibration (define_pwm x) = Vcalibration x
                         /\ Vcell (define_pwm x) = Vcell x
                         /\ analogReadsCount (define_pwm x) = analogReadsCount x).
  { intros x. repeat apply conj;
      [keeps_goal VcellCumul | keeps_goal Vcalibration | keeps_goal Vcell
      | keeps_goal analogReadsCount]. }
  destruct (Hr s) as (Hc1 & Hk1 & Hv1 & Hn1). rewrite Hc in Hc1.
  revert Hc1 Hk1 Hv1 Hn1. generalize (run_once_block tempo s). intros s1 Hc1 Hk1 Hv1 Hn1.
  pose proof (read_analog_values_cumul inp s1 _ _ _ _ Hc1) as Hc2.
  destruct (Ha s1) as (Hk2 & Hv2 & Hn2).
  revert Hc2 Hk2 Hv2 Hn2. generalize (read_analog_values inp s1). intros s2 Hc2 Hk2 Hv2 Hn2.
  destruct (Hp s2) as (Hc3 & Hk3 & Hv3 & Hn3).
  rewrite Hc3, Hk3, Hv3, Hn3, Hc2, Hk2, Hv2, Hn2, Hk1, Hv1, Hn1. auto.
Qed.

Lemma loop_measures (inp : inputs) (s : state) :
  analogReadsCount s = 0 ->
  VcellCumul s = [F32.of_int 0; F32.of_int 0; F32.of_int 0; F32.of_int 0] ->
  length (Vcalibration s) = 4%nat -> length (Vcell s) = 4%nat ->
  let A := node_measured inp (Vcalibration s) in
  Vcell (loop inp s)
  = [A 0%nat; F32.sub (A 1%nat) (A 0%nat); F32.sub (A 2%nat) (A 1%nat);
     F32.sub (A 3%nat) (A 2%nat)]
  /\ Valim (loop inp s) = A 3%nat.
Proof.
  intros Hn Hc Hk Hv A.
  assert (H1 : forall i t, keeps Vcell (every_second i t))
    by (apply every_second_keeps; intros; intros x; keeps_goal Vcell).
  assert (H2 : forall i t, keeps Valim (every_second i t))
    by (apply every_second_keeps; intros; intros x; keeps_goal Valim).
  unfold loop. cbv zeta.
  destruct (measuring_sample inp (Int.u32 (millis inp)) s Hc) as (Hc3 & Hk3 & Hv3 & Hn3).
  revert Hc3 Hk3 Hv3 Hn3.
  generalize (define_pwm (read_analog_values inp (run_once_block (Int.u32 (millis inp)) s))).
  intros s3 Hc3 Hk3 Hv3 Hn3.
  cbn [analogReadsCount set_analogReadsCount].
  rewrite Hn3, Hn. change (Int.u16 (0 + 1)) with 1. change (1 >? 100) with false.
  cbv iota. rewrite H1, H2.
  destruct (Vcalibration s) as [|k0 [|k1 [|k2 [|k3 [|]]]]] eqn:Hks; try discriminate Hk.
  apply (calculate_voltages_nodes (set_analogReadsCount 1 s3) _ _ _ _ k0 k1 k2 k3).
  - exact Hc3.
  - exact Hk3.
  - cbn [Vcell set_analogReadsCount]. rewrite Hv3. exact Hv.
Qed.

Lemma reachable_measures (inp : inputs) (s : state) :
  reachable s ->
  let A := node_measured inp (Vcalibration s) in
  Vcell (loop inp s)
  = [A 0%nat; F32.sub (A 1%nat) (A 0%nat); F32.sub (A 2%nat) (A 1%nat);
     F32.sub (A 3%nat) (A 2%nat)]
  /\ Valim (loop inp s) = A 3%nat.
Proof.
  intros Hr. destruct (reachable_window s Hr) as [Hn Hc].
  destruct (reachable_sized s Hr) as (_ & Hk & _).
  apply loop_measures; try assumption. apply reachable_four_cells, Hr.
Qed.

(** X15. What a pass measures.  From any reachable state, a pass of [loop]
    resolves the four node voltages from the one reading it has just
    taken on each channel, with the calibrations in force: the cells are
    the bottom node and the differences of neighbouring nodes, the supply
    voltage is the top node.  No earlier reading enters the result. *)
Theorem pass_measures_its_own_sample (inp : inputs) (s : state) :
  reachable s ->
  let A := node_measured inp (Vcalibration s) in
  Vcell (loop inp s)
  = [A 0%nat; F32.sub (A 1%nat) (A 0%nat); F32.sub (A 2%nat) (A 1%nat);
     F32.sub (A 3%nat) (A 2%nat)]
  /\ Valim (loop inp s) = A 3%nat.
Proof. exact (reachable_measures inp s). Qed.

(** The pass at 65 s from the state [alarmed]. *)
Lemma pass_measures_its_own_sample_witness :
  let inp := pass 65000 healthy_readings true in
  let A := node_measured inp (Vcalibration alarmed) in
  Vcell (loop inp alarmed)
  = [A 0%nat; F32.sub (A 1%nat) (A 0%nat); F32.sub (A 2%nat) (A 1%nat);
     F32.sub (A 3%nat) (A 2%nat)]
  /\ Valim (loop inp alarmed) = A 3%nat.
Proof.
  exact (pass_measures_its_own_sample (pass 65000 healthy_readings true) alarmed
           (reachable_run _ _ (reachable_setup _ _))).
Defined.

(** *** A start on an EEPROM that was never written *)

Lemma erased_read (n a : nat) : default 255 (repeat 255 n !! a) = 255.
Proof.
  revert a. induction n as [|n IH]; intros a; [reflexivity|].
  destruct a; [reflexivity | apply IH].
Qed.

Lemma setup_parameters (eeprom : list Z) (inp : inputs) :
  let s := setup inp (power_on eeprom) in
  let cell a := default 255 (eeprom !! a) in
  Vcalibration s
  = map (fun i => calibration_of_bytes (cell (2 * i)%nat) (cell (2 * i + 1)%nat)) [0; 1; 2; 3]%nat
  /\ Vmax s = map (fun a => threshold_of_byte (cell a)) [8; 9]%nat
  /\ Vmin s = map (fun a => threshold_of_byte (cell a)) [10; 11]%nat.
Proof.
  intros s cell. subst s. unfold setup. cbv zeta. unfold FIRST_USE. cbv iota.
  set (x := emit (Println "Starting....") _).
  assert (Hx : arrays_sized x /\ EEPROM x = eeprom).
  { subst x. unfold arrays_sized, emit. cbn [Vcalibration Vmax Vmin EEPROM set_output].
    rewrite (for_up_frame Vcalibration), (for_up_frame Vmax), (for_up_frame Vmin),
      (for_up_frame EEPROM) by reflexivity.
    repeat split. }
  destruct Hx as [Hx He]. clearbody x.
  unfold emit. cbn [Vcalibration Vmax Vmin set_output].
  assert (H1 : keeps Vcalibration (RotactorConfig inp)) by (intros y; keeps_goal Vcalibration).
  assert (H2 : keeps Vmax (RotactorConfig inp)) by (intros y; keeps_goal Vmax).
  assert (H3 : keeps Vmin (RotactorConfig inp)) by (intros y; keeps_goal Vmin).
  rewrite H1, H2, H3, (EEPROM_Get_loads x Hx).
  cbn [Vcalibration Vmax Vmin set_Vmin set_Vmax set_Vcalibration].
  unfold EEPROM_read. rewrite He. auto.
Qed.






(** ** The tendency display *)

(** *** The sign of a binary32 difference *)










(** ** The thresholds, from [setup] to the console commands *)

(** *** The thresholds [setup] loads *)

Lemma threshold_bytes_ordered (b1 b2 : Z) :
  0 <= b1 <= 255 -> 0 <= b2 <= 255 ->
  F32.ltb (threshold_of_byte b1) (threshold_of_byte b2) = (b1 <? b2).
Proof.
  intros H1 H2.
  pose proof (forallb_Zrange
    (fun x => forallb (fun y => Bool.eqb (F32.ltb (threshold_of_byte x) (threshold_of_byte y))
                                  (x <? y)) (Zrange 0 256)) 0 256) as H.
  specialize (H ltac:(vm_compute; reflexivity) b1 ltac:(lia)). cbv beta in H.
  pose proof (forallb_Zrange
    (fun y => Bool.eqb (F32.ltb (threshold_of_byte b1) (threshold_of_byte y)) (b1 <? y))
    0 256 H b2 ltac:(lia)) as H'.
  cbv beta in H'. apply eqb_prop in H'. exact H'.
Qed.

Lemma threshold_byte_in_range (b : Z) :
  0 <= b <= 255 -> in_console_range (threshold_of_byte b) = (b <=? 160).
Proof.
  intros Hb.
  pose proof (forallb_Zrange
    (fun x => Bool.eqb (in_console_range (threshold_of_byte x)) (x <=? 160)) 0 256) as H.
  specialize (H ltac:(vm_compute; reflexivity) b ltac:(lia)). cbv beta in H.
  apply eqb_prop in H. exact H.
Qed.

Lemma stored_byte (eeprom : list Z) (a : nat) :
  Forall (fun b => 0 <= b <= 255) eeprom -> 0 <= default 255 (eeprom !! a) <= 255.
Proof.
  intros H. destruct (eeprom !! a) as [b|] eqn:Hb; cbn [default from_option id].
  - exact (Forall_lookup_1 _ _ _ _ H Hb).
  - lia.
Qed.

Lemma setup_thresholds (eeprom : list Z) (inp : inputs) :
  Forall (fun b => 0 <= b <= 255) eeprom ->
  let s := setup inp (power_on eeprom) in
  let cell a := default 255 (eeprom !! a) in
  thresholds_ordered s = (cell 10%nat <? cell 8%nat) && (cell 11%nat <? cell 9%nat)
  /\ (thresholds_in_range s
      <-> cell 8%nat <= 160 /\ cell 9%nat <= 160 /\ cell 10%nat <= 160 /\ cell 11%nat <= 160).
Proof.
  intros Hrom s cell.
  destruct (setup_parameters eeprom inp) as (_ & Hx & Hn).
  cbv zeta in Hx, Hn. fold s in Hx, Hn. fold cell in Hx, Hn. cbn [map] in Hx, Hn.
  pose proof (stored_byte eeprom 8 Hrom) as H8. pose proof (stored_byte eeprom 9 Hrom) as H9.
  pose proof (stored_byte eeprom 10 Hrom) as H10.
  pose proof (stored_byte eeprom 11 Hrom) as H11.
  fold cell in H8, H9, H10, H11.
  unfold thresholds_ordered, thresholds_in_range. rewrite Hx, Hn.
  change ((?a :: ?l) !!! 0%nat) with a. change ((?a :: ?b :: ?l) !!! 1%nat) with b.
  rewrite !threshold_bytes_ordered by assumption. split; [reflexivity|].
  rewrite !Forall_cons, !threshold_byte_in_range by assumption.
  rewrite !Z.leb_le. pose proof (Forall_nil_2 (fun v => in_console_range v = true)). tauto.
Qed.

(** *** What an ['L'] or ['H'] command stores *)

Lemma elem_of_insert {A : Type} (l : list A) (i : nat) (x v : A) :
  v ∈ <[i := x]> l -> v = x \/ v ∈ l.
Proof.
  intros H. apply list_elem_of_lookup in H as [j Hj].
  apply list_lookup_insert_Some in Hj as [(_ & <- & _) | (_ & Hj)].
  - left. reflexivity.
  - right. eapply list_elem_of_lookup_2, Hj.
Qed.

Lemma command_L_stores s :
  Vmax (command_L s) = Vmax s
  /\ (forall v, v ∈ Vmin (command_L s) -> v ∈ Vmin s \/ in_console_range v = true).
Proof.
  unfold command_L. cbv zeta.
  destruct ((value3 (consoleInput s) <? 270) || (value3 (consoleInput s) >? 460)) eqn:Hval.
  { split; [reflexivity | intros v Hv; left; exact Hv]. }
  apply value3_accepted, console_value_in_range in Hval.
  repeat case_match; (split; [reflexivity|]); intros v Hv; cbn [Vmin set_Vmin set_whatToDisplay emit set_output] in Hv;
    try (left; exact Hv);
    (apply elem_of_insert in Hv as [-> | Hv]; [right; exact Hval | left; exact Hv]).
Qed.

Lemma command_H_stores s :
  Vmin (command_H s) = Vmin s
  /\ (forall v, v ∈ Vmax (command_H s) -> v ∈ Vmax s \/ in_console_range v = true).
Proof.
  unfold command_H. cbv zeta.
  destruct ((value3 (consoleInput s) <? 270) || (value3 (consoleInput s) >? 460)) eqn:Hval.
  { split; [reflexivity | intros v Hv; left; exact Hv]. }
  apply value3_accepted, console_value_in_range in Hval.
  repeat case_match; (split; [reflexivity|]); intros v Hv; cbn [Vmax set_Vmax set_whatToDisplay emit set_output] in Hv;
    try (left; exact Hv);
    (apply elem_of_insert in Hv as [-> | Hv]; [right; exact Hval | left; exact Hv]).
Qed.

(** C6, amended.  The initialisers of the thresholds satisfy Vmin < Vmax
    for both chemistries and lie between 2.70 V and 4.60 V, but [setup]
    replaces them by the thresholds stored in EEPROM cells 8 to 11, each
    (byte + 300) / 100: after [setup], Vmin < Vmax holds exactly when cell
    10 is under cell 8 and cell 11 under cell 9, and the four thresholds
    lie between 2.70 V and 4.60 V exactly when the four cells are at most
    160.  Both hold on an EEPROM that stores the default parameters; both
    fail on an EEPROM that was never written.  An ['L'] or ['H'] command
    stores only a value between 270 and 460: after it each threshold is
    one that was there before or lies between 2.70 V and 4.60 V, so
    thresholds in that range stay there; an ['L'] command leaves Vmax as it
    is and an ['H'] command leaves Vmin as it is, in every state; a value
    outside 270..460 changes neither.  The commands do not compare Vmin
    with Vmax. *)
Theorem console_thresholds_stay_in_range :
  (forall eeprom,
      thresholds_ordered (power_on eeprom) = true /\ thresholds_in_range (power_on eeprom))
  /\ (forall eeprom inp, Forall (fun b => 0 <= b <= 255) eeprom ->
        let s := setup inp (power_on eeprom) in
        let cell a := default 255 (eeprom !! a) in
        Vmax s = [threshold_of_byte (cell 8%nat); threshold_of_byte (cell 9%nat)]
        /\ Vmin s = [threshold_of_byte (cell 10%nat); threshold_of_byte (cell 11%nat)]
        /\ thresholds_ordered s = (cell 10%nat <? cell 8%nat) && (cell 11%nat <? cell 9%nat)
        /\ (thresholds_in_range s
            <-> cell 8%nat <= 160 /\ cell 9%nat <= 160
                /\ cell 10%nat <= 160 /\ cell 11%nat <= 160))
  /\ (forall inp, let s := setup inp (power_on stored_defaults) in
        thresholds_ordered s = true /\ thresholds_in_range s)
  /\ (forall inp n, let s := setup inp (power_on (repeat 255 n)) in
        thresholds_ordered s = false /\ ~ thresholds_in_range s)
  /\ (forall s, Vmax (command_L s) = Vmax s /\ Vmin (command_H s) = Vmin s)
  /\ (forall s v,
        (elem_of v (Vmin (command_L s)) -> elem_of v (Vmin s) \/ in_console_range v = true)
        /\ (elem_of v (Vmax (command_H s)) -> elem_of v (Vmax s) \/ in_console_range v = true))
  /\ (forall s, thresholds_in_range s ->
        (thresholds_in_range (command_L s) /\ Vmax (command_L s) = Vmax s)
        /\ (thresholds_in_range (command_H s) /\ Vmin (command_H s) = Vmin s))
  /\ (forall s, (value3 (consoleInput s) <? 270) || (value3 (consoleInput s) >? 460) = true ->
        (Vmin (command_L s) = Vmin s /\ Vmax (command_L s) = Vmax s)
        /\ (Vmin (command_H s) = Vmin s /\ Vmax (command_H s) = Vmax s)).
Proof.
  split; [|split; [|split; [|split; [|split; [|split; [|split]]]]]].
  - intros eeprom. split; [vm_compute; reflexivity|].
    split; simpl; repeat constructor.
  - intros eeprom inp Hrom s cell.
    destruct (setup_parameters eeprom inp) as (_ & Hx & Hn).
    destruct (setup_thresholds eeprom inp Hrom) as [Ho Hr].
    split; [exact Hx|]. split; [exact Hn|]. split; [exact Ho | exact Hr].
  - intros inp s. subst s.
    assert (Hrom : Forall (fun b => 0 <= b <= 255) stored_defaults)
      by (unfold stored_defaults; repeat constructor; lia).
    destruct (setup_thresholds stored_defaults inp Hrom) as [Ho Hr].
    split; [rewrite Ho; reflexivity|]. apply Hr. vm_compute. repeat split; discriminate.
  - intros inp n s. subst s.
    assert (Hrom : Forall (fun b => 0 <= b <= 255) (repeat 255 n))
      by (apply List.Forall_forall; intros b Hb; apply repeat_spec in Hb; lia).
    destruct (setup_thresholds (repeat 255 n) inp Hrom) as [Ho Hr].
    cbv zeta in Ho, Hr. rewrite !erased_read in Ho. split; [exact Ho|].
    intros H. apply Hr in H. rewrite !erased_read in H. lia.
  - intros s. split; [apply command_L_stores | apply command_H_stores].
  - intros s v. split; [apply command_L_stores | apply command_H_stores].
  - intros s Hs. split; [apply command_L_thresholds | apply command_H_thresholds]; exact Hs.
  - intros s Hval. unfold command_L, command_H. rewrite Hval. simpl. auto.
Qed.

(** The command [HT300] applied where the thresholds are the default ones,
    which [setup] has loaded from the EEPROM. *)
Lemma console_thresholds_stay_in_range_witness :
  (let s := set_consoleInput (bytes_of "HT300" ++ [0; 0]) started in
   thresholds_in_range (command_H s) /\ Vmin (command_H s) = Vmin s)
  /\ thresholds_ordered started = true.
Proof.
  destruct console_thresholds_stay_in_range as (_ & _ & Hdefault & _ & _ & _ & Hrange & _).
  split.
  - apply Hrange. split; vm_compute; repeat constructor.
  - exact (proj1 (Hdefault (pass 0 [] true))).
Defined.

(** ** The duty cycle without over-current *)

(** *** Passes that measure a bottom cell under 4.9 V *)

Lemma loop_below_sentinel (inp : inputs) (s : state) :
  reachable s -> measures_below_sentinel s inp = true ->
  F32.ltb (Vcell (loop inp s) !!! 0%nat) (F32.lit 49 10) = true.
Proof.
  intros Hr Hlow. destruct (reachable_measures inp s Hr) as [Hv _]. cbv zeta in Hv.
  rewrite Hv. exact Hlow.
Qed.

Lemma measures_below_sentinel_ext (s s' : state) (inp : inputs) :
  Vcalibration s' = Vcalibration s ->
  measures_below_sentinel s' inp = measures_below_sentinel s inp.
Proof. unfold measures_below_sentinel. intros ->. reflexivity. Qed.

Lemma run_pwm_below_sentinel (ticks : list inputs) (s : state) :
  reachable s -> F32.ltb (Vcell s !!! 0%nat) (F32.lit 49 10) = true ->
  Forall (fun inp => measures_below_sentinel s inp = true) ticks ->
  pwm (run ticks s) = Z.max 0 (pwm s - Z.of_nat (length ticks)).
Proof.
  revert s. induction ticks as [|inp ticks IH]; intros s Hr Hlow Hall; cbn [run foldl length].
  - pose proof (reachable_pwm_range s Hr). lia.
  - apply Forall_cons in Hall as [Hinp Hrest].
    change (foldl (fun x i => loop i x) (loop inp s) ticks) with (run ticks (loop inp s)).
    rewrite IH.
    + rewrite loop_pwm_saturating by (apply reachable_pwm_range, Hr).
      unfold throttles. rewrite Hlow, orb_true_r. lia.
    + eapply reachable_step; [exact Hr | apply step_loop].
    + apply loop_below_sentinel; assumption.
    + eapply Forall_impl; [exact Hrest|]. intros i Hi. cbv beta in *.
      rewrite (measures_below_sentinel_ext s) by apply loop_Vcalibration. exact Hi.
Qed.

Lemma run_pwm_held_back (inp : inputs) (rest : list inputs) (s : state) :
  reachable s ->
  Forall (fun i => measures_below_sentinel s i = true) (inp :: rest) ->
  pwm (run (inp :: rest) s) = Z.max 0 (pwm (loop inp s) - Z.of_nat (length rest)).
Proof.
  intros Hr Hall. apply Forall_cons in Hall as [Hinp Hrest].
  change (run (inp :: rest) s) with (run rest (loop inp s)).
  apply run_pwm_below_sentinel.
  - eapply reachable_step; [exact Hr | apply step_loop].
  - apply loop_below_sentinel; assumption.
  - eapply Forall_impl; [exact Hrest|]. intros i Hi. cbv beta in *.
    rewrite (measures_below_sentinel_ext s) by apply loop_Vcalibration. exact Hi.
Qed.

Lemma started_below_sentinel (inp : inputs) :
  0 <= reading inp 0 <= 1023 ->
  measures_below_sentinel started inp = (reading inp 0 <=? 1002).
Proof.
  intros Hr. unfold measures_below_sentinel, node_measured.
  change (Vcalibration started !!! 0%nat) with (calibration_of_bytes 3 232).
  pose proof (forallb_Zrange
    (fun r => Bool.eqb
                (F32.ltb (node_voltage (F32.add (F32.of_int 0) (F32.of_int r)) 1
                            (calibration_of_bytes 3 232) 0) (F32.lit 49 10))
                (r <=? 1002)) 0 1024) as H.
  specialize (H ltac:(vm_compute; reflexivity) (reading inp 0) ltac:(lia)). cbv beta in H.
  apply eqb_prop in H. exact H.
Qed.

Lemma non_overcurrent_passes_leave_zero :
  let ticks := map (fun k => pass (10 * k) healthy_readings true) (Zrange 1 300) in
  Forall (fun inp => ImaxLevel inp = true) ticks
  /\ pwm (run ticks started) = 0
  /\ pwm (run ticks (set_pwm 200 started)) = 0.
Proof.
  cbv zeta. split; [|split].
  - apply List.Forall_map, List.Forall_forall. intros k _. reflexivity.
  - vm_compute. reflexivity.
  - vm_compute. reflexivity.
Qed.

(** C7.  The duty cycle never leaves [0,255]: it is in that range in every
    reachable state and after every sequence of passes, and each pass
    moves it by exactly one, down when the pass throttles and up
    otherwise, except at 0 and 255 where it stays.  Passes that all see
    the over-current signal lower it by one each, down to 0 (from 3, fifty
    of them leave 0).  The passes that raise it, up to 255, are those on
    which the test of line 183 is false, and these are not the passes
    without over-current: that test also throttles while the bottom cell
    reads under 4.9 V.  After a first pass, passes that each measure a
    bottom cell under 4.9 V lower the duty by one each, down to 0,
    over-current or not; from the started system these are the passes
    whose bottom reading is at most 1002 counts.  Three hundred passes
    without over-current, 10 ms apart, at 800 counts (3.91 V per cell)
    leave the duty at 0, from 0 and from 200, where sustained passes
    without over-current are expected to leave 255. *)
Theorem duty_cycle_stays_in_range :
  (forall s, reachable s -> 0 <= pwm s <= 255)
  /\ (forall ticks s, 0 <= pwm s <= 255 -> 0 <= pwm (run ticks s) <= 255)
  /\ (forall inp s, 0 <= pwm s <= 255 ->
        pwm (loop inp s)
        = if throttles inp s then Z.max 0 (pwm s - 1) else Z.min 255 (pwm s + 1))
  /\ (forall ticks s, 0 <= pwm s <= 255 ->
        Forall (fun inp => ImaxLevel inp = false) ticks ->
        pwm (run ticks s) = Z.max 0 (pwm s - Z.of_nat (length ticks)))
  /\ (forall ticks s, pwm s = 3 -> length ticks = 50%nat ->
        Forall (fun inp => ImaxLevel inp = false) ticks -> pwm (run ticks s) = 0)
  /\ (forall ticks s, 0 <= pwm s <= 255 -> never_throttles ticks s = true ->
        pwm (run ticks s) = Z.min 255 (pwm s + Z.of_nat (length ticks)))
  /\ (forall inp rest s, reachable s ->
        Forall (fun i => measures_below_sentinel s i = true) (inp :: rest) ->
        pwm (run (inp :: rest) s) = Z.max 0 (pwm (loop inp s) - Z.of_nat (length rest)))
  /\ (forall inp, 0 <= reading inp 0 <= 1023 ->
        measures_below_sentinel started inp = (reading inp 0 <=? 1002))
  /\ (let ticks := map (fun k => pass (10 * k) healthy_readings true) (Zrange 1 300) in
      Forall (fun inp => ImaxLevel inp = true) ticks
      /\ pwm (run ticks started) = 0
      /\ pwm (run ticks (set_pwm 200 started)) = 0).
Proof.
  split; [exact reachable_pwm_range|].
  split; [exact run_pwm_range|].
  split; [exact loop_pwm_saturating|].
  split; [exact run_pwm_overcurrent|].
  split; [|split; [exact run_pwm_unthrottled|]].
  - intros ticks s H3 Hlen Hall. rewrite run_pwm_overcurrent by (auto; lia). lia.
  - split; [exact run_pwm_held_back|].
    split; [exact started_below_sentinel | exact non_overcurrent_passes_leave_zero].
Qed.

(** Fifty passes with the over-current signal active, from a duty of 3. *)
Lemma duty_cycle_stays_in_range_witness :
  0 <= pwm started <= 255
  /\ pwm (run (repeat (pass 0 healthy_readings false) 50) (set_pwm 3 started)) = 0.
Proof.
  destruct duty_cycle_stays_in_range as (Hreach & _ & _ & _ & Hfifty & _).
  split.
  - apply Hreach, reachable_setup.
  - apply Hfifty.
    + reflexivity.
    + reflexivity.
    + apply List.Forall_forall. intros inp Hin. apply repeat_spec in Hin. subst inp. reflexivity.
Defined.
